(** * dex-swap-api-helper: the Odos and KyberSwap clients

    A shallow embedding of [odos/odos.go] and [kyberswap/kyber.go] together
    with the parts of the Go standard library those two files lean on
    ([fmt], [unicode/utf8], [strconv], [encoding/json], [io], [net/http],
    [time]), followed by the properties of the clients.

    Conventions.
    - A Go [string] or [[]byte] is a [string]: a sequence of 8-bit bytes.
    - Go integers are [Z]; where the source computes in [int64] the wrap-around
      is written out ([wrap64]).  [int] is taken to be 64 bits wide.
    - A [float64] is a [spec_float] of precision 53 and maximal exponent 1024.
    - A Go [error] is its message plus the chain of errors it wraps.
    - A function returning a pointer and an [error] returns a pair of options, so that
      "nil result" and "nil error" stay two independent facts.
    - Pointers are locations of a store; dereferencing a location that holds
      nothing is Go's nil-pointer panic.
    - The network and the clock are the [World] the program runs in.
    - Calls to the logger ([zerolog]) have no influence on results and are
      left out. *)

From Stdlib Require Import ZArith Lia Ascii String List.
From Stdlib Require Import DecimalString DecimalZ DecimalPos DecimalFacts SpecFloat.
From stdpp Require Import base option list gmap strings.

#[global] Open Scope Z_scope.
#[global] Arguments String.append !s1 s2 / : simpl nomatch.

(** ** Byte strings *)

(** The double quote *)
Definition dquote : ascii := "034"%char.

Definition byte_val (c : ascii) : Z := Z.of_N (N_of_ascii c).
Definition byte_of (z : Z) : ascii := ascii_of_N (Z.to_N z).

Fixpoint len (s : string) : nat :=
  match s with
  | EmptyString => O
  | String _ s' => S (len s')
  end.

(** [s[n:]] and [s[:n]] *)
Fixpoint drop_bytes (n : nat) (s : string) : string :=
  match n, s with
  | O, _ => s
  | S n', String _ s' => drop_bytes n' s'
  | S _, EmptyString => EmptyString
  end.

Fixpoint take_bytes (n : nat) (s : string) : string :=
  match n, s with
  | O, _ => EmptyString
  | S n', String c s' => String c (take_bytes n' s')
  | S _, EmptyString => EmptyString
  end.

(** [sub] occurs in [s] as a contiguous run of bytes ([strings.Contains]). *)
Definition contains (s sub : string) : Prop :=
  exists pre post : string, s = pre +:+ sub +:+ post.

Fixpoint has_prefix (s p : string) {struct p} : bool :=
  match p, s with
  | EmptyString, _ => true
  | String c p', String d s' => if Ascii.eqb c d then has_prefix s' p' else false
  | String _ _, EmptyString => false
  end.

Fixpoint containsb (s sub : string) : bool :=
  has_prefix s sub ||
  match s with
  | EmptyString => false
  | String _ s' => containsb s' sub
  end.

Definition isDigit (c : ascii) : bool :=
  (byte_val "0" <=? byte_val c) && (byte_val c <=? byte_val "9").

(** The longest run of digits [s] starts with, and what follows it. *)
Fixpoint span_digits (s : string) : string * string :=
  match s with
  | EmptyString => (EmptyString, EmptyString)
  | String c s' =>
      if isDigit c then let '(ds, r) := span_digits s' in (String c ds, r)
      else (EmptyString, s)
  end.

(** The number a run of digits denotes, continuing from [acc]. *)
Fixpoint digits_val (acc : Z) (s : string) : Z :=
  match s with
  | EmptyString => acc
  | String c s' => digits_val (acc * 10 + (byte_val c - byte_val "0")) s'
  end.

(** ** Errors *)

(** [errorString] is an error that wraps nothing ([errors.New], [fmt.Errorf]
    without [%w], and the errors of the libraries, kept by their text);
    [wrapError] is what [fmt.Errorf] builds around the operand of [%w]. *)
Inductive error : Type :=
| errorString (s : string)
| wrapError (msg : string) (err : error).

Definition Error (e : error) : string :=
  match e with
  | errorString s => s
  | wrapError msg _ => msg
  end.

Definition Unwrap (e : error) : option error :=
  match e with
  | errorString _ => None
  | wrapError _ err => Some err
  end.

(** The outcome of a library call that yields a value or an error. *)
Inductive result (A : Type) : Type :=
| Ok (a : A)
| Err (e : error).
Arguments Ok {A} a.
Arguments Err {A} e.

#[global] Instance result_ret : MRet result := fun A a => Ok a.
#[global] Instance result_bind : MBind result := fun A B f x =>
  match x with
  | Ok a => f a
  | Err e => Err e
  end.
#[global] Instance result_fmap : FMap result := fun A B f x =>
  match x with
  | Ok a => Ok (f a)
  | Err e => Err e
  end.

(** [int64] arithmetic wraps around modulo 2^64 into [-2^63, 2^63). *)
Definition min_int64 : Z := - 2 ^ 63.
Definition max_int64 : Z := 2 ^ 63 - 1.
Definition in_int64 (z : Z) : bool := (min_int64 <=? z) && (z <=? max_int64).
Definition wrap64 (z : Z) : Z := (z + 2 ^ 63) mod 2 ^ 64 - 2 ^ 63.

(** ** Package strconv: integers *)

Module strconv.

(** [strconv.FormatInt(z, 10)] *)
Definition FormatInt (z : Z) : string := NilZero.string_of_int (Z.to_int z).

(** [strconv.ParseInt(s, 10, 64)] on a JSON number literal: the literal has
    to be a run of decimal digits with an optional minus sign, and its value
    has to fit [int64]. *)
Definition ParseInt (s : string) : option Z :=
  match NilZero.int_of_string s with
  | Some d => let z := Z.of_int d in if in_int64 z then Some z else None
  | None => None
  end.

Definition float64 : Type := spec_float.

Definition prec : Z := 53.
Definition emax : Z := 1024.

(** The [float64] nearest to [n / d] (ties to even), for [n], [d] > 0. *)
Definition nearest (neg : bool) (n d : Z) : float64 :=
  let '(q, e, l) := SFdiv_core_binary prec emax n 0 d 0 in
  binary_round_aux prec emax neg q e l.

(** The exponent part of a number literal: nothing, or [e] or [E], an
    optional sign and digits up to the end of the literal. *)
Definition parse_exp (s : string) : option Z :=
  match s with
  | EmptyString => Some 0
  | String c r =>
      if Ascii.eqb c "e" || Ascii.eqb c "E" then
        let '(neg, r1) :=
          match r with
          | String c' r' =>
              if Ascii.eqb c' "-" then (true, r')
              else if Ascii.eqb c' "+" then (false, r')
              else (false, r)
          | EmptyString => (false, r)
          end in
        match span_digits r1 with
        | (String d ds, EmptyString) =>
            let e := digits_val 0 (String d ds) in Some (if neg then - e else e)
        | _ => None
        end
      else None
  end.

(** [strconv.ParseFloat(s, 64)] on a JSON number literal: the nearest
    [float64] to the decimal number the literal writes; [None] stands for
    the range error of a literal that rounds to an infinity (and for a
    text that is no JSON number, which the decoder never passes). *)
Definition ParseFloat (s : string) : option float64 :=
  let '(neg, s1) :=
    match s with
    | String c r => if Ascii.eqb c "-" then (true, r) else (false, s)
    | EmptyString => (false, s)
    end in
  match span_digits s1 with
  | (EmptyString, _) => None
  | (ip, s2) =>
      let dot := match s2 with String c _ => Ascii.eqb c "." | EmptyString => false end in
      let '(fp, s3) := if dot then span_digits (drop_bytes 1 s2) else (EmptyString, s2) in
      match dot, fp with
      | true, EmptyString => None
      | _, _ =>
          match parse_exp s3 with
          | None => None
          | Some e =>
              let m := digits_val 0 (ip +:+ fp) in
              let e10 := e - Z.of_nat (len fp) in
              if m =? 0 then Some (S754_zero neg)
              else
                let f := if 0 <=? e10 then nearest neg (m * 10 ^ e10) 1
                         else nearest neg m (10 ^ (- e10)) in
                match f with
                | S754_finite _ _ _ | S754_zero _ => Some f
                | _ => None
                end
          end
      end
  end.

Definition IsFinite (f : float64) : bool :=
  match f with
  | S754_finite _ _ _ | S754_zero _ => true
  | _ => false
  end.

(** The text [encoding/json] writes for a finite [float64]:
    [strconv.AppendFloat] with the shortest digits that parse back to the
    same number, in format ['f'], or ['e'] for magnitudes below [1e-6] or
    from [1e21] on.  Producing the shortest decimal of a binary
    floating-point number is not modelled: the function is a parameter of
    the development. *)
Class FloatFormat : Type := FormatFloat : float64 -> string.

(** [a] and [b] are the same datum (not the comparison [==] of the language,
    under which the two zeros are equal). *)
Definition float_eqb (a b : float64) : bool :=
  match a, b with
  | S754_zero s, S754_zero s' => Bool.eqb s s'
  | S754_infinity s, S754_infinity s' => Bool.eqb s s'
  | S754_nan, S754_nan => true
  | S754_finite s m e, S754_finite s' m' e' => Bool.eqb s s' && Pos.eqb m m' && Z.eqb e e'
  | _, _ => false
  end.

End strconv.

(** ** Package fmt *)

Module fmt.

(** The operands the program hands to [Sprintf] and [Errorf]. *)
Inductive arg : Type :=
| S_ (s : string)
| D_ (z : Z)
| W_ (e : error).

(** One verb applied to one operand.  The program only pairs [%s] with a
    string, [%d] with an integer and [%w] with an error; a mismatch prints
    Go's bad-verb marker. *)
Definition verb (v : ascii) (a : arg) : string :=
  match a with
  | S_ s => if Ascii.eqb v "s" then s else "%!" +:+ String v "(string=" +:+ s +:+ ")"
  | D_ z =>
      if Ascii.eqb v "d" then strconv.FormatInt z
      else "%!" +:+ String v "(int=" +:+ strconv.FormatInt z +:+ ")"
  | W_ e =>
      if Ascii.eqb v "w" || Ascii.eqb v "s" || Ascii.eqb v "v" then Error e
      else "%!" +:+ String v "(error=" +:+ Error e +:+ ")"
  end.

Fixpoint Sprintf (format : string) (a : list arg) : string :=
  match format with
  | EmptyString => EmptyString
  | String c rest =>
      if Ascii.eqb c "%" then
        match rest with
        | EmptyString => "%!(NOVERB)"
        | String v rest' =>
            match a with
            | x :: a' => verb v x +:+ Sprintf rest' a'
            | [] => "%!" +:+ String v "(MISSING)" +:+ Sprintf rest' []
            end
        end
      else String c (Sprintf rest a)
  end.

(** The operand of the first [%w], if the format has one. *)
Fixpoint wrapped (format : string) (a : list arg) : option error :=
  match format with
  | EmptyString => None
  | String c rest =>
      if Ascii.eqb c "%" then
        match rest with
        | EmptyString => None
        | String v rest' =>
            match a with
            | W_ e :: a' => if Ascii.eqb v "w" then Some e else wrapped rest' a'
            | _ :: a' => wrapped rest' a'
            | [] => None
            end
        end
      else wrapped rest a
  end.

Definition Errorf (format : string) (a : list arg) : error :=
  match wrapped format a with
  | Some e => wrapError (Sprintf format a) e
  | None => errorString (Sprintf format a)
  end.

End fmt.

(** ** Package unicode/utf8 *)

Module utf8.

Definition RuneError : Z := 0xFFFD.
Definition RuneSelf : Z := 0x80.
Definition MaxRune : Z := 0x10FFFF.
Definition surrogateMin : Z := 0xD800.
Definition surrogateMax : Z := 0xDFFF.
Definition rune1Max : Z := 0x7F.
Definition rune2Max : Z := 0x7FF.
Definition rune3Max : Z := 0xFFFF.
Definition tx : Z := 0x80.
Definition t2 : Z := 0xC0.
Definition t3 : Z := 0xE0.
Definition t4 : Z := 0xF0.
Definition maskx : Z := 0x3F.
Definition mask2 : Z := 0x1F.
Definition mask3 : Z := 0x0F.
Definition mask4 : Z := 0x07.
Definition locb : Z := 0x80.
Definition hicb : Z := 0xBF.

(** The table [first] joined with [acceptRanges]: for a leading byte of a
    multi-byte sequence, the length of the sequence and the range the
    second byte has to lie in; [None] for the entries [xx] (a byte that
    cannot start a sequence).  ASCII bytes are handled before the table is
    consulted. *)
Definition first (p0 : Z) : option (nat * Z * Z) :=
  if p0 <? 0xC2 then None
  else if p0 <=? 0xDF then Some (2%nat, locb, hicb)
  else if p0 =? 0xE0 then Some (3%nat, 0xA0, hicb)
  else if p0 <=? 0xEC then Some (3%nat, locb, hicb)
  else if p0 =? 0xED then Some (3%nat, locb, 0x9F)
  else if p0 <=? 0xEF then Some (3%nat, locb, hicb)
  else if p0 =? 0xF0 then Some (4%nat, 0x90, hicb)
  else if p0 <=? 0xF3 then Some (4%nat, locb, hicb)
  else if p0 =? 0xF4 then Some (4%nat, locb, 0x8F)
  else None.

(** [utf8.DecodeRune]: the first rune of [p] and its width in bytes.  Every
    failure (a byte that starts nothing, a sequence cut short, a byte out
    of range) yields [(RuneError, 1)], so the source's test [n < sz] is
    the same as running out of bytes while reading on. *)
Definition DecodeRune (p : string) : Z * nat :=
  match p with
  | EmptyString => (RuneError, 0%nat)
  | String c0 p1 =>
      let p0 := byte_val c0 in
      if p0 <? RuneSelf then (p0, 1%nat)
      else
        match first p0 with
        | None => (RuneError, 1%nat)
        | Some (sz, lo, hi) =>
            match p1 with
            | EmptyString => (RuneError, 1%nat)
            | String c1 p2 =>
                let b1 := byte_val c1 in
                if (b1 <? lo) || (hi <? b1) then (RuneError, 1%nat)
                else if (sz <=? 2)%nat then
                  (Z.lor (Z.shiftl (Z.land p0 mask2) 6) (Z.land b1 maskx), 2%nat)
                else
                  match p2 with
                  | EmptyString => (RuneError, 1%nat)
                  | String c2 p3 =>
                      let b2 := byte_val c2 in
                      if (b2 <? locb) || (hicb <? b2) then (RuneError, 1%nat)
                      else if (sz <=? 3)%nat then
                        (Z.lor (Z.lor (Z.shiftl (Z.land p0 mask3) 12)
                                      (Z.shiftl (Z.land b1 maskx) 6))
                               (Z.land b2 maskx), 3%nat)
                      else
                        match p3 with
                        | EmptyString => (RuneError, 1%nat)
                        | String c3 _ =>
                            let b3 := byte_val c3 in
                            if (b3 <? locb) || (hicb <? b3) then (RuneError, 1%nat)
                            else
                              (Z.lor (Z.lor (Z.lor (Z.shiftl (Z.land p0 mask4) 18)
                                                   (Z.shiftl (Z.land b1 maskx) 12))
                                            (Z.shiftl (Z.land b2 maskx) 6))
                                     (Z.land b3 maskx), 4%nat)
                        end
                  end
            end
        end
  end.

(** [byte(x)]: the low eight bits. *)
Definition byte (x : Z) : Z := Z.land x 0xFF.

Definition encode3 (r : Z) : string :=
  String (byte_of (Z.lor t3 (byte (Z.shiftr r 12))))
    (String (byte_of (Z.lor tx (Z.land (byte (Z.shiftr r 6)) maskx)))
       (String (byte_of (Z.lor tx (Z.land (byte r) maskx))) EmptyString)).

(** [utf8.EncodeRune], returning the bytes it writes.  A rune is an
    [int32]; the source compares [uint32(r)], under which a negative rune
    is larger than [MaxRune]. *)
Definition EncodeRune (r : Z) : string :=
  let i := r mod 2 ^ 32 in
  if i <=? rune1Max then String (byte_of (byte r)) EmptyString
  else if i <=? rune2Max then
    String (byte_of (Z.lor t2 (byte (Z.shiftr r 6))))
      (String (byte_of (Z.lor tx (Z.land (byte r) maskx))) EmptyString)
  else if (MaxRune <? i) || ((surrogateMin <=? i) && (i <=? surrogateMax)) then
    encode3 RuneError
  else if i <=? rune3Max then encode3 r
  else
    String (byte_of (Z.lor t4 (byte (Z.shiftr r 18))))
      (String (byte_of (Z.lor tx (Z.land (byte (Z.shiftr r 12)) maskx)))
         (String (byte_of (Z.lor tx (Z.land (byte (Z.shiftr r 6)) maskx)))
            (String (byte_of (Z.lor tx (Z.land (byte r) maskx))) EmptyString))).

(** [utf8.ValidString]; [fuel] bounds the number of runes. *)
Fixpoint valid_loop (fuel : nat) (s : string) : bool :=
  match fuel with
  | O => match s with EmptyString => true | _ => false end
  | S fuel' =>
      match s with
      | EmptyString => true
      | String c _ =>
          let '(r, size) := DecodeRune s in
          if (r =? RuneError) && (size =? 1)%nat then false
          else valid_loop fuel' (drop_bytes size s)
      end
  end.

Definition ValidString (s : string) : bool := valid_loop (len s) s.

(** A string that is a sequence of well-formed runes. *)
Inductive Valid : string -> Prop :=
| Valid_nil : Valid EmptyString
| Valid_rune (s : string) (r : Z) (size : nat) :
    s <> EmptyString ->
    DecodeRune s = (r, size) ->
    (r =? RuneError) && (size =? 1)%nat = false ->
    Valid (drop_bytes size s) ->
    Valid s.

(** Every byte of [s] is outside ASCII. *)
Fixpoint high (s : string) : bool :=
  match s with
  | EmptyString => true
  | String c s' => (RuneSelf <=? byte_val c) && high s'
  end.

(** The runes of two, three and four bytes, as [DecodeRune] assembles
    them. *)
Definition rune2 (p0 b1 : Z) : Z :=
  Z.lor (Z.shiftl (Z.land p0 mask2) 6) (Z.land b1 maskx).
Definition rune3 (p0 b1 b2 : Z) : Z :=
  Z.lor (Z.lor (Z.shiftl (Z.land p0 mask3) 12) (Z.shiftl (Z.land b1 maskx) 6)) (Z.land b2 maskx).
Definition rune4 (p0 b1 b2 b3 : Z) : Z :=
  Z.lor (Z.lor (Z.lor (Z.shiftl (Z.land p0 mask4) 18) (Z.shiftl (Z.land b1 maskx) 12))
               (Z.shiftl (Z.land b2 maskx) 6)) (Z.land b3 maskx).

(** [P] holds of every integer from [lo] to [hi]. *)
Definition forall_range (lo hi : Z) (P : Z -> bool) : bool :=
  forallb P (seqZ lo (hi - lo + 1)).

(** The bits of a rune of four bytes above its low six, and the first
    three bytes [EncodeRune] writes for them. *)
Definition high4 (p0 b1 b2 : Z) : Z :=
  Z.lor (Z.lor (Z.shiftl (Z.land p0 mask4) 12) (Z.shiftl (Z.land b1 maskx) 6)) (Z.land b2 maskx).

Definition encode4 (h : Z) (last : string) : string :=
  String (byte_of (Z.lor t4 (byte (Z.shiftr h 12))))
    (String (byte_of (Z.lor tx (Z.land (byte (Z.shiftr h 6)) maskx)))
       (String (byte_of (Z.lor tx (Z.land (byte h) maskx))) last)).

(** For the leading byte [p0], every well-formed sequence that starts with
    it is what [EncodeRune] writes for the rune it decodes to.  Of a
    sequence of four bytes the first three are checked here, through the
    bits they contribute; the last byte is the low six bits on its own. *)
Definition encodes_back (p0 : Z) : bool :=
  match first p0 with
  | None => true
  | Some (sz, lo, hi) =>
      forall_range lo hi (fun b1 =>
        if (sz <=? 2)%nat then
          String.eqb (EncodeRune (rune2 p0 b1))
            (String (byte_of p0) (String (byte_of b1) EmptyString))
        else
          forall_range locb hicb (fun b2 =>
            if (sz <=? 3)%nat then
              String.eqb (EncodeRune (rune3 p0 b1 b2))
                (String (byte_of p0) (String (byte_of b1) (String (byte_of b2) EmptyString)))
            else
              let h := high4 p0 b1 b2 in
              (0x400 <=? h) && (h <=? 0x43FF)
              && String.eqb (encode4 h EmptyString)
                   (String (byte_of p0) (String (byte_of b1) (String (byte_of b2)
                      EmptyString)))))
  end.

(** A continuation byte is the mark [tx] over its low six bits. *)
Definition continuation_back (b : Z) : bool := Z.lor tx (Z.land b maskx) =? b.

End utf8.

(** ** Package strconv: quoting *)

Module quote.

Definition lowerhex : string := "0123456789abcdef".

(** [lowerhex[i]] *)
Definition hexdigit (i : Z) : ascii :=
  match String.get (Z.to_nat i) lowerhex with
  | Some c => c
  | None => "000"%char
  end.

(** [strconv.IsPrint(r)] for a rune up to U+00FF, its check for Latin-1:
    the ASCII from the space to the tilde, and the runes from U+00A1 on but
    the soft hyphen. *)
Definition IsPrint (r : Z) : bool :=
  ((0x20 <=? r) && (r <=? 0x7E))
  || ((0xA1 <=? r) && (r <=? 0xFF) && negb (r =? 0xAD)).

(** [appendEscapedRune(buf, r, quote, false, false)] for a rune up to
    U+00FF: the bytes it appends. *)
Definition appendEscapedRune (r : Z) (quote : ascii) : string :=
  if (r =? byte_val quote) || (r =? byte_val "\") then
    String "\" (String (byte_of r) EmptyString)
  else if IsPrint r then utf8.EncodeRune r
  else if r =? 7 then "\a"
  else if r =? 8 then "\b"
  else if r =? 12 then "\f"
  else if r =? 10 then "\n"
  else if r =? 13 then "\r"
  else if r =? 9 then "\t"
  else if r =? 11 then "\v"
  else if (r <? 0x20) || (r =? 0x7F) then
    "\x" +:+ String (hexdigit (Z.shiftr (utf8.byte r) 4))
               (String (hexdigit (Z.land (utf8.byte r) 0xF)) EmptyString)
  else
    "\u" +:+ String (hexdigit (Z.land (Z.shiftr r 12) 0xF))
               (String (hexdigit (Z.land (Z.shiftr r 8) 0xF))
                  (String (hexdigit (Z.land (Z.shiftr r 4) 0xF))
                     (String (hexdigit (Z.land r 0xF)) EmptyString))).

End quote.

(** ** Package io *)

Module io.

(** A reader that yields the bytes [data] and then ends: with [io.EOF]
    when [err] is [None], with the error [err] otherwise (a connection
    that breaks, a timeout that fires while the body is read). *)
Record Reader : Type := { data : string; err : option error }.

Definition EOF : error := errorString "EOF".
Definition ErrUnexpectedEOF : error := errorString "unexpected EOF".

(** [io.ReadAll]: the bytes read, and the error that ended the reading
    unless that was [io.EOF]. *)
Definition ReadAll (r : Reader) : string * option error := (data r, err r).

End io.

(** ** Package encoding/json: the scanner *)

Module json.

(** A JSON text as the scanner delimits it.  A number keeps its literal
    (it is converted only once the target type is known), a string and an
    object key hold the bytes the literal unquotes to, an object keeps its
    members in the order of the text, duplicates included. *)
#[local] Unset Elimination Schemes.
Inductive value : Type :=
| Null
| Bool (b : bool)
| Num (lit : string)
| Str (s : string)
| Arr (elems : list value)
| Obj (members : list (string * value)).
#[local] Set Elimination Schemes.

(** What scanning a prefix of the input comes to: a complete item and the
    bytes after it, the end of the input before the item is complete, or a
    byte the grammar does not allow.  [Exhausted] is the recursion bound of
    the model running out; it does not happen for the bound [scan] uses
    ([scan_not_Exhausted]). *)
Inductive scanned (A : Type) : Type :=
| Parsed (a : A) (rest : string)
| Incomplete
| Invalid (msg : string)
| Exhausted.
Arguments Parsed {A} a rest.
Arguments Incomplete {A}.
Arguments Invalid {A} msg.
Arguments Exhausted {A}.

Definition bind_scanned {A B : Type} (x : scanned A) (f : A -> string -> scanned B) : scanned B :=
  match x with
  | Parsed a rest => f a rest
  | Incomplete => Incomplete
  | Invalid msg => Invalid msg
  | Exhausted => Exhausted
  end.

Definition maxNestingDepth : Z := 10000.

(** [quoteChar(c)]: the byte [c] between single quotes, as
    [strconv.Quote(string(c))] writes the rune [c] between its double
    quotes; the two quotes are cases of their own. *)
Definition quoteChar (c : ascii) : string :=
  if Ascii.eqb c "'" then "'\''"
  else if Ascii.eqb c dquote then String "'" (String dquote "'")
  else "'" +:+ quote.appendEscapedRune (byte_val c) dquote +:+ "'".

(** [scanner.error(c, context)]: the text of a [SyntaxError] about byte
    [c]. *)
Definition invalid_char {A : Type} (c : ascii) (context : string) : scanned A :=
  Invalid ("invalid character " +:+ quoteChar c +:+ " " +:+ context).

Definition isSpace (c : ascii) : bool :=
  Ascii.eqb c " " || Ascii.eqb c "009" || Ascii.eqb c "013" || Ascii.eqb c "010".

Fixpoint skip_space (s : string) : string :=
  match s with
  | EmptyString => EmptyString
  | String c s' => if isSpace c then skip_space s' else s
  end.

Definition isHex (c : ascii) : bool :=
  isDigit c
  || ((byte_val "a" <=? byte_val c) && (byte_val c <=? byte_val "f"))
  || ((byte_val "A" <=? byte_val c) && (byte_val c <=? byte_val "F")).

Fixpoint all_hex (s : string) : bool :=
  match s with
  | EmptyString => true
  | String c s' => isHex c && all_hex s'
  end.

(** States [stateE], [stateESign], [stateE0]: an optional exponent. *)
Definition scan_exp (lit s : string) : scanned string :=
  match s with
  | EmptyString => Parsed lit EmptyString
  | String c r =>
      if Ascii.eqb c "e" || Ascii.eqb c "E" then
        let '(sg, r1) :=
          match r with
          | String c' r' =>
              if Ascii.eqb c' "+" || Ascii.eqb c' "-"
              then (String c' EmptyString, r') else (EmptyString, r)
          | EmptyString => (EmptyString, r)
          end in
        let '(ds, r2) := span_digits r1 in
        match ds, r2 with
        | EmptyString, EmptyString => Incomplete
        | EmptyString, String x _ => invalid_char x "in exponent of numeric literal"
        | _, _ => Parsed (lit +:+ String c sg +:+ ds) r2
        end
      else Parsed lit s
  end.

(** States [stateDot], [stateDot0]: an optional fraction. *)
Definition scan_frac (lit s : string) : scanned string :=
  match s with
  | EmptyString => scan_exp lit s
  | String c r =>
      if Ascii.eqb c "." then
        let '(ds, r') := span_digits r in
        match ds, r' with
        | EmptyString, EmptyString => Incomplete
        | EmptyString, String x _ => invalid_char x "after decimal point in numeric literal"
        | _, _ => scan_exp (lit +:+ String "." ds) r'
        end
      else scan_exp lit s
  end.

(** States [stateNeg], [state0], [state1]: the literal of a number, for an
    input that starts with a minus sign or a digit. *)
Definition scan_number (s : string) : scanned string :=
  let '(sign, s1) :=
    match s with
    | String c r => if Ascii.eqb c "-" then (String "-" EmptyString, r) else (EmptyString, s)
    | EmptyString => (EmptyString, s)
    end in
  match s1 with
  | EmptyString => Incomplete
  | String c r =>
      if Ascii.eqb c "0" then scan_frac (sign +:+ "0") r
      else if isDigit c then
        let '(ds, r') := span_digits r in scan_frac (sign +:+ String c ds) r'
      else invalid_char c "in numeric literal"
  end.

(** The rest of a literal [true], [false] or [null] after its first byte. *)
Fixpoint scan_lit (name expect s : string) : scanned unit :=
  match expect with
  | EmptyString => Parsed tt s
  | String e expect' =>
      match s with
      | EmptyString => Incomplete
      | String c s' =>
          if Ascii.eqb c e then scan_lit name expect' s'
          else invalid_char c ("in literal " +:+ name +:+ " (expecting '" +:+ String e "')")
      end
  end.

Definition isShortEscape (c : ascii) : bool :=
  Ascii.eqb c "b" || Ascii.eqb c "f" || Ascii.eqb c "n" || Ascii.eqb c "r"
  || Ascii.eqb c "t" || Ascii.eqb c "\" || Ascii.eqb c "/" || Ascii.eqb c dquote.

Definition cons_raw (pre : string) (x : scanned string) : scanned string :=
  bind_scanned x (fun raw rest => Parsed (pre +:+ raw) rest).

(** States [stateInStringEscU] to [stateInStringEscU123] on bytes of
    which one is no hexadecimal digit: the error about the first such
    byte. *)
Fixpoint escU_error {A : Type} (s : string) : scanned A :=
  match s with
  | EmptyString => Incomplete
  | String c r =>
      if isHex c then escU_error r
      else invalid_char c "in \u hexadecimal character escape"
  end.

(** States [stateInString] to [stateInStringEscU123]: the raw text of a
    string literal, for the input after its opening quote. *)
Fixpoint scan_string (s : string) : scanned string :=
  match s with
  | EmptyString => Incomplete
  | String c r =>
      if Ascii.eqb c dquote then Parsed EmptyString r
      else if Ascii.eqb c "\" then
        match r with
        | EmptyString => Incomplete
        | String e r1 =>
            if isShortEscape e then cons_raw (String c (String e EmptyString)) (scan_string r1)
            else if Ascii.eqb e "u" then
              match r1 with
              | String h1 (String h2 (String h3 (String h4 r2))) =>
                  if isHex h1 && isHex h2 && isHex h3 && isHex h4 then
                    cons_raw (String c (String e (String h1 (String h2 (String h3
                                (String h4 EmptyString)))))) (scan_string r2)
                  else escU_error (String h1 (String h2 (String h3 (String h4 EmptyString))))
              | _ => if all_hex r1 then Incomplete else escU_error r1
              end
            else invalid_char e "in string escape code"
        end
      else if byte_val c <? 0x20 then invalid_char c "in string literal"
      else cons_raw (String c EmptyString) (scan_string r)
  end.

(** [getu4]: the rune of a [\uXXXX] escape at the start of [s], or [-1]. *)
Definition hexval (c : ascii) : option Z :=
  let b := byte_val c in
  if (byte_val "0" <=? b) && (b <=? byte_val "9") then Some (b - byte_val "0")
  else if (byte_val "a" <=? b) && (b <=? byte_val "f") then Some (b - byte_val "a" + 10)
  else if (byte_val "A" <=? b) && (b <=? byte_val "F") then Some (b - byte_val "A" + 10)
  else None.

Definition getu4 (s : string) : Z :=
  match s with
  | String b (String u (String h1 (String h2 (String h3 (String h4 _))))) =>
      if Ascii.eqb b "\" && Ascii.eqb u "u" then
        match hexval h1, hexval h2, hexval h3, hexval h4 with
        | Some a, Some b, Some c, Some d => ((a * 16 + b) * 16 + c) * 16 + d
        | _, _, _, _ => -1
        end
      else -1
  | _ => -1
  end.

(** [utf16.IsSurrogate] and [utf16.DecodeRune] *)
Definition IsSurrogate (r : Z) : bool := (0xD800 <=? r) && (r <? 0xE000).

Definition utf16_DecodeRune (r1 r2 : Z) : Z :=
  if (0xD800 <=? r1) && (r1 <? 0xDC00) && (0xDC00 <=? r2) && (r2 <? 0xE000)
  then Z.lor (Z.shiftl (r1 - 0xD800) 10) (r2 - 0xDC00) + 0x10000
  else utf8.RuneError.

Definition prepend (pre : string) (x : option string) : option string :=
  match x with
  | Some s => Some (pre +:+ s)
  | None => None
  end.

(** The loop of [unquoteBytes] over the text between the quotes.  Each
    turn consumes at least one byte, [fuel] bounds the turns. *)
Fixpoint unquote_loop (fuel : nat) (s : string) : option string :=
  match s with
  | EmptyString => Some EmptyString
  | String c r =>
      match fuel with
      | O => None
      | S fuel' =>
          if Ascii.eqb c "\" then
            match r with
            | EmptyString => None
            | String e r1 =>
                if Ascii.eqb e dquote || Ascii.eqb e "\" || Ascii.eqb e "/" || Ascii.eqb e "'"
                then prepend (String e EmptyString) (unquote_loop fuel' r1)
                else if Ascii.eqb e "b" then prepend (String "008" EmptyString) (unquote_loop fuel' r1)
                else if Ascii.eqb e "f" then prepend (String "012" EmptyString) (unquote_loop fuel' r1)
                else if Ascii.eqb e "n" then prepend (String "010" EmptyString) (unquote_loop fuel' r1)
                else if Ascii.eqb e "r" then prepend (String "013" EmptyString) (unquote_loop fuel' r1)
                else if Ascii.eqb e "t" then prepend (String "009" EmptyString) (unquote_loop fuel' r1)
                else if Ascii.eqb e "u" then
                  let rr := getu4 s in
                  if rr <? 0 then None
                  else
                    let r2 := drop_bytes 6 s in
                    if IsSurrogate rr then
                      let dec := utf16_DecodeRune rr (getu4 r2) in
                      if negb (dec =? utf8.RuneError)
                      then prepend (utf8.EncodeRune dec) (unquote_loop fuel' (drop_bytes 6 r2))
                      else prepend (utf8.EncodeRune utf8.RuneError) (unquote_loop fuel' r2)
                    else prepend (utf8.EncodeRune rr) (unquote_loop fuel' r2)
                else None
            end
          else if Ascii.eqb c dquote || (byte_val c <? 0x20) then None
          else if byte_val c <? utf8.RuneSelf
          then prepend (String c EmptyString) (unquote_loop fuel' r)
          else
            let '(rr, size) := utf8.DecodeRune s in
            prepend (utf8.EncodeRune rr) (unquote_loop fuel' (drop_bytes size s))
      end
  end.

(** [unquote] of a literal whose text between the quotes is [raw]. *)
Definition unquote (raw : string) : option string := unquote_loop (len raw) raw.

(** The grammar of values.  [depth] counts the objects and arrays that
    are open around the value; every call on a shorter input runs with
    less [fuel]. *)
Fixpoint scan_value (fuel : nat) (depth : Z) (s : string) {struct fuel} : scanned value :=
  match fuel with
  | O => Exhausted
  | S fuel' =>
      match skip_space s with
      | EmptyString => Incomplete
      | String c r =>
          if Ascii.eqb c "{" then
            if maxNestingDepth <? depth + 1 then invalid_char c "exceeded max depth"
            else
              match skip_space r with
              | EmptyString => Incomplete
              | String c' r' =>
                  if Ascii.eqb c' "}" then Parsed (Obj []) r'
                  else bind_scanned (scan_members fuel' (depth + 1) (String c' r'))
                         (fun ms rest => Parsed (Obj ms) rest)
              end
          else if Ascii.eqb c "[" then
            if maxNestingDepth <? depth + 1 then invalid_char c "exceeded max depth"
            else
              match skip_space r with
              | EmptyString => Incomplete
              | String c' r' =>
                  if Ascii.eqb c' "]" then Parsed (Arr []) r'
                  else bind_scanned (scan_elems fuel' (depth + 1) (String c' r'))
                         (fun vs rest => Parsed (Arr vs) rest)
              end
          else if Ascii.eqb c dquote then
            bind_scanned (scan_string r)
              (fun raw rest =>
                 match unquote raw with
                 | Some str => Parsed (Str str) rest
                 | None => Invalid "JSON decoder out of sync - data changing underfoot?"
                 end)
          else if Ascii.eqb c "-" || isDigit c then
            bind_scanned (scan_number (String c r)) (fun lit rest => Parsed (Num lit) rest)
          else if Ascii.eqb c "t" then
            bind_scanned (scan_lit "true" "rue" r) (fun _ rest => Parsed (Bool true) rest)
          else if Ascii.eqb c "f" then
            bind_scanned (scan_lit "false" "alse" r) (fun _ rest => Parsed (Bool false) rest)
          else if Ascii.eqb c "n" then
            bind_scanned (scan_lit "null" "ull" r) (fun _ rest => Parsed Null rest)
          else invalid_char c "looking for beginning of value"
      end
  end

(** The elements of an array after its first byte, up to the closing
    bracket: one value at least. *)
with scan_elems (fuel : nat) (depth : Z) (s : string) {struct fuel} : scanned (list value) :=
  match fuel with
  | O => Exhausted
  | S fuel' =>
      bind_scanned (scan_value fuel' depth s)
        (fun v r =>
           match skip_space r with
           | EmptyString => Incomplete
           | String c r' =>
               if Ascii.eqb c "," then
                 bind_scanned (scan_elems fuel' depth r') (fun vs rest => Parsed (v :: vs) rest)
               else if Ascii.eqb c "]" then Parsed [v] r'
               else invalid_char c "after array element"
           end)
  end

(** The members of an object up to the closing brace: one at least. *)
with scan_members (fuel : nat) (depth : Z) (s : string) {struct fuel}
  : scanned (list (string * value)) :=
  match fuel with
  | O => Exhausted
  | S fuel' =>
      match skip_space s with
      | EmptyString => Incomplete
      | String c r =>
          if Ascii.eqb c dquote then
            bind_scanned (scan_string r)
              (fun raw r1 =>
                 match unquote raw with
                 | None => Invalid "JSON decoder out of sync - data changing underfoot?"
                 | Some key =>
                     match skip_space r1 with
                     | EmptyString => Incomplete
                     | String c1 r2 =>
                         if Ascii.eqb c1 ":" then
                           bind_scanned (scan_value fuel' depth r2)
                             (fun v r3 =>
                                match skip_space r3 with
                                | EmptyString => Incomplete
                                | String c3 r4 =>
                                    if Ascii.eqb c3 "," then
                                      bind_scanned (scan_members fuel' depth r4)
                                        (fun ms rest => Parsed ((key, v) :: ms) rest)
                                    else if Ascii.eqb c3 "}" then Parsed [(key, v)] r4
                                    else invalid_char c3 "after object key:value pair"
                                end)
                         else invalid_char c1 "after object key"
                     end
                 end)
          else invalid_char c "looking for beginning of object key string"
      end
  end.

(** The first value of [data].  Two units of [fuel] for each byte are enough
    for every input. *)
Definition scan (data : string) : scanned value := scan_value (S (2 * len data)) 0 data.

Definition SyntaxError (msg : string) : error := errorString msg.

(** [checkValid]: [data] is one JSON value with nothing but white space
    around it. *)
Definition checkValid (data : string) : option error :=
  match scan data with
  | Parsed _ rest =>
      match skip_space rest with
      | EmptyString => None
      | String c _ =>
          Some (SyntaxError ("invalid character " +:+ quoteChar c
                               +:+ " after top-level value"))
      end
  | Incomplete => Some (SyntaxError "unexpected end of JSON input")
  | Invalid msg => Some (SyntaxError msg)
  | Exhausted => Some (SyntaxError "unexpected end of JSON input")
  end.

Definition Valid (data : string) : bool :=
  match checkValid data with
  | None => true
  | Some _ => false
  end.

(** [x] is [y], or the recursion bound has run out before [x] was
    reached. *)
Definition below {A : Type} (x y : scanned A) : Prop := x = Exhausted \/ x = y.

Definition is_Num (v : value) : bool := match v with Num _ => true | _ => false end.

(** The bytes [t] after a number literal end it: there is none, or the
    first is no digit, point or exponent mark. *)
Definition ends_number (t : string) : bool :=
  match t with
  | EmptyString => true
  | String c _ => negb (isDigit c || Ascii.eqb c "." || Ascii.eqb c "e" || Ascii.eqb c "E")
  end.

(** [lit] is, from its first byte to its last, one number literal. *)
Definition number_literal (lit : string) : bool :=
  match scan_number lit with
  | Parsed _ EmptyString => true
  | _ => false
  end.


(** *** The encoder's text *)

Definition hex (z : Z) : ascii :=
  if z <? 10 then byte_of (byte_val "0" + z) else byte_of (byte_val "a" + (z - 10)).

(** [htmlSafeSet]: the ASCII bytes written as they are. *)
Definition htmlSafe (b : Z) : bool :=
  (0x20 <=? b) && (b <=? 0x7F)
  && negb (b =? byte_val dquote) && negb (b =? byte_val "\")
  && negb (b =? byte_val "<") && negb (b =? byte_val ">") && negb (b =? byte_val "&").

(** The escape of an ASCII byte outside [htmlSafeSet]. *)
Definition escape_ascii (c : ascii) : string :=
  if Ascii.eqb c "\" || Ascii.eqb c dquote then String "\" (String c EmptyString)
  else if Ascii.eqb c "008" then "\b"
  else if Ascii.eqb c "012" then "\f"
  else if Ascii.eqb c "010" then "\n"
  else if Ascii.eqb c "013" then "\r"
  else if Ascii.eqb c "009" then "\t"
  else "\u00" +:+ String (hex (Z.shiftr (byte_val c) 4))
                  (String (hex (Z.land (byte_val c) 0xF)) EmptyString).

(** The loop of [appendString] (with [escapeHTML] set, as [Marshal] does)
    over [src[i:]]: what it appends between the quotes. *)
Fixpoint appendString_loop (fuel : nat) (src : string) : string :=
  match src with
  | EmptyString => EmptyString
  | String c r =>
      match fuel with
      | O => EmptyString
      | S fuel' =>
          let b := byte_val c in
          if b <? utf8.RuneSelf then
            if htmlSafe b then String c (appendString_loop fuel' r)
            else escape_ascii c +:+ appendString_loop fuel' r
          else
            let '(rr, size) := utf8.DecodeRune src in
            if (rr =? utf8.RuneError) && (size =? 1)%nat then
              String "\" "ufffd" +:+ appendString_loop fuel' (drop_bytes size src)
            else if (rr =? 0x2028) || (rr =? 0x2029) then
              "\u202" +:+ String (hex (Z.land rr 0xF))
                            (appendString_loop fuel' (drop_bytes size src))
            else take_bytes size src +:+ appendString_loop fuel' (drop_bytes size src)
      end
  end.

Definition appendString (src : string) : string :=
  String dquote (appendString_loop (len src) src +:+ String dquote EmptyString).

(** The string that the encoder's text stands for.  [Marshal] coerces a
    string to valid UTF-8: each byte that is part of no well-formed rune is
    replaced by the replacement rune U+FFFD. *)
Fixpoint coerce_loop (fuel : nat) (src : string) : string :=
  match src with
  | EmptyString => EmptyString
  | String c r =>
      match fuel with
      | O => EmptyString
      | S fuel' =>
          if byte_val c <? utf8.RuneSelf then String c (coerce_loop fuel' r)
          else
            let '(rr, size) := utf8.DecodeRune src in
            if (rr =? utf8.RuneError) && (size =? 1)%nat then
              utf8.EncodeRune utf8.RuneError +:+ coerce_loop fuel' (drop_bytes size src)
            else take_bytes size src +:+ coerce_loop fuel' (drop_bytes size src)
      end
  end.

Definition coerce (s : string) : string := coerce_loop (len s) s.

Fixpoint join (sep : string) (l : list string) : string :=
  match l with
  | [] => EmptyString
  | [x] => x
  | x :: l' => x +:+ sep +:+ join sep l'
  end.

(** The compact text the encoder writes for a value. *)
Fixpoint print (v : value) : string :=
  match v with
  | Null => "null"
  | Bool true => "true"
  | Bool false => "false"
  | Num lit => lit
  | Str s => appendString s
  | Arr vs => "[" +:+ join "," (map print vs) +:+ "]"
  | Obj ms =>
      "{" +:+ join "," (map (fun kv => appendString (fst kv) +:+ ":" +:+ print (snd kv)) ms)
          +:+ "}"
  end.

(** The values whose text the scanner reads back: the literal of a number
    is a number literal, strings and keys are sequences of well-formed
    runes, and no more than [maxNestingDepth] objects and arrays are open
    at a time, [d] of them around the value. *)
Fixpoint well_formed (d : Z) (j : value) : bool :=
  match j with
  | Null | Bool _ => true
  | Num lit => number_literal lit
  | Str s => utf8.ValidString s
  | Arr vs => (d + 1 <=? maxNestingDepth) && forallb (well_formed (d + 1)) vs
  | Obj ms =>
      (d + 1 <=? maxNestingDepth)
      && forallb (fun kv => utf8.ValidString (fst kv) && well_formed (d + 1) (snd kv)) ms
  end.

(** The values the encoder's text is JSON for: as [well_formed], but for
    the strings, which may be any bytes. *)
Fixpoint printable (d : Z) (j : value) : bool :=
  match j with
  | Null | Bool _ | Str _ => true
  | Num lit => number_literal lit
  | Arr vs => (d + 1 <=? maxNestingDepth) && forallb (printable (d + 1)) vs
  | Obj ms =>
      (d + 1 <=? maxNestingDepth) && forallb (fun kv => printable (d + 1) (snd kv)) ms
  end.

(** The value with its strings and keys coerced to valid UTF-8. *)
Fixpoint sanitize (j : value) : value :=
  match j with
  | Str s => Str (coerce s)
  | Arr vs => Arr (map sanitize vs)
  | Obj ms => Obj (map (fun kv => (coerce (fst kv), sanitize (snd kv))) ms)
  | _ => j
  end.

(** *** Go values *)

(** The dynamic values of an [interface{}] that the decoder produces:
    [nil], [bool], [float64], [string], [[]interface{}] and
    [map[string]interface{}].  A map is the list of its entries in
    strictly increasing order of the keys (the order in which the encoder
    writes them). *)
#[local] Unset Elimination Schemes.
Inductive any : Type :=
| anil
| abool (b : bool)
| afloat64 (f : strconv.float64)
| astring (s : string)
| aslice (l : list any)
| amap (m : list (string * any)).
#[local] Set Elimination Schemes.

(** The types of the program's records, with what the decoder and the
    encoder read off them by reflection: for a struct, the name of each
    field and the name its [json] tag gives it. *)
Inductive gotype : Type :=
| TString
| TBool
| TInt
| TInt64
| TFloat64
| TInterface
| TSlice (elem : gotype)
| TPtr (elem : gotype)
| TStruct (name : string) (fs : fields)
with fields : Type :=
| FNil
| FCons (goName tag : string) (t : gotype) (rest : fields).

Scheme gotype_fields_ind := Induction for gotype Sort Prop
  with fields_gotype_ind := Induction for fields Sort Prop.
Combined Scheme gotype_mutind from gotype_fields_ind, fields_gotype_ind.

Fixpoint mk_fields (l : list (string * string * gotype)) : fields :=
  match l with
  | [] => FNil
  | (g, tag, t) :: l' => FCons g tag t (mk_fields l')
  end.

(** [struct name [(field, tag, type); ...]] *)
Definition struct (name : string) (l : list (string * string * gotype)) : gotype :=
  TStruct name (mk_fields l).

(** The values of a type: a slice and a pointer may be [nil] ([None]), a
    struct is the tuple of its fields. *)
Fixpoint denote (t : gotype) : Type :=
  match t with
  | TString => string
  | TBool => bool
  | TInt | TInt64 => Z
  | TFloat64 => strconv.float64
  | TInterface => any
  | TSlice e => option (list (denote e))
  | TPtr e => option (denote e)
  | TStruct _ fs => denote_fields fs
  end
with denote_fields (fs : fields) : Type :=
  match fs with
  | FNil => unit
  | FCons _ _ t r => (denote t * denote_fields r)%type
  end.

(** The zero value of a type. *)
Fixpoint zero (t : gotype) : denote t :=
  match t return denote t with
  | TString => EmptyString
  | TBool => false
  | TInt | TInt64 => 0
  | TFloat64 => S754_zero false
  | TInterface => anil
  | TSlice _ => None
  | TPtr _ => None
  | TStruct _ fs => zero_fields fs
  end
with zero_fields (fs : fields) : denote_fields fs :=
  match fs return denote_fields fs with
  | FNil => tt
  | FCons _ _ t r => (zero t, zero_fields r)
  end.

Fixpoint typeName (t : gotype) : string :=
  match t with
  | TString => "string"
  | TBool => "bool"
  | TInt => "int"
  | TInt64 => "int64"
  | TFloat64 => "float64"
  | TInterface => "interface {}"
  | TSlice e => "[]" +:+ typeName e
  | TPtr e => "*" +:+ typeName e
  | TStruct name _ => name
  end.

Fixpoint tags (fs : fields) : list string :=
  match fs with
  | FNil => []
  | FCons _ tag _ r => tag :: tags r
  end.

Definition is_struct (t : gotype) : bool :=
  match t with
  | TStruct _ _ => true
  | _ => false
  end.

(** *** Marshal *)

Definition UnsupportedValueError (str : string) : error :=
  errorString ("json: unsupported value: " +:+ str).

(** The text [strconv.FormatFloat(f, 'g', -1, 64)] of a value that is not
    finite. *)
Definition nonfinite_text (f : strconv.float64) : string :=
  match f with
  | S754_infinity false => "+Inf"
  | S754_infinity true => "-Inf"
  | _ => "NaN"
  end.

Fixpoint mapM {A B : Type} (f : A -> result B) (l : list A) : result (list B) :=
  match l with
  | [] => Ok []
  | a :: l' => b ← f a; bs ← mapM f l'; Ok (b :: bs)
  end.

Section Encoder.
Context `{!strconv.FloatFormat}.

(** [floatEncoder] *)
Definition float_toJSON (f : strconv.float64) : result value :=
  if strconv.IsFinite f then Ok (Num (strconv.FormatFloat f))
  else Err (UnsupportedValueError (nonfinite_text f)).

(** The value of an [interface{}], encoded by its dynamic type. *)
Fixpoint any_toJSON (a : any) : result value :=
  match a with
  | anil => Ok Null
  | abool b => Ok (Bool b)
  | afloat64 f => float_toJSON f
  | astring s => Ok (Str s)
  | aslice l =>
      vs ← (fix go (l : list any) : result (list value) :=
              match l with
              | [] => Ok []
              | x :: l' => v ← any_toJSON x; vs ← go l'; Ok (v :: vs)
              end) l;
      Ok (Arr vs)
  | amap m =>
      ms ← (fix go (m : list (string * any)) : result (list (string * value)) :=
              match m with
              | [] => Ok []
              | kx :: m' => v ← any_toJSON (snd kx); ms ← go m'; Ok ((fst kx, v) :: ms)
              end) m;
      Ok (Obj ms)
  end.

(** What the encoder writes for a value of type [t], as a JSON value:
    a struct becomes an object with one member per field, in the order of
    the fields and under the names of the tags; a [nil] slice or pointer
    becomes [null]. *)
Fixpoint toJSON (t : gotype) : denote t -> result value :=
  match t return denote t -> result value with
  | TString => fun v => Ok (Str v)
  | TBool => fun v => Ok (Bool v)
  | TInt => fun v => Ok (Num (strconv.FormatInt v))
  | TInt64 => fun v => Ok (Num (strconv.FormatInt v))
  | TFloat64 => float_toJSON
  | TInterface => any_toJSON
  | TSlice e => fun v =>
      match v with
      | None => Ok Null
      | Some l => vs ← mapM (toJSON e) l; Ok (Arr vs)
      end
  | TPtr e => fun v =>
      match v with
      | None => Ok Null
      | Some x => toJSON e x
      end
  | TStruct _ fs => fun v => ms ← toJSON_fields fs v; Ok (Obj ms)
  end
with toJSON_fields (fs : fields) : denote_fields fs -> result (list (string * value)) :=
  match fs return denote_fields fs -> result (list (string * value)) with
  | FNil => fun _ => Ok []
  | FCons _ tag t r => fun v =>
      j ← toJSON t (fst v); js ← toJSON_fields r (snd v); Ok ((tag, j) :: js)
  end.

(** [json.Marshal(v)] for [v] of type [t] *)
Definition Marshal (t : gotype) (v : denote t) : result string :=
  j ← toJSON t v; Ok (print j).

End Encoder.

(** *** Unmarshal *)

(** The text of an [UnmarshalTypeError].  Go adds the path of the struct
    field the value was meant for; the model names the type only. *)
Definition UnmarshalTypeError (Value : string) (t : gotype) : error :=
  errorString ("json: cannot unmarshal " +:+ Value +:+ " into Go value of type " +:+ typeName t).

Definition describe (j : value) : string :=
  match j with
  | Null => "null"
  | Bool _ => "bool"
  | Num _ => "number"
  | Str _ => "string"
  | Arr _ => "array"
  | Obj _ => "object"
  end.

(** [m[k] = v] on a map *)
Fixpoint map_insert {A : Type} (k : string) (v : A) (m : list (string * A)) : list (string * A) :=
  match m with
  | [] => [(k, v)]
  | kv :: m' =>
      match String.compare k (fst kv) with
      | Lt => (k, v) :: m
      | Eq => (k, v) :: m'
      | Gt => kv :: map_insert k v m'
      end
  end.

(** Decoding into an empty [interface{}]: [valueInterface]. *)
Fixpoint to_any (j : value) : result any :=
  match j with
  | Null => Ok anil
  | Bool b => Ok (abool b)
  | Num lit =>
      match strconv.ParseFloat lit with
      | Some f => Ok (afloat64 f)
      | None => Err (UnmarshalTypeError ("number " +:+ lit) TFloat64)
      end
  | Str s => Ok (astring s)
  | Arr vs =>
      l ← (fix go (vs : list value) : result (list any) :=
             match vs with
             | [] => Ok []
             | v :: vs' => x ← to_any v; xs ← go vs'; Ok (x :: xs)
             end) vs;
      Ok (aslice l)
  | Obj ms =>
      m ← (fix go (ms : list (string * value)) (acc : list (string * any))
             : result (list (string * any)) :=
             match ms with
             | [] => Ok acc
             | kv :: ms' => x ← to_any (snd kv); go ms' (map_insert (fst kv) x acc)
             end) ms [];
      Ok (amap m)
  end.

(** [foldRune] on the runes outside ASCII: the Kelvin sign folds to [K],
    the long s to [S]; every other rune is left as it is, which agrees
    with Go whenever the folded key is compared with the fold of an ASCII
    field name. *)
Definition foldRune (r : Z) : Z :=
  if r =? 0x212A then 0x4B else if r =? 0x17F then 0x53 else r.

Definition upper (c : ascii) : ascii :=
  if (byte_val "a" <=? byte_val c) && (byte_val c <=? byte_val "z")
  then byte_of (byte_val c - (byte_val "a" - byte_val "A")) else c.

Fixpoint foldName_loop (fuel : nat) (s : string) : string :=
  match s with
  | EmptyString => EmptyString
  | String c r =>
      match fuel with
      | O => EmptyString
      | S fuel' =>
          if byte_val c <? utf8.RuneSelf then String (upper c) (foldName_loop fuel' r)
          else
            let '(rr, n) := utf8.DecodeRune s in
            utf8.EncodeRune (foldRune rr) +:+ foldName_loop fuel' (drop_bytes n s)
      end
  end.

(** [foldName]: two names match without regard to case when their folds
    are equal. *)
Definition foldName (s : string) : string := foldName_loop (len s) s.

(** The field an object key selects: the field whose name is the key, or
    else the first field whose name equals the key without regard to
    case; no field for any other key. *)
Definition find_field (fs : fields) (key : string) : option string :=
  match List.find (String.eqb key) (tags fs) with
  | Some tag => Some tag
  | None => List.find (fun tag => String.eqb (foldName tag) (foldName key)) (tags fs)
  end.

(** The elements of a JSON array decoded into a slice: element [i] is
    decoded into the old element [i] when the slice had one, into a zero
    value otherwise. *)
Fixpoint decode_elems {A : Type} (dec : value -> A -> result A) (z : A)
    (js : list value) (old : list A) : result (list A) :=
  match js with
  | [] => Ok []
  | j :: js' =>
      x ← dec j (match old with a :: _ => a | [] => z end);
      xs ← decode_elems dec z js' (match old with _ :: old' => old' | [] => [] end);
      Ok (x :: xs)
  end.

(** The members of a JSON object decoded one after the other into a
    struct; a key that selects no field is skipped. *)
Fixpoint decode_members {A : Type} (find : string -> option string)
    (upd : string -> value -> A -> result A)
    (ms : list (string * value)) (old : A) : result A :=
  match ms with
  | [] => Ok old
  | kv :: ms' =>
      match find (fst kv) with
      | None => decode_members find upd ms' old
      | Some tag => x ← upd tag (snd kv) old; decode_members find upd ms' x
      end
  end.

(** Decoding the JSON value [j] into a variable of type [t] that holds
    [old].  [null] empties a slice, a pointer and an interface and leaves
    everything else as it was.  At the first value that does not fit its
    target the result is the [UnmarshalTypeError] that Go reports once it
    has gone through the rest of the input. *)
Fixpoint fromJSON (t : gotype) : value -> denote t -> result (denote t) :=
  match t return value -> denote t -> result (denote t) with
  | TString => fun j old =>
      match j with
      | Null => Ok old
      | Str s => Ok s
      | _ => Err (UnmarshalTypeError (describe j) TString)
      end
  | TBool => fun j old =>
      match j with
      | Null => Ok old
      | Bool b => Ok b
      | _ => Err (UnmarshalTypeError (describe j) TBool)
      end
  | TInt => fun j old =>
      match j with
      | Null => Ok old
      | Num lit =>
          match strconv.ParseInt lit with
          | Some z => Ok z
          | None => Err (UnmarshalTypeError ("number " +:+ lit) TInt)
          end
      | _ => Err (UnmarshalTypeError (describe j) TInt)
      end
  | TInt64 => fun j old =>
      match j with
      | Null => Ok old
      | Num lit =>
          match strconv.ParseInt lit with
          | Some z => Ok z
          | None => Err (UnmarshalTypeError ("number " +:+ lit) TInt64)
          end
      | _ => Err (UnmarshalTypeError (describe j) TInt64)
      end
  | TFloat64 => fun j old =>
      match j with
      | Null => Ok old
      | Num lit =>
          match strconv.ParseFloat lit with
          | Some f => Ok f
          | None => Err (UnmarshalTypeError ("number " +:+ lit) TFloat64)
          end
      | _ => Err (UnmarshalTypeError (describe j) TFloat64)
      end
  | TInterface => fun j _ => to_any j
  | TSlice e => fun j old =>
      match j with
      | Null => Ok None
      | Arr js =>
          l ← decode_elems (fromJSON e) (zero e) js (match old with Some l => l | None => [] end);
          Ok (Some l)
      | _ => Err (UnmarshalTypeError (describe j) (TSlice e))
      end
  | TPtr e => fun j old =>
      match j with
      | Null => Ok None
      | _ => x ← fromJSON e j (match old with Some x => x | None => zero e end); Ok (Some x)
      end
  | TStruct name fs => fun j old =>
      match j with
      | Null => Ok old
      | Obj ms => decode_members (find_field fs) (fromJSON_field fs) ms old
      | _ => Err (UnmarshalTypeError (describe j) (TStruct name fs))
      end
  end
with fromJSON_field (fs : fields) : string -> value -> denote_fields fs -> result (denote_fields fs) :=
  match fs return string -> value -> denote_fields fs -> result (denote_fields fs) with
  | FNil => fun _ _ old => Ok old
  | FCons _ tag' t r => fun tag j old =>
      if String.eqb tag' tag then x ← fromJSON t j (fst old); Ok (x, snd old)
      else y ← fromJSON_field r tag j (snd old); Ok (fst old, y)
  end.

(** [json.Unmarshal(data, &v)] for [v] of type [t] holding [old]: the
    whole of [data] has to be one JSON value. *)
Definition Unmarshal (t : gotype) (data : string) (old : denote t) : result (denote t) :=
  match checkValid data with
  | Some e => Err e
  | None =>
      match scan data with
      | Parsed j _ => fromJSON t j old
      | _ => Err (SyntaxError "unexpected end of JSON input")
      end
  end.

Fixpoint nonSpace (s : string) : bool :=
  match s with
  | EmptyString => false
  | String c s' => negb (isSpace c) || nonSpace s'
  end.

(** [Decoder.readValue] on a fresh decoder: the first JSON value of the
    stream.  An object or an array is complete with its closing bracket;
    any other value needs to be followed by one more byte or by the end
    of the stream.  Bytes after the value are not looked at. *)
Definition readValue (r : io.Reader) : result value :=
  match scan (io.data r) with
  | Parsed v rest =>
      match v, rest, io.err r with
      | Obj _, _, _ | Arr _, _, _ => Ok v
      | _, String _ _, _ => Ok v
      | _, EmptyString, None => Ok v
      | _, EmptyString, Some e => Err e
      end
  | Invalid msg => Err (SyntaxError msg)
  | Incomplete | Exhausted =>
      match io.err r with
      | Some e => Err e
      | None => if nonSpace (io.data r) then Err io.ErrUnexpectedEOF else Err io.EOF
      end
  end.

(** [json.NewDecoder(r).Decode(&v)] for [v] of type [t] holding [old] *)
Definition Decode (t : gotype) (r : io.Reader) (old : denote t) : result (denote t) :=
  j ← readValue r; fromJSON t j old.

(** *** Values that the encoder accepts *)

(** Every floating-point number in the value is finite. *)
Fixpoint any_encodable (a : any) : bool :=
  match a with
  | anil | abool _ | astring _ => true
  | afloat64 f => strconv.IsFinite f
  | aslice l => forallb any_encodable l
  | amap m => forallb (fun kv => any_encodable (snd kv)) m
  end.

Fixpoint encodable (t : gotype) : denote t -> bool :=
  match t return denote t -> bool with
  | TFloat64 => strconv.IsFinite
  | TInterface => any_encodable
  | TSlice e => fun v =>
      match v with
      | None => true
      | Some l => forallb (encodable e) l
      end
  | TPtr e => fun v =>
      match v with
      | None => true
      | Some x => encodable e x
      end
  | TStruct _ fs => encodable_fields fs
  | _ => fun _ => true
  end
with encodable_fields (fs : fields) : denote_fields fs -> bool :=
  match fs return denote_fields fs -> bool with
  | FNil => fun _ => true
  | FCons _ _ t r => fun v => encodable t (fst v) && encodable_fields r (snd v)
  end.

(** The error of the encoder for a number that is not finite. *)
Definition refused (e : error) : Prop :=
  exists f, strconv.IsFinite f = false /\ e = UnsupportedValueError (nonfinite_text f).

(** *** Values that the encoder writes and the decoder reads back *)

(** A type whose [null] stands for a value of its own: [nil]. *)
Definition nullable (t : gotype) : bool :=
  match t with
  | TSlice _ | TPtr _ | TInterface => true
  | _ => false
  end.

(** The types for which encoding loses nothing: the tags of a struct are
    distinct names of well-formed runes, and a pointer does not point to a
    type with a [nil] of its own (both [nil]s are written [null]). *)
Fixpoint roundtrips (t : gotype) : bool :=
  match t with
  | TSlice e => roundtrips e
  | TPtr e => negb (nullable e) && roundtrips e
  | TStruct _ fs => roundtrips_fields fs
  | _ => true
  end
with roundtrips_fields (fs : fields) : bool :=
  match fs with
  | FNil => true
  | FCons _ tag t r =>
      negb (existsb (String.eqb tag) (tags r)) && utf8.ValidString tag
      && roundtrips t && roundtrips_fields r
  end.

(** The keys of a map in the order of the encoder: each one before all
    that follow it. *)
Fixpoint sorted_keys (l : list string) : bool :=
  match l with
  | [] => true
  | k :: l' =>
      forallb (fun k' => match String.compare k k' with Lt => true | _ => false end) l'
      && sorted_keys l'
  end.

Section Valid.
Context `{!strconv.FloatFormat}.

(** The text written for [f] is a number literal that parses back to
    [f]. *)
Definition float_roundtrips (f : strconv.float64) : bool :=
  strconv.IsFinite f && number_literal (strconv.FormatFloat f)
  && match strconv.ParseFloat (strconv.FormatFloat f) with
     | Some g => strconv.float_eqb g f
     | None => false
     end.

(** The values of an [interface{}] that come back from their text, with
    [d] objects and arrays open around them. *)
Fixpoint valid_any (d : Z) (a : any) : bool :=
  match a with
  | anil | abool _ => true
  | afloat64 f => float_roundtrips f
  | astring s => utf8.ValidString s
  | aslice l => (d + 1 <=? maxNestingDepth) && forallb (valid_any (d + 1)) l
  | amap m =>
      (d + 1 <=? maxNestingDepth) && sorted_keys (map fst m)
      && forallb (fun kv => utf8.ValidString (fst kv) && valid_any (d + 1) (snd kv)) m
  end.

(** The values of type [t] that come back from their text: strings of
    well-formed runes, integers of 64 bits, floating-point numbers that
    are finite and that [FormatFloat] and [ParseFloat] agree on, and a
    nesting that stays within [maxNestingDepth]. *)
Fixpoint valid (t : gotype) : Z -> denote t -> bool :=
  match t return Z -> denote t -> bool with
  | TString => fun _ v => utf8.ValidString v
  | TBool => fun _ _ => true
  | TInt => fun _ v => in_int64 v
  | TInt64 => fun _ v => in_int64 v
  | TFloat64 => fun _ v => float_roundtrips v
  | TInterface => fun d v => valid_any d v
  | TSlice e => fun d v =>
      match v with
      | None => true
      | Some l => (d + 1 <=? maxNestingDepth) && forallb (valid e (d + 1)) l
      end
  | TPtr e => fun d v =>
      match v with
      | None => true
      | Some x => valid e d x
      end
  | TStruct _ fs => fun d v => (d + 1 <=? maxNestingDepth) && valid_fields fs (d + 1) v
  end
with valid_fields (fs : fields) : Z -> denote_fields fs -> bool :=
  match fs return Z -> denote_fields fs -> bool with
  | FNil => fun _ _ => true
  | FCons _ _ t r => fun d v => valid t d (fst v) && valid_fields r d (snd v)
  end.

(** As [valid], but for the strings of the record, which may be any
    bytes (the strings and keys under an [interface{}] still are
    well-formed runes). *)
Fixpoint lenient (t : gotype) : Z -> denote t -> bool :=
  match t return Z -> denote t -> bool with
  | TString => fun _ _ => true
  | TBool => fun _ _ => true
  | TInt => fun _ v => in_int64 v
  | TInt64 => fun _ v => in_int64 v
  | TFloat64 => fun _ v => float_roundtrips v
  | TInterface => fun d v => valid_any d v
  | TSlice e => fun d v =>
      match v with
      | None => true
      | Some l => (d + 1 <=? maxNestingDepth) && forallb (lenient e (d + 1)) l
      end
  | TPtr e => fun d v =>
      match v with
      | None => true
      | Some x => lenient e d x
      end
  | TStruct _ fs => fun d v => (d + 1 <=? maxNestingDepth) && lenient_fields fs (d + 1) v
  end
with lenient_fields (fs : fields) : Z -> denote_fields fs -> bool :=
  match fs return Z -> denote_fields fs -> bool with
  | FNil => fun _ _ => true
  | FCons _ _ t r => fun d v => lenient t d (fst v) && lenient_fields r d (snd v)
  end.

End Valid.

(** The record with each of its strings coerced to valid UTF-8. *)
Fixpoint coerced (t : gotype) : denote t -> denote t :=
  match t return denote t -> denote t with
  | TString => coerce
  | TSlice e => fun v =>
      match v with
      | None => None
      | Some l => Some (map (coerced e) l)
      end
  | TPtr e => fun v =>
      match v with
      | None => None
      | Some x => Some (coerced e x)
      end
  | TStruct _ fs => coerced_fields fs
  | _ => fun v => v
  end
with coerced_fields (fs : fields) : denote_fields fs -> denote_fields fs :=
  match fs return denote_fields fs -> denote_fields fs with
  | FNil => fun v => v
  | FCons _ _ t r => fun v => (coerced t (fst v), coerced_fields r (snd v))
  end.

End json.

(** ** Packages net/url, net/http and time *)

Module url.

(** [url.Parse] is not modelled: whether it accepts a string, and the
    error it reports otherwise, is a parameter of the development. *)
Class Parser : Type := ParseError : string -> option error.

End url.

Module time.

(** A [time.Duration] counts nanoseconds. *)
Definition Second : Z := 1000000000.

End time.

Module http.

Definition StatusOK : Z := 200.

(** [validHeaderFieldByte]: the bytes of an HTTP token. *)
Definition validHeaderFieldByte (c : ascii) : bool :=
  let b := byte_val c in
  ((byte_val "a" <=? b) && (b <=? byte_val "z"))
  || ((byte_val "A" <=? b) && (b <=? byte_val "Z"))
  || isDigit c
  || existsb (Ascii.eqb c)
       ["!"; "#"; "$"; "%"; "&"; "'"; "*"; "+"; "-"; "."; "^"; "_"; "`"; "|"; "~"]%char.

Fixpoint all_valid (s : string) : bool :=
  match s with
  | EmptyString => true
  | String c s' => validHeaderFieldByte c && all_valid s'
  end.

(** Upper case for the first letter and for a letter after a dash, lower
    case for the other letters. *)
Fixpoint canon (upper : bool) (s : string) : string :=
  match s with
  | EmptyString => EmptyString
  | String c s' =>
      let b := byte_val c in
      let c' :=
        if upper && (byte_val "a" <=? b) && (b <=? byte_val "z") then byte_of (b - 32)
        else if negb upper && (byte_val "A" <=? b) && (b <=? byte_val "Z") then byte_of (b + 32)
        else c in
      String c' (canon (Ascii.eqb c' "-") s')
  end.

(** [textproto.CanonicalMIMEHeaderKey]: a key that is no token is left
    alone. *)
Definition CanonicalMIMEHeaderKey (s : string) : string :=
  if all_valid s then canon true s else s.

Module Header.
Definition t : Type := gmap string (list string).

(** [h.Set(key, value)] replaces the values of [key]. *)
Definition Set_ (h : t) (key value : string) : t :=
  <[CanonicalMIMEHeaderKey key := [value]]> h.

(** [h.Get(key)]: the first value of [key], or the empty string. *)
Definition Get (h : t) (key : string) : string :=
  match h !! CanonicalMIMEHeaderKey key with
  | Some (v :: _) => v
  | _ => EmptyString
  end.

(** [h.Values(key)] *)
Definition Values (h : t) (key : string) : list string :=
  match h !! CanonicalMIMEHeaderKey key with
  | Some vs => vs
  | None => []
  end.
End Header.

Module Request.
Record t : Type := { Method : string; URL : string; Header : Header.t; Body : option string }.

Definition with_header (rq : t) (key value : string) : t :=
  {| Method := Method rq; URL := URL rq;
     Header := Header.Set_ (Header rq) key value; Body := Body rq |}.
End Request.

Module Response.
Record t : Type := { StatusCode : Z; Body : io.Reader }.
End Response.

(** The part of an [http.Client] the program sets. *)
Record Client : Type := { Timeout : Z }.

(** [http.NewRequest(method, url, body)], for the methods [GET] and
    [POST] the program passes: it fails when [url.Parse] rejects the URL;
    the new request has no header. *)
Definition NewRequest `{!url.Parser} (method url : string) (body : option string)
  : result Request.t :=
  match url.ParseError url with
  | Some e => Err e
  | None => Ok {| Request.Method := method; Request.URL := url;
                  Request.Header := ∅; Request.Body := body |}
  end.

End http.

(** ** The world and the store *)

(** What the program cannot compute: the clock, and the outcome of a call
    of [Do] on a given [http.Client] with a given request.  [RoundTrip] is
    that call as the program sees it: the response that [Do] returns (the
    last one, when the [http.Client] has followed redirects on its own) or
    its error.  What the [http.Client] puts on the wire for the call is
    not modelled. *)
Record World : Type := {
  UnixNow : Z;
  RoundTrip : http.Client -> http.Request.t -> result http.Response.t
}.

Definition loc : Type := positive.

(** The store: the [http.Client] objects and the client objects of the
    package at hand, by location, and the requests that the program has
    handed to an [http.Client] so far (oldest first): one for each call of
    [Do], whatever the [http.Client] sends for it. *)
Record state (C : Type) : Type := {
  httpClients : gmap loc http.Client;
  clients : gmap loc C;
  sent : list http.Request.t
}.
Arguments httpClients {C} _.
Arguments clients {C} _.
Arguments sent {C} _.

Inductive outcome (S A : Type) : Type :=
| Returns (a : A) (s : S)
| Panics (msg : string).
Arguments Returns {S A} a s.
Arguments Panics {S A} msg.

(** A computation of the program: it reads the world, updates the store,
    and returns or panics. *)
Record Go (C A : Type) : Type := mkGo { run : World -> state C -> outcome (state C) A }.
Arguments mkGo {C A} run.
Arguments run {C A} _ _ _.

#[global] Instance Go_ret {C} : MRet (Go C) := fun A a => mkGo (fun _ σ => Returns a σ).
#[global] Instance Go_bind {C} : MBind (Go C) := fun A B f m =>
  mkGo (fun w σ =>
    match run m w σ with
    | Returns a σ' => run (f a) w σ'
    | Panics msg => Panics msg
    end).

Definition nil_dereference : string :=
  "runtime error: invalid memory address or nil pointer dereference".

Section Primitives.
Context {C : Type}.

(** [*c] for a pointer to a client object *)
Definition deref (c : loc) : Go C C := mkGo (fun _ σ =>
  match clients σ !! c with
  | Some x => Returns x σ
  | None => Panics nil_dereference
  end).

(** [&http.Client{...}] *)
Definition new_http (x : http.Client) : Go C loc := mkGo (fun _ σ =>
  let p := fresh (dom (httpClients σ)) in
  Returns p {| httpClients := <[p := x]> (httpClients σ);
               clients := clients σ; sent := sent σ |}).

(** [&T{...}] for a client object *)
Definition new_client (x : C) : Go C loc := mkGo (fun _ σ =>
  let c := fresh (dom (clients σ)) in
  Returns c {| httpClients := httpClients σ;
               clients := <[c := x]> (clients σ); sent := sent σ |}).

(** [p.Timeout = d] *)
Definition set_Timeout (p : loc) (d : Z) : Go C unit := mkGo (fun _ σ =>
  match httpClients σ !! p with
  | Some _ =>
      Returns tt {| httpClients := <[p := {| http.Timeout := d |}]> (httpClients σ);
                    clients := clients σ; sent := sent σ |}
  | None => Panics nil_dereference
  end).

(** [time.Now().Unix()] *)
Definition time_Now_Unix : Go C Z := mkGo (fun w σ => Returns (UnixNow w) σ).

(** [p.Do(req)]: the request is handed to the [http.Client] that [p]
    points to, and the call returns what the world answers to it. *)
Definition Client_Do (p : loc) (rq : http.Request.t) : Go C (result http.Response.t) :=
  mkGo (fun w σ =>
    match httpClients σ !! p with
    | Some hc =>
        Returns (RoundTrip w hc rq)
          {| httpClients := httpClients σ; clients := clients σ; sent := sent σ ++ [rq] |}
    | None => Panics nil_dereference
    end).

(** [p.Get(url)] *)
Definition Client_Get `{!url.Parser} (p : loc) (url : string) : Go C (result http.Response.t) :=
  match http.NewRequest "GET" url None with
  | Err e => mret (Err e)
  | Ok rq => Client_Do p rq
  end.

End Primitives.

(** The store after one more request has been handed to an
    [http.Client]. *)
Definition log {C : Type} (σ : state C) (rq : http.Request.t) : state C :=
  {| httpClients := httpClients σ; clients := clients σ; sent := sent σ ++ [rq] |}.

(** The request that [http.NewRequest] builds. *)
Definition request (method url : string) (body : option string) : http.Request.t :=
  {| http.Request.Method := method; http.Request.URL := url;
     http.Request.Header := ∅; http.Request.Body := body |}.

(** What a call of a method comes to when it behaves: it returns, with a
    record and no error or with an error and no record, and the client
    objects and the [http.Client] objects are as before. *)
Definition settles {C A : Type} (m : Go C (option A * option error))
    (w : World) (σ : state C) : Prop :=
  exists res σ',
    run m w σ = Returns res σ'
    /\ httpClients σ' = httpClients σ
    /\ clients σ' = clients σ
    /\ ((exists r, res = (Some r, None)) \/ (exists e, res = (None, Some e))).

(** [err] wraps [cause], and its text is [prefix] before the text of
    [cause]. *)
Definition wraps (err : error) (prefix : string) (cause : error) : Prop :=
  Unwrap err = Some cause /\ Error err = prefix +:+ Error cause.

(** ** Package odos ([odos/odos.go]) *)

Module odos.
Import json.

Definition _baseURL : string := "https://api.odos.xyz".

Definition PriceResponse : gotype :=
  struct "odos.PriceResponse"
    [("CurrencyId", "currencyId", TString);
     ("Price", "price", TFloat64)].

Definition InputToken : gotype :=
  struct "odos.InputToken"
    [("TokenAddress", "tokenAddress", TString);
     ("Amount", "amount", TString)].

Definition OutputToken : gotype :=
  struct "odos.OutputToken"
    [("TokenAddress", "tokenAddress", TString);
     ("Proportion", "proportion", TFloat64)].

Definition QuoteRequest : gotype :=
  struct "odos.QuoteRequest"
    [("ChainId", "chainId", TInt);
     ("InputTokens", "inputTokens", TSlice InputToken);
     ("OutputTokens", "outputTokens", TSlice OutputToken);
     ("GasPrice", "gasPrice", TFloat64);
     ("UserAddr", "userAddr", TString);
     ("SlippageLimitPercent", "slippageLimitPercent", TFloat64);
     ("SourceBlacklist", "sourceBlacklist", TSlice TString);
     ("SourceWhitelist", "sourceWhitelist", TSlice TString);
     ("PoolBlacklist", "poolBlacklist", TSlice TString);
     ("PathViz", "pathViz", TBool);
     ("ReferralCode", "referralCode", TInt);
     ("Compact", "compact", TBool);
     ("LikeAsset", "likeAsset", TBool);
     ("DisableRFQs", "disableRFQs", TBool);
     ("Simple", "simple", TBool)].

Definition Token : gotype :=
  struct "odos.Token"
    [("Name", "name", TString);
     ("Symbol", "symbol", TString);
     ("Decimals", "decimals", TInt);
     ("Visible", "visible", TBool);
     ("Width", "width", TInt)].

Definition TokenInfo : gotype :=
  struct "odos.TokenInfo"
    [("Name", "name", TString);
     ("Symbol", "symbol", TString);
     ("Decimals", "decimals", TInt);
     ("AssetID", "asset_id", TString);
     ("AssetType", "asset_type", TString);
     ("IsRebasing", "is_rebasing", TBool);
     ("CgID", "cgid", TString)].

Definition PathLink : gotype :=
  struct "odos.PathLink"
    [("Source", "source", TInt);
     ("Target", "target", TInt);
     ("SourceExtend", "sourceExtend", TBool);
     ("TargetExtend", "targetExtend", TBool);
     ("Label", "label", TString);
     ("Value", "value", TFloat64);
     ("NextValue", "nextValue", TFloat64);
     ("StepValue", "stepValue", TFloat64);
     ("InValue", "in_value", TFloat64);
     ("OutValue", "out_value", TFloat64);
     ("EdgeLen", "edge_len", TInt);
     ("SourceToken", "sourceToken", TokenInfo);
     ("TargetToken", "targetToken", TokenInfo)].

Definition PathViz : gotype :=
  struct "odos.PathViz"
    [("Nodes", "nodes", TSlice Token);
     ("Links", "links", TSlice PathLink)].

Definition QuoteResponse : gotype :=
  struct "odos.QuoteResponse"
    [("InTokens", "inTokens", TSlice TString);
     ("OutTokens", "outTokens", TSlice TString);
     ("InAmounts", "inAmounts", TSlice TString);
     ("OutAmounts", "outAmounts", TSlice TString);
     ("GasEstimate", "gasEstimate", TFloat64);
     ("DataGasEstimate", "dataGasEstimate", TInt);
     ("GweiPerGas", "gweiPerGas", TFloat64);
     ("GasEstimateValue", "gasEstimateValue", TFloat64);
     ("InValues", "inValues", TSlice TFloat64);
     ("OutValues", "outValues", TSlice TFloat64);
     ("NetOutValue", "netOutValue", TFloat64);
     ("PriceImpact", "priceImpact", TFloat64);
     ("PercentDiff", "percentDiff", TFloat64);
     ("PartnerFeePercent", "partnerFeePercent", TFloat64);
     ("PathId", "pathId", TString);
     ("PathViz", "pathViz", PathViz);
     ("BlockNumber", "blockNumber", TInt64)].

Definition AssembleRequest : gotype :=
  struct "odos.AssembleRequest"
    [("UserAddr", "userAddr", TString);
     ("PathId", "pathId", TString);
     ("Simulate", "simulate", TBool)].

Definition Transaction : gotype :=
  struct "odos.Transaction"
    [("Gas", "gas", TInt64);
     ("GasPrice", "gasPrice", TInt64);
     ("Value", "value", TString);
     ("To", "to", TString);
     ("From", "from", TString);
     ("Data", "data", TString);
     ("Nonce", "nonce", TInt64);
     ("ChainId", "chainId", TInt)].

Definition Simulation : gotype :=
  struct "odos.Simulation"
    [("IsSuccess", "isSuccess", TBool);
     ("AmountsOut", "amountsOut", TSlice TInt64);
     ("GasEstimate", "gasEstimate", TInt64);
     ("SimulationError", "simulationError", TString)].

Definition AssembleResponse : gotype :=
  struct "odos.AssembleResponse"
    [("Deprecated", "deprecated", TPtr TString);
     ("BlockNumber", "blockNumber", TInt64);
     ("GasEstimate", "gasEstimate", TInt64);
     ("GasEstimateValue", "gasEstimateValue", TFloat64);
     ("InputTokens", "inputTokens", TSlice InputToken);
     ("OutputTokens", "outputTokens",
        TSlice (struct "struct {...}"
                  [("TokenAddress", "tokenAddress", TString);
                   ("Amount", "amount", TString)]));
     ("NetOutValue", "netOutValue", TFloat64);
     ("OutValues", "outValues", TSlice TString);
     ("Transaction", "transaction", Transaction);
     ("Simulation", "simulation", Simulation)].

Record OdosClient : Type := { httpClient : loc; baseURL : string }.

(** [AssembleRequest{UserAddr: .., PathId: .., Simulate: ..}] *)
Definition mkAssembleRequest (UserAddr PathId : string) (Simulate : bool)
  : denote AssembleRequest :=
  (UserAddr, (PathId, (Simulate, tt))).

(** The field [CurrencyId] of a [PriceResponse] *)
Definition CurrencyId (p : denote PriceResponse) : string := fst p.

Section Methods.
Context `{!strconv.FloatFormat, !url.Parser}.

Definition NewClient (baseURL : string) : Go OdosClient loc :=
  let baseURL := if String.eqb baseURL "" then _baseURL else baseURL in
  p ← new_http {| http.Timeout := 10 * time.Second |};
  new_client {| httpClient := p; baseURL := baseURL |}.

Definition GetTokenPrice (c : loc) (chainID tokenAddr : string)
  : Go OdosClient (option (denote PriceResponse) * option error) :=
  this ← deref c;
  let url := fmt.Sprintf "%s/pricing/token/%s/%s"
               [fmt.S_ (baseURL this); fmt.S_ chainID; fmt.S_ tokenAddr] in
  r ← Client_Get (httpClient this) url;
  match r with
  | Err err => mret (None, Some (fmt.Errorf "failed to get token price: %w" [fmt.W_ err]))
  | Ok resp =>
      match Decode PriceResponse (http.Response.Body resp) (zero PriceResponse) with
      | Err err => mret (None, Some (fmt.Errorf "failed to decode response: %w" [fmt.W_ err]))
      | Ok priceResp => mret (Some priceResp, None)
      end
  end.

(** The four headers that [Quote] and [Assemble] set. *)
Definition set_headers (request : http.Request.t) : http.Request.t :=
  let request := http.Request.with_header request "Content-Type" "application/json" in
  let request := http.Request.with_header request "Accept" "*/*" in
  let request := http.Request.with_header request "Origin" "https://app.odos.xyz" in
  http.Request.with_header request "Referer" "https://app.odos.xyz/".

Definition Quote (c : loc) (req : denote (TPtr QuoteRequest))
  : Go OdosClient (option (denote QuoteResponse) * option error) :=
  this ← deref c;
  let url := fmt.Sprintf "%s/sor/quote/v2" [fmt.S_ (baseURL this)] in
  match Marshal (TPtr QuoteRequest) req with
  | Err err => mret (None, Some (fmt.Errorf "failed to marshal request: %w" [fmt.W_ err]))
  | Ok jsonData =>
      match http.NewRequest "POST" url (Some jsonData) with
      | Err err => mret (None, Some (fmt.Errorf "failed to create request: %w" [fmt.W_ err]))
      | Ok request =>
          let request := set_headers request in
          r ← Client_Do (httpClient this) request;
          match r with
          | Err err => mret (None, Some (fmt.Errorf "failed to get quote: %w" [fmt.W_ err]))
          | Ok resp =>
              match Decode QuoteResponse (http.Response.Body resp) (zero QuoteResponse) with
              | Err err =>
                  mret (None, Some (fmt.Errorf "failed to decode response: %w" [fmt.W_ err]))
              | Ok quoteResp => mret (Some quoteResp, None)
              end
          end
      end
  end.

Definition Assemble (c : loc) (userAddr pathId : string) (isSimulate : bool)
  : Go OdosClient (option (denote AssembleResponse) * option error) :=
  this ← deref c;
  let url := fmt.Sprintf "%s/sor/assemble" [fmt.S_ (baseURL this)] in
  let req := mkAssembleRequest userAddr pathId isSimulate in
  match Marshal AssembleRequest req with
  | Err err => mret (None, Some (fmt.Errorf "failed to marshal request: %w" [fmt.W_ err]))
  | Ok jsonData =>
      match http.NewRequest "POST" url (Some jsonData) with
      | Err err => mret (None, Some (fmt.Errorf "failed to create request: %w" [fmt.W_ err]))
      | Ok request =>
          let request := set_headers request in
          r ← Client_Do (httpClient this) request;
          match r with
          | Err err =>
              mret (None, Some (fmt.Errorf "failed to assemble transaction: %w" [fmt.W_ err]))
          | Ok resp =>
              match io.ReadAll (http.Response.Body resp) with
              | (_, Some err) =>
                  mret (None, Some (fmt.Errorf "failed to read response body: %w" [fmt.W_ err]))
              | (body, None) =>
                  if negb (http.Response.StatusCode resp =? http.StatusOK) then
                    mret (None, Some (fmt.Errorf "unexpected status code: %d, response: %s"
                                        [fmt.D_ (http.Response.StatusCode resp); fmt.S_ body]))
                  else
                    match Unmarshal AssembleResponse body (zero AssembleResponse) with
                    | Err err =>
                        mret (None, Some (fmt.Errorf "failed to decode response: %w" [fmt.W_ err]))
                    | Ok assembleResp => mret (Some assembleResp, None)
                    end
              end
          end
      end
  end.

End Methods.

End odos.

(** ** Package kyberswap ([kyberswap/kyber.go]) *)

Module kyberswap.
Import json.

Definition _baseURL : string := "https://aggregator-api.kyberswap.com".

Record KyberSwapClient : Type := { httpClient : loc; baseURL : string }.

Definition ExtraFee : gotype :=
  struct "kyberswap.ExtraFee"
    [("FeeAmount", "feeAmount", TString);
     ("ChargeFeeBy", "chargeFeeBy", TString);
     ("IsInBps", "isInBps", TBool);
     ("FeeReceiver", "feeReceiver", TString)].

Definition OuterPoolExtra : gotype :=
  struct "kyberswap.OuterPoolExtra"
    [("BlockNumber", "blockNumber", TInt64);
     ("TokenInIndex", "tokenInIndex", TInt);
     ("TokenOutIndex", "tokenOutIndex", TInt);
     ("Underlying", "underlying", TBool);
     ("TokenInIsNative", "TokenInIsNative", TBool);
     ("TokenOutIsNative", "TokenOutIsNative", TBool)].

Definition Route : gotype :=
  struct "kyberswap.Route"
    [("Pool", "pool", TString);
     ("TokenIn", "tokenIn", TString);
     ("TokenOut", "tokenOut", TString);
     ("LimitReturnAmount", "limitReturnAmount", TString);
     ("SwapAmount", "swapAmount", TString);
     ("AmountOut", "amountOut", TString);
     ("Exchange", "exchange", TString);
     ("PoolLength", "poolLength", TInt);
     ("PoolType", "poolType", TString);
     ("PoolExtra", "poolExtra", OuterPoolExtra);
     ("Extra", "extra", TInterface)].

Definition RouteSummary : gotype :=
  struct "kyberswap.RouteSummary"
    [("TokenIn", "tokenIn", TString);
     ("AmountIn", "amountIn", TString);
     ("AmountInUsd", "amountInUsd", TString);
     ("TokenInMarketPriceAvailable", "tokenInMarketPriceAvailable", TBool);
     ("TokenOut", "tokenOut", TString);
     ("AmountOut", "amountOut", TString);
     ("AmountOutUsd", "amountOutUsd", TString);
     ("TokenOutMarketPriceAvailable", "tokenOutMarketPriceAvailable", TBool);
     ("Gas", "gas", TString);
     ("GasPrice", "gasPrice", TString);
     ("GasUsd", "gasUsd", TString);
     ("ExtraFee", "extraFee", ExtraFee);
     ("Route", "route", TSlice (TSlice Route))].

Definition RouteResponse : gotype :=
  struct "kyberswap.RouteResponse"
    [("Code", "code", TInt64);
     ("Message", "message", TString);
     ("Data", "data",
        struct "struct {...}"
          [("RouteSummary", "routeSummary", RouteSummary);
           ("RouterAddress", "routerAddress", TString)]);
     ("RequestId", "requestId", TString)].

Definition BuildRouteRequest : gotype :=
  struct "kyberswap.BuildRouteRequest"
    [("RouteSummary", "routeSummary", RouteSummary);
     ("Sender", "sender", TString);
     ("Recipient", "recipient", TString);
     ("Deadline", "deadline", TInt64);
     ("SlippageTolerance", "slippageTolerance", TInt64)].

Definition OutputChange : gotype :=
  struct "kyberswap.OutputChange"
    [("Amount", "amount", TString);
     ("Percent", "percent", TFloat64);
     ("Level", "level", TInt)].

Definition BuildRouteResponse : gotype :=
  struct "kyberswap.BuildRouteResponse"
    [("Code", "code", TInt64);
     ("Message", "message", TString);
     ("Data", "data",
        struct "struct {...}"
          [("AmountIn", "amountIn", TString);
           ("AmountInUsd", "amountInUsd", TString);
           ("AmountOut", "amountOut", TString);
           ("AmountOutUsd", "amountOutUsd", TString);
           ("Gas", "gas", TString);
           ("GasUsd", "gasUsd", TString);
           ("OutputChange", "outputChange", OutputChange);
           ("Data", "data", TString);
           ("RouterAddress", "routerAddress", TString);
           ("TransactionValue", "transactionValue", TString)]);
     ("RequestId", "requestId", TString)].

(** [BuildRouteRequest{RouteSummary: .., Sender: .., ...}] *)
Definition mkBuildRouteRequest (RouteSummary_ : denote RouteSummary)
    (Sender Recipient : string) (Deadline SlippageTolerance : Z) : denote BuildRouteRequest :=
  (RouteSummary_, (Sender, (Recipient, (Deadline, (SlippageTolerance, tt))))).

(** [resp.Data.RouteSummary] of a [RouteResponse] *)
Definition Data_RouteSummary (resp : denote RouteResponse) : denote RouteSummary :=
  fst (fst (snd (snd resp))).

(** The fields of a [BuildRouteRequest] *)
Definition RouteSummary_of (r : denote BuildRouteRequest) : denote RouteSummary := fst r.
Definition Sender (r : denote BuildRouteRequest) : string := fst (snd r).
Definition Recipient (r : denote BuildRouteRequest) : string := fst (snd (snd r)).
Definition Deadline (r : denote BuildRouteRequest) : Z := fst (snd (snd (snd r))).
Definition SlippageTolerance (r : denote BuildRouteRequest) : Z :=
  fst (snd (snd (snd (snd r)))).

Section Methods.
Context `{!strconv.FloatFormat, !url.Parser}.

Definition NewClient (baseURL chain : string) : Go KyberSwapClient loc :=
  let baseURL := if String.eqb baseURL "" then _baseURL else baseURL in
  let chain := if String.eqb chain "" then "ethereum" else chain in
  p ← new_http {| http.Timeout := 10 * time.Second |};
  new_client {| httpClient := p;
                baseURL := fmt.Sprintf "%s/%s" [fmt.S_ baseURL; fmt.S_ chain] |}.

Definition GetRoutes (c : loc) (tokenIn tokenOut amountIn : string)
  : Go KyberSwapClient (option (denote RouteResponse) * option error) :=
  this ← deref c;
  let url := fmt.Sprintf "%s/api/v1/routes?tokenIn=%s&tokenOut=%s&amountIn=%s"
               [fmt.S_ (baseURL this); fmt.S_ tokenIn; fmt.S_ tokenOut; fmt.S_ amountIn] in
  match http.NewRequest "GET" url None with
  | Err err => mret (None, Some (fmt.Errorf "error creating request: %w" [fmt.W_ err]))
  | Ok req =>
      r ← Client_Do (httpClient this) req;
      match r with
      | Err err => mret (None, Some (fmt.Errorf "error sending request: %w" [fmt.W_ err]))
      | Ok resp =>
          if negb (http.Response.StatusCode resp =? http.StatusOK) then
            mret (None, Some (fmt.Errorf "unexpected status code: %d"
                                [fmt.D_ (http.Response.StatusCode resp)]))
          else
            match Decode RouteResponse (http.Response.Body resp) (zero RouteResponse) with
            | Err err => mret (None, Some (fmt.Errorf "error decoding response: %w" [fmt.W_ err]))
            | Ok routeResp => mret (Some routeResp, None)
            end
      end
  end.

Definition BuildRoute (c : loc) (routeSummary : denote RouteSummary) (sender recipient : string)
  : Go KyberSwapClient (option (denote BuildRouteResponse) * option error) :=
  now ← time_Now_Unix;
  let reqBody := mkBuildRouteRequest routeSummary sender recipient
                   (wrap64 (now + 20 * 3600)) 10 in
  match Marshal BuildRouteRequest reqBody with
  | Err err => mret (None, Some (fmt.Errorf "error marshaling request: %w" [fmt.W_ err]))
  | Ok jsonBody =>
      this ← deref c;
      let url := fmt.Sprintf "%s/api/v1/route/build" [fmt.S_ (baseURL this)] in
      match http.NewRequest "POST" url (Some jsonBody) with
      | Err err => mret (None, Some (fmt.Errorf "error creating request: %w" [fmt.W_ err]))
      | Ok req =>
          let req := http.Request.with_header req "Content-Type" "application/json" in
          r ← Client_Do (httpClient this) req;
          match r with
          | Err err => mret (None, Some (fmt.Errorf "error sending request: %w" [fmt.W_ err]))
          | Ok resp =>
              if negb (http.Response.StatusCode resp =? http.StatusOK) then
                match io.ReadAll (http.Response.Body resp) with
                | (_, Some err) =>
                    mret (None, Some (fmt.Errorf "status code %d, failed to read error response: %w"
                                        [fmt.D_ (http.Response.StatusCode resp); fmt.W_ err]))
                | (body, None) =>
                    mret (None, Some (fmt.Errorf "unexpected status code: %d: %s"
                                        [fmt.D_ (http.Response.StatusCode resp); fmt.S_ body]))
                end
              else
                match Decode BuildRouteResponse (http.Response.Body resp)
                        (zero BuildRouteResponse) with
                | Err err =>
                    mret (None, Some (fmt.Errorf "error decoding response: %w" [fmt.W_ err]))
                | Ok buildResp => mret (Some buildResp, None)
                end
          end
      end
  end.

(** [WithTimeout] returns its receiver. *)
Definition WithTimeout (c : loc) (timeout : Z) : Go KyberSwapClient loc :=
  this ← deref c;
  _ ← set_Timeout (httpClient this) timeout;
  mret c.

End Methods.

End kyberswap.

(** A request carries the four headers of the Odos web application. *)
Definition carries_odos_headers (rq : http.Request.t) : Prop :=
  http.Header.Values (http.Request.Header rq) "Content-Type" = ["application/json"]
  /\ http.Header.Values (http.Request.Header rq) "Accept" = ["*/*"]
  /\ http.Header.Values (http.Request.Header rq) "Origin" = ["https://app.odos.xyz"]
  /\ http.Header.Values (http.Request.Header rq) "Referer" = ["https://app.odos.xyz/"].

(** ** Sample worlds

    Concrete parameters, worlds and stores on which the definitions above
    are run. *)

Module sample.

(** The exact decimal expansion of a finite [float64]: a formatter that
    fits the parameter [strconv.FloatFormat] (the text it writes is longer
    than Go's shortest digits wherever the two differ). *)
Definition pad_zeros (n : nat) (s : string) : string :=
  Nat.iter (n - len s) (String "0") s.

Definition exact_decimal : strconv.FloatFormat := fun f =>
  match f with
  | S754_zero false => "0"
  | S754_zero true => "-0"
  | S754_finite s m e =>
      let sign := if s then "-" else EmptyString in
      if 0 <=? e then sign +:+ strconv.FormatInt (Z.pos m * 2 ^ e)
      else
        let k := Z.to_nat (- e) in
        let digits := pad_zeros (S k) (strconv.FormatInt (Z.pos m * 5 ^ (- e))) in
        sign +:+ take_bytes (len digits - k) digits +:+ "." +:+ drop_bytes (len digits - k) digits
  | _ => "null"
  end.

(** A [url.Parse] that accepts every string. *)
Definition accept_all : url.Parser := fun _ => None.

(** A server that answers every request with the same status and body;
    [e] is the error that ends the body, if any. *)
Definition server (code : Z) (body : string) (e : option error) : World :=
  {| UnixNow := 1700000000;
     RoundTrip := fun _ _ =>
       Ok {| http.Response.StatusCode := code;
             http.Response.Body := {| io.data := body; io.err := e |} |} |}.

(** A network that is down. *)
Definition offline : World :=
  {| UnixNow := 1700000000;
     RoundTrip := fun _ _ => Err (errorString "dial tcp: connection refused") |}.

Definition empty {C : Type} : state C :=
  {| httpClients := ∅; clients := ∅; sent := [] |}.

(** The store after [odos.NewClient("")] *)
Definition odos_store : state odos.OdosClient :=
  {| httpClients := {[ 1%positive := {| http.Timeout := 10 * time.Second |} ]};
     clients := {[ 1%positive := {| odos.httpClient := 1%positive;
                                    odos.baseURL := odos._baseURL |} ]};
     sent := [] |}.

(** The store after [kyberswap.NewClient("", "")] *)
Definition kyber_client : kyberswap.KyberSwapClient :=
  {| kyberswap.httpClient := 1%positive;
     kyberswap.baseURL := "https://aggregator-api.kyberswap.com/ethereum" |}.

Definition kyber_store : state kyberswap.KyberSwapClient :=
  {| httpClients := {[ 1%positive := {| http.Timeout := 10 * time.Second |} ]};
     clients := {[ 1%positive := kyber_client ]};
     sent := [] |}.

(** Three floating-point numbers: 1, 0.5 and 20 *)
Definition one : strconv.float64 := S754_finite false 4503599627370496 (-52).
Definition half : strconv.float64 := S754_finite false 4503599627370496 (-53).
Definition twenty : strconv.float64 := S754_finite false 5629499534213120 (-48).

(** A request record of each kind.  The pool name holds bytes that the
    encoder escapes and a rune of two bytes. *)
Definition quote_request : json.denote odos.QuoteRequest :=
  (1, (Some [("0x6B175474E89094C44Da98b954EedeAC495271d0F", ("1000000000000000000", tt))],
      (Some [("0xA0b86991c6218b36c1d19D4a2e9Eb0cE3606eB48", (one, tt))],
       (twenty, ("0x163A5EC5e9C32238d075E2D829fE9fA87451e3b7",
        (half, (None, (Some [], (Some ["<pool> & " +:+ String "195" (String "169" "")],
         (true, (-7, (true, (false, (false, (false, tt))))))))))))))).

Definition assemble_request : json.denote odos.AssembleRequest :=
  odos.mkAssembleRequest "0x163A5EC5e9C32238d075E2D829fE9fA87451e3b7"
    "9c2294c5e076d888e149c764f832738b" true.

Definition route : json.denote kyberswap.Route :=
  ("0xpool", ("0xin", ("0xout", ("0", ("1000", ("999", ("uniswap", (2, ("univ2",
   ((18500000, (0, (1, (false, (true, (false, tt)))))),
    (json.amap [("fee", json.afloat64 half);
                ("hops", json.aslice [json.astring "a"; json.anil; json.abool true;
                                      json.amap []])], tt))))))))))).

Definition route_summary : json.denote kyberswap.RouteSummary :=
  ("0xin", ("1000", ("1.0", (true, ("0xout", ("999", ("0.99", (false, ("21000", ("20",
   ("0.5", (("0", ("currency_in", (false, ("", tt)))),
    (Some [Some [route]; None; Some []], tt))))))))))))).

Definition build_route_request : json.denote kyberswap.BuildRouteRequest :=
  kyberswap.mkBuildRouteRequest route_summary "0xd46B" "0xd46B" 1700072000 10.

(** The quote request with bytes that are no UTF-8 in its user address
    and in a pool name. *)
Definition quote_request_raw : json.denote odos.QuoteRequest :=
  (1, (Some [("0x6B175474E89094C44Da98b954EedeAC495271d0F", ("1000000000000000000", tt))],
      (Some [("0xA0b86991c6218b36c1d19D4a2e9Eb0cE3606eB48", (one, tt))],
       (twenty, (String "255" "0x163A",
        (half, (None, (Some [], (Some [String "195" (String "040" "pool")],
         (true, (-7, (true, (false, (false, (false, tt))))))))))))))).

(** Bodies of responses that hold numbers, and the records they decode
    to: a price, a route response around [route_summary], and the body of
    a built route with a number under [outputChange]. *)
Definition price_body : string :=
  json.print (json.Obj [("currencyId", json.Str "USD"); ("price", json.Num "2.5e-1")]).

Definition price_response : json.denote odos.PriceResponse :=
  ("USD", (S754_finite false 4503599627370496 (-54), tt)).

Definition route_response : json.denote kyberswap.RouteResponse :=
  (0, ("successfully", ((route_summary, ("0x6131B5fae19EA4f9D964eAc0408E4408b66337b5", tt)),
                        ("7f3a", tt)))).

Definition route_body : string :=
  match @json.Marshal exact_decimal kyberswap.RouteResponse route_response with
  | Ok text => text
  | Err _ => EmptyString
  end.

Definition build_body : string :=
  json.print
    (json.Obj [("code", json.Num "0");
               ("data", json.Obj [("amountIn", json.Str "1000");
                                  ("outputChange",
                                   json.Obj [("amount", json.Str "-1");
                                             ("percent", json.Num "-0.5");
                                             ("level", json.Num "1")])])]).

(** A route summary with one route, whose [Extra] is a NaN. *)
Definition route_summary_nan : json.denote kyberswap.RouteSummary :=
  ("0xin", ("1000", ("1.0", (true, ("0xout", ("999", ("0.99", (false, ("21000", ("20",
   ("0.5", (("0", ("currency_in", (false, ("", tt)))),
    (Some [Some [("0xpool", ("0xin", ("0xout", ("0", ("1000", ("999", ("uniswap", (2,
                   ("univ2", ((18500000, (0, (1, (false, (true, (false, tt)))))),
                              (json.afloat64 S754_nan, tt)))))))))))]], tt))))))))))))).

End sample.

(** * Properties *)

(** ** Byte strings *)

Lemma sapp_nil_r (s : string) : s +:+ "" = s.
Proof. induction s as [|c s IH]; simpl; [reflexivity | now rewrite IH]. Qed.

Lemma sapp_assoc (s t u : string) : (s +:+ t) +:+ u = s +:+ t +:+ u.
Proof. induction s as [|c s IH]; simpl; [reflexivity | now rewrite IH]. Qed.

Lemma len_sapp (s t : string) : len (s +:+ t) = (len s + len t)%nat.
Proof. induction s as [|c s IH]; simpl; [reflexivity | now rewrite IH]. Qed.

Lemma contains_refl_app (pre s post : string) : contains (pre +:+ s +:+ post) s.
Proof. now exists pre, post. Qed.

Lemma has_prefix_app (p s : string) : has_prefix (p +:+ s) p = true.
Proof.
  induction p as [|c p IH]; simpl; [reflexivity|].
  now rewrite Ascii.eqb_refl.
Qed.

Lemma has_prefix_sound (s p : string) : has_prefix s p = true -> exists post, s = p +:+ post.
Proof.
  revert s; induction p as [|c p IH]; intros s H; simpl in *.
  - now exists s.
  - destruct s as [|d s]; [discriminate|].
    destruct (Ascii.eqb_spec c d) as [->|]; [|discriminate].
    destruct (IH _ H) as [post ->]. now exists post.
Qed.

(** [containsb] decides [contains]. *)
Lemma containsb_sound (s sub : string) : containsb s sub = true -> contains s sub.
Proof.
  induction s as [|c s IH]; simpl; intros H.
  - apply orb_true_iff in H as [H|H]; [|discriminate].
    destruct (has_prefix_sound _ _ H) as [post ->]. now exists "", post.
  - apply orb_true_iff in H as [H|H].
    + destruct (has_prefix_sound _ _ H) as [post ->]. now exists "", post.
    + destruct (IH H) as (pre & post & ->). now exists (String c pre), post.
Qed.

Lemma containsb_complete (s sub : string) : contains s sub -> containsb s sub = true.
Proof.
  intros (pre & post & ->).
  induction pre as [|c pre IH]; simpl.
  - destruct (sub +:+ post) eqn:E; simpl; rewrite <- ?E, has_prefix_app; reflexivity.
  - rewrite IH. apply orb_true_r.
Qed.

(** ** The store *)

Section RunLemmas.
Context {C : Type}.
Implicit Types (w : World) (σ : state C).

Lemma run_bind {A B} (m : Go C A) (f : A -> Go C B) w σ :
  run (m ≫= f) w σ =
  match run m w σ with
  | Returns a σ' => run (f a) w σ'
  | Panics msg => Panics msg
  end.
Proof. reflexivity. Qed.

Lemma run_ret {A} (a : A) w σ : run (mret a : Go C A) w σ = Returns a σ.
Proof. reflexivity. Qed.

Lemma run_deref c x w σ : clients σ !! c = Some x -> run (deref c) w σ = Returns x σ.
Proof. intros H. unfold deref; simpl. now rewrite H. Qed.

Lemma run_Client_Do p hc rq w σ :
  httpClients σ !! p = Some hc ->
  run (Client_Do p rq) w σ =
  Returns (RoundTrip w hc rq)
    {| httpClients := httpClients σ; clients := clients σ; sent := sent σ ++ [rq] |}.
Proof. intros H. unfold Client_Do; simpl. now rewrite H. Qed.

End RunLemmas.

(** ** Constructors *)

Lemma Sprintf_s_slash_s (a b : string) :
  fmt.Sprintf "%s/%s" [fmt.S_ a; fmt.S_ b] = a +:+ "/" +:+ b.
Proof. simpl. now rewrite sapp_nil_r. Qed.

Lemma odos_NewClient_run (baseURL : string) (w : World) (σ : state odos.OdosClient) :
  let p := fresh (dom (httpClients σ)) in
  let c := fresh (dom (clients σ)) in
  run (odos.NewClient baseURL) w σ =
  Returns c
    {| httpClients := <[p := {| http.Timeout := 10 * time.Second |}]> (httpClients σ);
       clients := <[c := {| odos.httpClient := p;
                            odos.baseURL := if String.eqb baseURL "" then odos._baseURL
                                            else baseURL |}]> (clients σ);
       sent := sent σ |}.
Proof. reflexivity. Qed.

Lemma kyberswap_NewClient_run (baseURL chain : string) (w : World)
    (σ : state kyberswap.KyberSwapClient) :
  let p := fresh (dom (httpClients σ)) in
  let c := fresh (dom (clients σ)) in
  run (kyberswap.NewClient baseURL chain) w σ =
  Returns c
    {| httpClients := <[p := {| http.Timeout := 10 * time.Second |}]> (httpClients σ);
       clients := <[c := {| kyberswap.httpClient := p;
                            kyberswap.baseURL :=
                              (if String.eqb baseURL "" then kyberswap._baseURL else baseURL)
                              +:+ "/" +:+ (if String.eqb chain "" then "ethereum" else chain) |}]>
                    (clients σ);
       sent := sent σ |}.
Proof.
  unfold kyberswap.NewClient. cbv zeta. rewrite Sprintf_s_slash_s. reflexivity.
Qed.

(** C7.  [odos.NewClient("")] yields a client whose base URL is
    "https://api.odos.xyz"; [kyberswap.NewClient("", "")] yields a client
    whose base URL is "https://aggregator-api.kyberswap.com/ethereum"; and
    for every base URL and chain the KyberSwap client's base URL is the
    given base URL (the default when it is empty), a slash, and the given
    chain ("ethereum" when it is empty). *)
Theorem NewClient_defaults :
  (forall (w : World) (σ : state odos.OdosClient),
      exists c σ' this,
        run (odos.NewClient "") w σ = Returns c σ'
        /\ clients σ' !! c = Some this
        /\ odos.baseURL this = "https://api.odos.xyz")
  /\ (forall (w : World) (σ : state kyberswap.KyberSwapClient),
      exists c σ' this,
        run (kyberswap.NewClient "" "") w σ = Returns c σ'
        /\ clients σ' !! c = Some this
        /\ kyberswap.baseURL this = "https://aggregator-api.kyberswap.com/ethereum")
  /\ (forall (baseURL chain : string) (w : World) (σ : state kyberswap.KyberSwapClient),
      exists c σ' this,
        run (kyberswap.NewClient baseURL chain) w σ = Returns c σ'
        /\ clients σ' !! c = Some this
        /\ kyberswap.baseURL this =
             (if String.eqb baseURL "" then "https://aggregator-api.kyberswap.com" else baseURL)
             +:+ "/" +:+ (if String.eqb chain "" then "ethereum" else chain)).
Proof.
  split; [|split].
  - intros w σ. eexists _, _, _. rewrite odos_NewClient_run.
    split; [reflexivity|]. simpl. rewrite lookup_insert_eq. split; reflexivity.
  - intros w σ. eexists _, _, _. rewrite kyberswap_NewClient_run.
    split; [reflexivity|]. simpl. rewrite lookup_insert_eq. split; reflexivity.
  - intros baseURL chain w σ. eexists _, _, _. rewrite kyberswap_NewClient_run.
    split; [reflexivity|]. simpl. rewrite lookup_insert_eq. split; reflexivity.
Qed.

(** The client that a constructor returns is new, and it points to a new
    [http.Client] with a timeout of ten seconds. *)
Lemma kyberswap_NewClient_fresh (baseURL chain : string) (w : World)
    (σ : state kyberswap.KyberSwapClient) :
  exists c σ' this,
    run (kyberswap.NewClient baseURL chain) w σ = Returns c σ'
    /\ clients σ !! c = None
    /\ clients σ' !! c = Some this
    /\ httpClients σ !! kyberswap.httpClient this = None
    /\ httpClients σ' !! kyberswap.httpClient this = Some {| http.Timeout := 10 * time.Second |}.
Proof.
  eexists _, _, _. rewrite kyberswap_NewClient_run.
  split; [reflexivity|]. cbn [clients httpClients].
  split; [apply not_elem_of_dom, is_fresh|].
  split; [apply lookup_insert_eq|]. cbn [kyberswap.httpClient].
  split; [apply not_elem_of_dom, is_fresh | apply lookup_insert_eq].
Qed.

(** ** WithTimeout *)

(** C9.  On a client [c] whose [http.Client] is allocated, [WithTimeout(d)]
    returns [c] itself; afterwards the timeout of that [http.Client] is [d],
    while the client objects (with their base URLs), every other
    [http.Client] and the list of requests sent are as before. *)
Theorem WithTimeout_frame (w : World) (σ : state kyberswap.KyberSwapClient)
    (c : loc) (this : kyberswap.KyberSwapClient) (hc : http.Client) (d : Z) :
  clients σ !! c = Some this ->
  httpClients σ !! kyberswap.httpClient this = Some hc ->
  exists σ',
    run (kyberswap.WithTimeout c d) w σ = Returns c σ'
    /\ httpClients σ' !! kyberswap.httpClient this = Some {| http.Timeout := d |}
    /\ clients σ' = clients σ
    /\ (forall p, p <> kyberswap.httpClient this -> httpClients σ' !! p = httpClients σ !! p)
    /\ sent σ' = sent σ.
Proof.
  intros Hc Hp. unfold kyberswap.WithTimeout.
  rewrite run_bind, (run_deref _ _ _ _ Hc), run_bind.
  unfold set_Timeout; simpl. rewrite Hp.
  eexists. split; [reflexivity|]. simpl.
  split; [apply lookup_insert_eq|]. split; [reflexivity|]. split; [|reflexivity].
  intros p Hne. now apply lookup_insert_ne.
Qed.

Lemma WithTimeout_frame_witness :
  exists σ',
    run (kyberswap.WithTimeout 1%positive (3 * time.Second)) sample.offline sample.kyber_store
      = Returns 1%positive σ'
    /\ httpClients σ' !! 1%positive = Some {| http.Timeout := 3 * time.Second |}
    /\ clients σ' = clients sample.kyber_store
    /\ (forall p, p <> 1%positive -> httpClients σ' !! p = httpClients sample.kyber_store !! p)
    /\ sent σ' = sent sample.kyber_store.
Proof.
  apply (WithTimeout_frame sample.offline sample.kyber_store 1%positive sample.kyber_client
           {| http.Timeout := 10 * time.Second |} (3 * time.Second)); reflexivity.
Defined.

(** ** What the methods do on a well-formed client

    A client is well formed in a store when its location holds a client
    object and the [httpClient] of that object holds an [http.Client]; this
    is what the constructors build.  The lemmas below unfold each method on
    such a client into the request it sends and the result it returns. *)

Section OdosRuns.
Context `{!strconv.FloatFormat, !url.Parser}.
Context (w : World) (σ : state odos.OdosClient) (c : loc) (this : odos.OdosClient)
  (hc : http.Client).
Hypothesis Hc : clients σ !! c = Some this.
Hypothesis Hp : httpClients σ !! odos.httpClient this = Some hc.

Lemma GetTokenPrice_run (chainID tokenAddr : string) :
  let url := fmt.Sprintf "%s/pricing/token/%s/%s"
               [fmt.S_ (odos.baseURL this); fmt.S_ chainID; fmt.S_ tokenAddr] in
  run (odos.GetTokenPrice c chainID tokenAddr) w σ =
  match url.ParseError url with
  | Some e => Returns (None, Some (fmt.Errorf "failed to get token price: %w" [fmt.W_ e])) σ
  | None =>
      Returns
        match RoundTrip w hc (request "GET" url None) with
        | Err err => (None, Some (fmt.Errorf "failed to get token price: %w" [fmt.W_ err]))
        | Ok resp =>
            match json.Decode odos.PriceResponse (http.Response.Body resp)
                    (json.zero odos.PriceResponse) with
            | Err err => (None, Some (fmt.Errorf "failed to decode response: %w" [fmt.W_ err]))
            | Ok priceResp => (Some priceResp, None)
            end
        end
        (log σ (request "GET" url None))
  end.
Proof.
  intros url. unfold odos.GetTokenPrice.
  rewrite run_bind, (run_deref _ _ _ _ Hc). fold url.
  rewrite run_bind. unfold Client_Get, http.NewRequest.
  destruct (url.ParseError url) as [e|]; [reflexivity|].
  fold (request "GET" url None).
  rewrite (run_Client_Do _ _ _ _ _ Hp). fold (log σ (request "GET" url None)).
  destruct (RoundTrip w hc (request "GET" url None)) as [resp|err]; [|reflexivity].
  destruct (json.Decode _ _ _); reflexivity.
Qed.

Lemma Quote_run (req : json.denote (json.TPtr odos.QuoteRequest)) :
  let url := fmt.Sprintf "%s/sor/quote/v2" [fmt.S_ (odos.baseURL this)] in
  run (odos.Quote c req) w σ =
  match json.Marshal (json.TPtr odos.QuoteRequest) req with
  | Err err => Returns (None, Some (fmt.Errorf "failed to marshal request: %w" [fmt.W_ err])) σ
  | Ok jsonData =>
      match url.ParseError url with
      | Some e => Returns (None, Some (fmt.Errorf "failed to create request: %w" [fmt.W_ e])) σ
      | None =>
          let rq := odos.set_headers (request "POST" url (Some jsonData)) in
          Returns
            match RoundTrip w hc rq with
            | Err err => (None, Some (fmt.Errorf "failed to get quote: %w" [fmt.W_ err]))
            | Ok resp =>
                match json.Decode odos.QuoteResponse (http.Response.Body resp)
                        (json.zero odos.QuoteResponse) with
                | Err err => (None, Some (fmt.Errorf "failed to decode response: %w" [fmt.W_ err]))
                | Ok quoteResp => (Some quoteResp, None)
                end
            end
            (log σ rq)
      end
  end.
Proof.
  intros url. unfold odos.Quote.
  rewrite run_bind, (run_deref _ _ _ _ Hc). fold url.
  destruct (json.Marshal _ req) as [jsonData|err]; [|reflexivity].
  unfold http.NewRequest.
  destruct (url.ParseError url) as [e|]; [reflexivity|].
  fold (request "POST" url (Some jsonData)). cbv zeta.
  rewrite run_bind, (run_Client_Do _ _ _ _ _ Hp).
  fold (log σ (odos.set_headers (request "POST" url (Some jsonData)))).
  destruct (RoundTrip w hc _) as [resp|err]; [|reflexivity].
  destruct (json.Decode _ _ _); reflexivity.
Qed.

Lemma Assemble_run (userAddr pathId : string) (isSimulate : bool) :
  let url := fmt.Sprintf "%s/sor/assemble" [fmt.S_ (odos.baseURL this)] in
  run (odos.Assemble c userAddr pathId isSimulate) w σ =
  match json.Marshal odos.AssembleRequest (odos.mkAssembleRequest userAddr pathId isSimulate) with
  | Err err => Returns (None, Some (fmt.Errorf "failed to marshal request: %w" [fmt.W_ err])) σ
  | Ok jsonData =>
      match url.ParseError url with
      | Some e => Returns (None, Some (fmt.Errorf "failed to create request: %w" [fmt.W_ e])) σ
      | None =>
          let rq := odos.set_headers (request "POST" url (Some jsonData)) in
          Returns
            match RoundTrip w hc rq with
            | Err err => (None, Some (fmt.Errorf "failed to assemble transaction: %w" [fmt.W_ err]))
            | Ok resp =>
                match io.err (http.Response.Body resp) with
                | Some err =>
                    (None, Some (fmt.Errorf "failed to read response body: %w" [fmt.W_ err]))
                | None =>
                    let body := io.data (http.Response.Body resp) in
                    if negb (http.Response.StatusCode resp =? http.StatusOK) then
                      (None, Some (fmt.Errorf "unexpected status code: %d, response: %s"
                                     [fmt.D_ (http.Response.StatusCode resp); fmt.S_ body]))
                    else
                      match json.Unmarshal odos.AssembleResponse body
                              (json.zero odos.AssembleResponse) with
                      | Err err =>
                          (None, Some (fmt.Errorf "failed to decode response: %w" [fmt.W_ err]))
                      | Ok assembleResp => (Some assembleResp, None)
                      end
                end
            end
            (log σ rq)
      end
  end.
Proof.
  intros url. unfold odos.Assemble.
  rewrite run_bind, (run_deref _ _ _ _ Hc). fold url. cbv zeta.
  destruct (json.Marshal _ _) as [jsonData|err]; [|reflexivity].
  unfold http.NewRequest.
  destruct (url.ParseError url) as [e|]; [reflexivity|].
  fold (request "POST" url (Some jsonData)).
  rewrite run_bind, (run_Client_Do _ _ _ _ _ Hp).
  fold (log σ (odos.set_headers (request "POST" url (Some jsonData)))).
  destruct (RoundTrip w hc _) as [resp|err]; [|reflexivity].
  unfold io.ReadAll.
  destruct (io.err (http.Response.Body resp)); [reflexivity|].
  destruct (negb _); [reflexivity|].
  destruct (json.Unmarshal _ _ _); reflexivity.
Qed.

End OdosRuns.

Section KyberRuns.
Context `{!strconv.FloatFormat, !url.Parser}.
Context (w : World) (σ : state kyberswap.KyberSwapClient) (c : loc)
  (this : kyberswap.KyberSwapClient) (hc : http.Client).
Hypothesis Hc : clients σ !! c = Some this.
Hypothesis Hp : httpClients σ !! kyberswap.httpClient this = Some hc.

Lemma GetRoutes_run (tokenIn tokenOut amountIn : string) :
  let url := fmt.Sprintf "%s/api/v1/routes?tokenIn=%s&tokenOut=%s&amountIn=%s"
               [fmt.S_ (kyberswap.baseURL this); fmt.S_ tokenIn; fmt.S_ tokenOut;
                fmt.S_ amountIn] in
  run (kyberswap.GetRoutes c tokenIn tokenOut amountIn) w σ =
  match url.ParseError url with
  | Some e => Returns (None, Some (fmt.Errorf "error creating request: %w" [fmt.W_ e])) σ
  | None =>
      Returns
        match RoundTrip w hc (request "GET" url None) with
        | Err err => (None, Some (fmt.Errorf "error sending request: %w" [fmt.W_ err]))
        | Ok resp =>
            if negb (http.Response.StatusCode resp =? http.StatusOK) then
              (None, Some (fmt.Errorf "unexpected status code: %d"
                             [fmt.D_ (http.Response.StatusCode resp)]))
            else
              match json.Decode kyberswap.RouteResponse (http.Response.Body resp)
                      (json.zero kyberswap.RouteResponse) with
              | Err err => (None, Some (fmt.Errorf "error decoding response: %w" [fmt.W_ err]))
              | Ok routeResp => (Some routeResp, None)
              end
        end
        (log σ (request "GET" url None))
  end.
Proof.
  intros url. unfold kyberswap.GetRoutes.
  rewrite run_bind, (run_deref _ _ _ _ Hc). fold url.
  unfold http.NewRequest.
  destruct (url.ParseError url) as [e|]; [reflexivity|].
  fold (request "GET" url None).
  rewrite run_bind, (run_Client_Do _ _ _ _ _ Hp). fold (log σ (request "GET" url None)).
  destruct (RoundTrip w hc _) as [resp|err]; [|reflexivity].
  destruct (negb _); [reflexivity|].
  destruct (json.Decode _ _ _); reflexivity.
Qed.

(** The record that [BuildRoute] marshals. *)
Lemma BuildRoute_run (routeSummary : json.denote kyberswap.RouteSummary)
    (sender recipient : string) :
  let reqBody := kyberswap.mkBuildRouteRequest routeSummary sender recipient
                   (wrap64 (UnixNow w + 20 * 3600)) 10 in
  let url := fmt.Sprintf "%s/api/v1/route/build" [fmt.S_ (kyberswap.baseURL this)] in
  run (kyberswap.BuildRoute c routeSummary sender recipient) w σ =
  match json.Marshal kyberswap.BuildRouteRequest reqBody with
  | Err err => Returns (None, Some (fmt.Errorf "error marshaling request: %w" [fmt.W_ err])) σ
  | Ok jsonBody =>
      match url.ParseError url with
      | Some e => Returns (None, Some (fmt.Errorf "error creating request: %w" [fmt.W_ e])) σ
      | None =>
          let rq := http.Request.with_header (request "POST" url (Some jsonBody))
                      "Content-Type" "application/json" in
          Returns
            match RoundTrip w hc rq with
            | Err err => (None, Some (fmt.Errorf "error sending request: %w" [fmt.W_ err]))
            | Ok resp =>
                if negb (http.Response.StatusCode resp =? http.StatusOK) then
                  match io.err (http.Response.Body resp) with
                  | Some err =>
                      (None, Some (fmt.Errorf "status code %d, failed to read error response: %w"
                                     [fmt.D_ (http.Response.StatusCode resp); fmt.W_ err]))
                  | None =>
                      (None, Some (fmt.Errorf "unexpected status code: %d: %s"
                                     [fmt.D_ (http.Response.StatusCode resp);
                                      fmt.S_ (io.data (http.Response.Body resp))]))
                  end
                else
                  match json.Decode kyberswap.BuildRouteResponse (http.Response.Body resp)
                          (json.zero kyberswap.BuildRouteResponse) with
                  | Err err => (None, Some (fmt.Errorf "error decoding response: %w" [fmt.W_ err]))
                  | Ok buildResp => (Some buildResp, None)
                  end
            end
            (log σ rq)
      end
  end.
Proof.
  intros reqBody url. unfold kyberswap.BuildRoute.
  rewrite run_bind. unfold time_Now_Unix at 1. cbn [run]. fold reqBody.
  destruct (json.Marshal _ reqBody) as [jsonBody|err]; [|reflexivity].
  rewrite run_bind, (run_deref _ _ _ _ Hc). fold url.
  unfold http.NewRequest.
  destruct (url.ParseError url) as [e|]; [reflexivity|].
  fold (request "POST" url (Some jsonBody)). cbv zeta.
  rewrite run_bind, (run_Client_Do _ _ _ _ _ Hp).
  match goal with |- context [log σ ?r] => idtac | |- context [sent σ ++ [?r]] => fold (log σ r) end.
  destruct (RoundTrip w hc _) as [resp|err]; [|reflexivity].
  destruct (negb _).
  - unfold io.ReadAll. destruct (io.err (http.Response.Body resp)); reflexivity.
  - destruct (json.Decode _ _ _); reflexivity.
Qed.

End KyberRuns.

(** ** Error texts *)

Lemma Errorf_status_body (code : Z) (body : string) :
  fmt.Errorf "unexpected status code: %d, response: %s" [fmt.D_ code; fmt.S_ body] =
  errorString ("unexpected status code: " +:+ strconv.FormatInt code
                 +:+ ", response: " +:+ body).
Proof. cbv [fmt.Errorf]. simpl. now rewrite sapp_nil_r. Qed.

Lemma Errorf_status (code : Z) :
  fmt.Errorf "unexpected status code: %d" [fmt.D_ code] =
  errorString ("unexpected status code: " +:+ strconv.FormatInt code).
Proof. cbv [fmt.Errorf]. simpl. now rewrite sapp_nil_r. Qed.

(** The marshalled [AssembleRequest] always exists: its fields are two
    strings and a boolean. *)
Lemma Marshal_AssembleRequest `{!strconv.FloatFormat} (userAddr pathId : string) (b : bool) :
  json.Marshal odos.AssembleRequest (odos.mkAssembleRequest userAddr pathId b) =
  Ok (json.print (json.Obj [("userAddr", json.Str userAddr); ("pathId", json.Str pathId);
                            ("simulate", json.Bool b)])).
Proof. reflexivity. Qed.

Lemma wrap64_id (z : Z) : min_int64 <= z <= max_int64 -> wrap64 z = z.
Proof.
  unfold wrap64, min_int64, max_int64. intros H.
  rewrite Z.mod_small; lia.
Qed.

(** ** BuildRoute *)

(** C1.  On a well-formed client, [BuildRoute(routeSummary, sender,
    recipient)] marshals this record: its deadline is the Unix time of the
    call plus 20 * 3600 seconds, computed in [int64] (so it is exactly that
    sum unless the sum leaves [int64]), its slippage tolerance is 10, and
    its other fields are the arguments.  If marshalling fails, the call
    returns the error of it and nothing is handed to the [http.Client].
    Otherwise, unless [url.Parse] rejects the URL, the call hands one
    request to the [http.Client], the POST whose body is the marshalled
    record, and returns what it makes of the outcome. *)
Theorem BuildRoute_request_record `{!strconv.FloatFormat, !url.Parser}
    (w : World) (σ : state kyberswap.KyberSwapClient) (c : loc)
    (this : kyberswap.KyberSwapClient) (hc : http.Client)
    (routeSummary : json.denote kyberswap.RouteSummary) (sender recipient : string) :
  clients σ !! c = Some this ->
  httpClients σ !! kyberswap.httpClient this = Some hc ->
  let reqBody := kyberswap.mkBuildRouteRequest routeSummary sender recipient
                   (wrap64 (UnixNow w + 20 * 3600)) 10 in
  let url := kyberswap.baseURL this +:+ "/api/v1/route/build" in
  kyberswap.Deadline reqBody = wrap64 (UnixNow w + 20 * 3600)
  /\ (min_int64 <= UnixNow w /\ UnixNow w + 20 * 3600 <= max_int64 ->
      kyberswap.Deadline reqBody = UnixNow w + 20 * 3600)
  /\ kyberswap.SlippageTolerance reqBody = 10
  /\ kyberswap.RouteSummary_of reqBody = routeSummary
  /\ kyberswap.Sender reqBody = sender
  /\ kyberswap.Recipient reqBody = recipient
  /\ run (kyberswap.BuildRoute c routeSummary sender recipient) w σ =
     match json.Marshal kyberswap.BuildRouteRequest reqBody with
     | Err err =>
         Returns (None, Some (fmt.Errorf "error marshaling request: %w" [fmt.W_ err])) σ
     | Ok jsonBody =>
         match url.ParseError url with
         | Some e =>
             Returns (None, Some (fmt.Errorf "error creating request: %w" [fmt.W_ e])) σ
         | None =>
             let rq := http.Request.with_header (request "POST" url (Some jsonBody))
                         "Content-Type" "application/json" in
             Returns
               match RoundTrip w hc rq with
               | Err err => (None, Some (fmt.Errorf "error sending request: %w" [fmt.W_ err]))
               | Ok resp =>
                   if negb (http.Response.StatusCode resp =? http.StatusOK) then
                     match io.err (http.Response.Body resp) with
                     | Some err =>
                         (None,
                          Some (fmt.Errorf "status code %d, failed to read error response: %w"
                                  [fmt.D_ (http.Response.StatusCode resp); fmt.W_ err]))
                     | None =>
                         (None,
                          Some (fmt.Errorf "unexpected status code: %d: %s"
                                  [fmt.D_ (http.Response.StatusCode resp);
                                   fmt.S_ (io.data (http.Response.Body resp))]))
                     end
                   else
                     match json.Decode kyberswap.BuildRouteResponse (http.Response.Body resp)
                             (json.zero kyberswap.BuildRouteResponse) with
                     | Err err =>
                         (None, Some (fmt.Errorf "error decoding response: %w" [fmt.W_ err]))
                     | Ok buildResp => (Some buildResp, None)
                     end
               end
               (log σ rq)
         end
     end.
Proof.
  intros Hc Hp reqBody url.
  split; [reflexivity|]. split.
  { intros [Hlo Hhi]. cbn [reqBody kyberswap.Deadline kyberswap.mkBuildRouteRequest fst snd].
    apply wrap64_id. unfold min_int64, max_int64 in *. lia. }
  do 4 (split; [reflexivity|]).
  rewrite (BuildRoute_run w σ c this hc Hc Hp). cbv zeta. reflexivity.
Qed.

(** A route summary with a route and a value under [Extra], at the Unix
    time 1700000000, to a server that answers [{}] with status 200: the
    request is the POST of the record with the deadline 1700072000 and the
    slippage tolerance 10. *)
Lemma BuildRoute_request_record_witness :
  exists jsonBody,
    @json.Marshal sample.exact_decimal kyberswap.BuildRouteRequest
      (kyberswap.mkBuildRouteRequest sample.route_summary "0xd46B" "0xd46B" 1700072000 10)
    = Ok jsonBody
    /\ run (@kyberswap.BuildRoute sample.exact_decimal sample.accept_all 1%positive
              sample.route_summary "0xd46B" "0xd46B")
         (sample.server 200 "{}" None) sample.kyber_store
       = Returns (Some (json.zero kyberswap.BuildRouteResponse), None)
           (log sample.kyber_store
              (http.Request.with_header
                 (request "POST"
                    "https://aggregator-api.kyberswap.com/ethereum/api/v1/route/build"
                    (Some jsonBody))
                 "Content-Type" "application/json")).
Proof.
  destruct (@BuildRoute_request_record sample.exact_decimal sample.accept_all
              (sample.server 200 "{}" None) sample.kyber_store 1%positive sample.kyber_client
              {| http.Timeout := 10 * time.Second |} sample.route_summary "0xd46B" "0xd46B"
              eq_refl eq_refl) as (_ & _ & _ & _ & _ & _ & H).
  change (wrap64 (UnixNow (sample.server 200 "{}" None) + 20 * 3600)) with 1700072000 in H.
  destruct (json.Marshal kyberswap.BuildRouteRequest _) as [jsonBody|err] eqn:E.
  - exists jsonBody. split; [reflexivity|]. exact H.
  - vm_compute in E. discriminate E.
Defined.

(** ** Status codes *)

(** C5.  When the server answers [GetRoutes] with a response, a status
    other than 200 gives a nil result and the error "unexpected status
    code: " followed by the status in decimal; a status of 200 gives what
    decoding the body into a [RouteResponse] gives.  So the call succeeds
    exactly when the status is 200 and the decoding succeeds. *)
Theorem GetRoutes_status `{!url.Parser}
    (w : World) (σ : state kyberswap.KyberSwapClient) (c : loc)
    (this : kyberswap.KyberSwapClient) (hc : http.Client)
    (tokenIn tokenOut amountIn : string) (resp : http.Response.t) :
  let url := fmt.Sprintf "%s/api/v1/routes?tokenIn=%s&tokenOut=%s&amountIn=%s"
               [fmt.S_ (kyberswap.baseURL this); fmt.S_ tokenIn; fmt.S_ tokenOut;
                fmt.S_ amountIn] in
  let decoded := json.Decode kyberswap.RouteResponse (http.Response.Body resp)
                   (json.zero kyberswap.RouteResponse) in
  clients σ !! c = Some this ->
  httpClients σ !! kyberswap.httpClient this = Some hc ->
  url.ParseError url = None ->
  RoundTrip w hc (request "GET" url None) = Ok resp ->
  exists res err,
    run (kyberswap.GetRoutes c tokenIn tokenOut amountIn) w σ =
      Returns (res, err) (log σ (request "GET" url None))
    /\ (http.Response.StatusCode resp <> 200 ->
        res = None
        /\ err = Some (errorString ("unexpected status code: "
                                      +:+ strconv.FormatInt (http.Response.StatusCode resp))))
    /\ (http.Response.StatusCode resp = 200 ->
        match decoded with
        | Ok routeResp => res = Some routeResp /\ err = None
        | Err e => res = None /\ err = Some (fmt.Errorf "error decoding response: %w" [fmt.W_ e])
        end)
    /\ ((is_Some res /\ err = None) <->
        (http.Response.StatusCode resp = 200 /\ exists routeResp, decoded = Ok routeResp)).
Proof.
  intros url decoded Hc Hp Hurl Hrt.
  rewrite (GetRoutes_run w σ c this hc Hc Hp). cbv zeta. fold url.
  rewrite Hurl, Hrt. unfold http.StatusOK. fold decoded.
  destruct (Z.eqb_spec (http.Response.StatusCode resp) 200) as [E|E]; cbn [negb].
  - destruct decoded as [routeResp|e] eqn:D.
    + eexists _, _. split; [reflexivity|]. split; [intros; contradiction|].
      split; [intros _; split; reflexivity|].
      split; [intros _; split; [exact E|now exists routeResp]|].
      intros _. split; [now eexists|reflexivity].
    + eexists _, _. split; [reflexivity|]. split; [intros; contradiction|].
      split; [intros _; split; reflexivity|].
      split; [intros [[x Hx] _]; discriminate|].
      intros [_ [x Hx]]; discriminate.
  - rewrite Errorf_status.
    eexists _, _. split; [reflexivity|]. split; [intros _; split; reflexivity|].
    split; [intros; contradiction|].
    split; [intros [[x Hx] _]; discriminate|].
    intros [? _]; contradiction.
Qed.

Lemma GetRoutes_status_witness :
  exists res err,
    run (@kyberswap.GetRoutes sample.accept_all 1%positive "USDT" "sUSDe" "2238451.467827")
      (sample.server 503 "busy" None) sample.kyber_store =
      Returns (res, err)
        (log sample.kyber_store
           (request "GET"
              (fmt.Sprintf "%s/api/v1/routes?tokenIn=%s&tokenOut=%s&amountIn=%s"
                 [fmt.S_ (kyberswap.baseURL sample.kyber_client); fmt.S_ "USDT";
                  fmt.S_ "sUSDe"; fmt.S_ "2238451.467827"]) None))
    /\ (503 <> 200 ->
        res = None
        /\ err = Some (errorString ("unexpected status code: " +:+ strconv.FormatInt 503)))
    /\ (503 = 200 ->
        match json.Decode kyberswap.RouteResponse {| io.data := "busy"; io.err := None |}
                (json.zero kyberswap.RouteResponse) with
        | Ok routeResp => res = Some routeResp /\ err = None
        | Err e => res = None /\ err = Some (fmt.Errorf "error decoding response: %w" [fmt.W_ e])
        end)
    /\ ((is_Some res /\ err = None) <->
        (503 = 200 /\ exists routeResp,
            json.Decode kyberswap.RouteResponse {| io.data := "busy"; io.err := None |}
              (json.zero kyberswap.RouteResponse) = Ok routeResp)).
Proof.
  apply (@GetRoutes_status sample.accept_all (sample.server 503 "busy" None)
           sample.kyber_store 1%positive sample.kyber_client
           {| http.Timeout := 10 * time.Second |} "USDT" "sUSDe" "2238451.467827"
           {| http.Response.StatusCode := 503;
              http.Response.Body := {| io.data := "busy"; io.err := None |} |});
    reflexivity.
Defined.

(** ** Assemble and the status code *)

(** Referenced by C2 as its counterexample.  The server answers with
    status 500 and the connection breaks while the body is read:
    [Assemble] reports the read error, and its message holds neither the
    status code nor the bytes of the body that did arrive. *)
Lemma Assemble_read_error_hides_status :
  exists (e : error) (σ' : state odos.OdosClient),
    run (@odos.Assemble sample.exact_decimal sample.accept_all 1%positive
           "0x163A5EC5e9C32238d075E2D829fE9fA87451e3b7" "9c2294c5e076d888e149c764f832738b" true)
      (sample.server 500 "boom" (Some io.ErrUnexpectedEOF)) sample.odos_store
    = Returns (None, Some e) σ'
    /\ Error e = "failed to read response body: unexpected EOF"
    /\ ~ contains (Error e) (strconv.FormatInt 500)
    /\ ~ contains (Error e) "boom".
Proof.
  eexists _, _. split; [vm_compute; reflexivity|].
  split; [reflexivity|].
  split; intros H%containsb_complete; vm_compute in H; discriminate.
Qed.

(** C2 (amended).  When the server answers [Assemble] with a response whose
    body is read to its end, a status other than 200 gives a nil result and
    an error whose message is "unexpected status code: ", the status in
    decimal, ", response: " and the body, so it contains both; the body is
    unmarshalled only when the status is 200.  When reading the body fails,
    the error is the read error wrapped in "failed to read response body",
    whatever the status. *)
Theorem Assemble_status `{!strconv.FloatFormat, !url.Parser}
    (w : World) (σ : state odos.OdosClient) (c : loc) (this : odos.OdosClient)
    (hc : http.Client) (userAddr pathId : string) (isSimulate : bool)
    (resp : http.Response.t) :
  let url := fmt.Sprintf "%s/sor/assemble" [fmt.S_ (odos.baseURL this)] in
  let rq := odos.set_headers
              (request "POST" url
                 (Some (json.print (json.Obj [("userAddr", json.Str userAddr);
                                              ("pathId", json.Str pathId);
                                              ("simulate", json.Bool isSimulate)])))) in
  let code := http.Response.StatusCode resp in
  let body := io.data (http.Response.Body resp) in
  clients σ !! c = Some this ->
  httpClients σ !! odos.httpClient this = Some hc ->
  url.ParseError url = None ->
  RoundTrip w hc rq = Ok resp ->
  exists res err,
    run (odos.Assemble c userAddr pathId isSimulate) w σ = Returns (res, err) (log σ rq)
    /\ (io.err (http.Response.Body resp) = None -> code <> 200 ->
        res = None
        /\ exists e, err = Some e
             /\ Error e = "unexpected status code: " +:+ strconv.FormatInt code
                            +:+ ", response: " +:+ body
             /\ contains (Error e) (strconv.FormatInt code)
             /\ contains (Error e) body)
    /\ (io.err (http.Response.Body resp) = None -> code = 200 ->
        match json.Unmarshal odos.AssembleResponse body (json.zero odos.AssembleResponse) with
        | Ok assembleResp => res = Some assembleResp /\ err = None
        | Err e => res = None /\ err = Some (fmt.Errorf "failed to decode response: %w" [fmt.W_ e])
        end)
    /\ (forall e, io.err (http.Response.Body resp) = Some e ->
        res = None
        /\ err = Some (fmt.Errorf "failed to read response body: %w" [fmt.W_ e])).
Proof.
  intros url rq code body Hc Hp Hurl Hrt.
  rewrite (Assemble_run w σ c this hc Hc Hp), Marshal_AssembleRequest. cbv zeta.
  fold url. rewrite Hurl. fold rq. rewrite Hrt. fold code body. unfold http.StatusOK.
  destruct (io.err (http.Response.Body resp)) as [e|].
  { eexists _, _. split; [reflexivity|].
    split; [discriminate|]. split; [discriminate|].
    intros e' [= <-]. split; reflexivity. }
  destruct (Z.eqb_spec code 200) as [E|E]; cbn [negb].
  - destruct (json.Unmarshal _ _ _) as [assembleResp|e].
    + eexists _, _. split; [reflexivity|]. split; [intros _ ?; contradiction|].
      split; [|discriminate]. intros _ _. split; reflexivity.
    + eexists _, _. split; [reflexivity|]. split; [intros _ ?; contradiction|].
      split; [|discriminate]. intros _ _. split; reflexivity.
  - rewrite Errorf_status_body.
    eexists _, _. split; [reflexivity|]. split; [|split; [intros _ ?; contradiction|discriminate]].
    intros _ _. split; [reflexivity|]. eexists. split; [reflexivity|].
    cbn [Error]. split; [reflexivity|]. split.
    + exists "unexpected status code: ", (", response: " +:+ body). reflexivity.
    + exists ("unexpected status code: " +:+ strconv.FormatInt code +:+ ", response: "), "".
      now rewrite sapp_nil_r, !sapp_assoc.
Qed.

Lemma Assemble_status_witness :
  exists (e : error) (σ' : state odos.OdosClient),
    run (@odos.Assemble sample.exact_decimal sample.accept_all 1%positive "0x163A" "9c22" true)
      (sample.server 500 "boom" None) sample.odos_store
    = Returns (None, Some e) σ'
    /\ contains (Error e) (strconv.FormatInt 500)
    /\ contains (Error e) "boom".
Proof.
  destruct (@Assemble_status sample.exact_decimal sample.accept_all
              (sample.server 500 "boom" None) sample.odos_store 1%positive
              {| odos.httpClient := 1%positive; odos.baseURL := odos._baseURL |}
              {| http.Timeout := 10 * time.Second |} "0x163A" "9c22" true
              {| http.Response.StatusCode := 500;
                 http.Response.Body := {| io.data := "boom"; io.err := None |} |}
              eq_refl eq_refl eq_refl eq_refl)
    as (res & err & Hrun & Hbad & _ & _).
  destruct (Hbad eq_refl ltac:(discriminate)) as (-> & e & -> & _ & Hcode & Hbody).
  exists e. eexists. split; [exact Hrun|]. split; assumption.
Defined.

(** ** GetTokenPrice *)

(** Referenced by C3 as its counterexample.  The server answers with the
    body [{}]: [GetTokenPrice] succeeds and the currency identifier of the
    record it returns is empty. *)
Lemma GetTokenPrice_empty_currency :
  exists (p : json.denote odos.PriceResponse) (σ' : state odos.OdosClient),
    run (@odos.GetTokenPrice sample.accept_all 1%positive "1"
           "0x6B175474E89094C44Da98b954EedeAC495271d0F")
      (sample.server 200 "{}" None) sample.odos_store
    = Returns (Some p, None) σ'
    /\ odos.CurrencyId p = "".
Proof. eexists _, _. split; vm_compute; reflexivity. Qed.

(** C3 (amended).  For all chain-ID and token-address inputs, a call of
    [GetTokenPrice] on a well-formed client returns, and what it returns is
    either a price record with a nil error or a nil record with a non-nil
    error: never both nil, never both set.  (The currency identifier of a
    returned record is whatever the body supplies; nothing makes it
    non-empty.) *)
Theorem GetTokenPrice_result `{!url.Parser}
    (w : World) (σ : state odos.OdosClient) (c : loc) (this : odos.OdosClient)
    (hc : http.Client) (chainID tokenAddr : string) :
  clients σ !! c = Some this ->
  httpClients σ !! odos.httpClient this = Some hc ->
  exists res err σ',
    run (odos.GetTokenPrice c chainID tokenAddr) w σ = Returns (res, err) σ'
    /\ ((is_Some res /\ err = None) \/ (res = None /\ is_Some err)).
Proof.
  intros Hc Hp. rewrite (GetTokenPrice_run w σ c this hc Hc Hp). cbv zeta.
  destruct (url.ParseError _) as [e|].
  { eexists _, _, _. split; [reflexivity|]. right. split; [reflexivity|now eexists]. }
  destruct (RoundTrip w hc _) as [resp|e].
  - destruct (json.Decode _ _ _) as [p|e].
    + eexists _, _, _. split; [reflexivity|]. left. split; [now eexists|reflexivity].
    + eexists _, _, _. split; [reflexivity|]. right. split; [reflexivity|now eexists].
  - eexists _, _, _. split; [reflexivity|]. right. split; [reflexivity|now eexists].
Qed.

Lemma GetTokenPrice_result_witness :
  exists res err σ',
    run (@odos.GetTokenPrice sample.accept_all 1%positive "1" "0x6B17") sample.offline
      sample.odos_store = Returns (res, err) σ'
    /\ ((is_Some res /\ err = None) \/ (res = None /\ is_Some err)).
Proof.
  apply (@GetTokenPrice_result sample.accept_all sample.offline sample.odos_store 1%positive
           {| odos.httpClient := 1%positive; odos.baseURL := odos._baseURL |}
           {| http.Timeout := 10 * time.Second |}); reflexivity.
Defined.

(** ** Which methods look at the status code *)

(** C4.  [GetTokenPrice] and [Quote] never look at the status code: once
    the server has answered, with whatever status, the result is what
    decoding the body gives, a success exactly when the decoding succeeds.
    [Assemble], [GetRoutes] and [BuildRoute] do look: on a status other
    than 200 they fail whatever the body is. *)
Theorem no_status_check `{!strconv.FloatFormat, !url.Parser} (code : Z) (body : io.Reader) :
  let resp := {| http.Response.StatusCode := code; http.Response.Body := body |} in
  (forall (w : World) (σ : state odos.OdosClient) (c : loc) (this : odos.OdosClient)
          (hc : http.Client),
      clients σ !! c = Some this ->
      httpClients σ !! odos.httpClient this = Some hc ->
      (forall (chainID tokenAddr : string),
          let url := fmt.Sprintf "%s/pricing/token/%s/%s"
                       [fmt.S_ (odos.baseURL this); fmt.S_ chainID; fmt.S_ tokenAddr] in
          url.ParseError url = None ->
          RoundTrip w hc (request "GET" url None) = Ok resp ->
          run (odos.GetTokenPrice c chainID tokenAddr) w σ =
          Returns
            match json.Decode odos.PriceResponse body (json.zero odos.PriceResponse) with
            | Ok priceResp => (Some priceResp, None)
            | Err e => (None, Some (fmt.Errorf "failed to decode response: %w" [fmt.W_ e]))
            end
            (log σ (request "GET" url None)))
      /\ (forall (req : json.denote (json.TPtr odos.QuoteRequest)) (jsonData : string),
          let url := fmt.Sprintf "%s/sor/quote/v2" [fmt.S_ (odos.baseURL this)] in
          let rq := odos.set_headers (request "POST" url (Some jsonData)) in
          json.Marshal (json.TPtr odos.QuoteRequest) req = Ok jsonData ->
          url.ParseError url = None ->
          RoundTrip w hc rq = Ok resp ->
          run (odos.Quote c req) w σ =
          Returns
            match json.Decode odos.QuoteResponse body (json.zero odos.QuoteResponse) with
            | Ok quoteResp => (Some quoteResp, None)
            | Err e => (None, Some (fmt.Errorf "failed to decode response: %w" [fmt.W_ e]))
            end
            (log σ rq))
      /\ (forall (userAddr pathId : string) (isSimulate : bool) (jsonData : string),
          let url := fmt.Sprintf "%s/sor/assemble" [fmt.S_ (odos.baseURL this)] in
          let rq := odos.set_headers (request "POST" url (Some jsonData)) in
          json.Marshal odos.AssembleRequest (odos.mkAssembleRequest userAddr pathId isSimulate)
            = Ok jsonData ->
          url.ParseError url = None ->
          RoundTrip w hc rq = Ok resp ->
          code <> 200 ->
          exists e, run (odos.Assemble c userAddr pathId isSimulate) w σ =
                    Returns (None, Some e) (log σ rq)))
  /\ (forall (w : World) (σ : state kyberswap.KyberSwapClient) (c : loc)
             (this : kyberswap.KyberSwapClient) (hc : http.Client),
      clients σ !! c = Some this ->
      httpClients σ !! kyberswap.httpClient this = Some hc ->
      code <> 200 ->
      (forall (tokenIn tokenOut amountIn : string),
          let url := fmt.Sprintf "%s/api/v1/routes?tokenIn=%s&tokenOut=%s&amountIn=%s"
                       [fmt.S_ (kyberswap.baseURL this); fmt.S_ tokenIn; fmt.S_ tokenOut;
                        fmt.S_ amountIn] in
          url.ParseError url = None ->
          RoundTrip w hc (request "GET" url None) = Ok resp ->
          exists e, run (kyberswap.GetRoutes c tokenIn tokenOut amountIn) w σ =
                    Returns (None, Some e) (log σ (request "GET" url None)))
      /\ (forall (routeSummary : json.denote kyberswap.RouteSummary) (sender recipient : string)
                 (jsonBody : string),
          let url := fmt.Sprintf "%s/api/v1/route/build" [fmt.S_ (kyberswap.baseURL this)] in
          let rq := http.Request.with_header (request "POST" url (Some jsonBody))
                      "Content-Type" "application/json" in
          json.Marshal kyberswap.BuildRouteRequest
            (kyberswap.mkBuildRouteRequest routeSummary sender recipient
               (wrap64 (UnixNow w + 20 * 3600)) 10) = Ok jsonBody ->
          url.ParseError url = None ->
          RoundTrip w hc rq = Ok resp ->
          exists e, run (kyberswap.BuildRoute c routeSummary sender recipient) w σ =
                    Returns (None, Some e) (log σ rq))).
Proof.
  intros resp. split.
  - intros w σ c this hc Hc Hp. split; [|split].
    + intros chainID tokenAddr url Hurl Hrt.
      rewrite (GetTokenPrice_run w σ c this hc Hc Hp). cbv zeta. fold url.
      rewrite Hurl, Hrt. subst resp. cbn [http.Response.Body].
      destruct (json.Decode _ _ _); reflexivity.
    + intros req jsonData url rq HM Hurl Hrt.
      rewrite (Quote_run w σ c this hc Hc Hp), HM. cbv zeta. fold url.
      rewrite Hurl. fold rq. rewrite Hrt. subst resp. cbn [http.Response.Body].
      destruct (json.Decode _ _ _); reflexivity.
    + intros userAddr pathId isSimulate jsonData url rq HM Hurl Hrt Hcode.
      rewrite (Assemble_run w σ c this hc Hc Hp), HM. cbv zeta. fold url.
      rewrite Hurl. fold rq. rewrite Hrt. subst resp.
      cbn [http.Response.Body http.Response.StatusCode].
      destruct (io.err body); [now eexists|].
      unfold http.StatusOK. destruct (Z.eqb_spec code 200); [contradiction|].
      now eexists.
  - intros w σ c this hc Hc Hp Hcode. split.
    + intros tokenIn tokenOut amountIn url Hurl Hrt.
      rewrite (GetRoutes_run w σ c this hc Hc Hp). cbv zeta. fold url.
      rewrite Hurl, Hrt. subst resp. cbn [http.Response.Body http.Response.StatusCode].
      unfold http.StatusOK. destruct (Z.eqb_spec code 200); [contradiction|].
      now eexists.
    + intros routeSummary sender recipient jsonBody url rq HM Hurl Hrt.
      rewrite (BuildRoute_run w σ c this hc Hc Hp). cbv zeta. rewrite HM. fold url.
      rewrite Hurl. fold rq. rewrite Hrt. subst resp.
      cbn [http.Response.Body http.Response.StatusCode].
      unfold http.StatusOK. destruct (Z.eqb_spec code 200); [contradiction|].
      cbn [negb]. destruct (io.err body); now eexists.
Qed.

(** A status of 404 with the body [{}]: [GetTokenPrice] succeeds. *)
Lemma no_status_check_witness :
  exists p,
    run (@odos.GetTokenPrice sample.accept_all 1%positive "1" "0x6B17")
      (sample.server 404 "{}" None) sample.odos_store
    = Returns (Some p, None)
        (log sample.odos_store
           (request "GET" "https://api.odos.xyz/pricing/token/1/0x6B17" None)).
Proof.
  destruct (@no_status_check sample.exact_decimal sample.accept_all 404
              {| io.data := "{}"; io.err := None |}) as [Hodos _].
  destruct (Hodos (sample.server 404 "{}" None) sample.odos_store 1%positive
              {| odos.httpClient := 1%positive; odos.baseURL := odos._baseURL |}
              {| http.Timeout := 10 * time.Second |} eq_refl eq_refl) as [Hprice _].
  eexists. rewrite (Hprice "1" "0x6B17" eq_refl eq_refl). reflexivity.
Defined.

(** ** Request headers *)

Lemma set_headers_carries (method url : string) (body : option string) :
  carries_odos_headers (odos.set_headers (request method url body)).
Proof. repeat split; vm_compute; reflexivity. Qed.

(** Referenced by C8 as its counterexample.  The request that
    [GetTokenPrice] sends has no header at all, so in particular no
    [Content-Type]. *)
Lemma GetTokenPrice_sends_no_header :
  exists res (σ' : state odos.OdosClient) (rq : http.Request.t),
    run (@odos.GetTokenPrice sample.accept_all 1%positive "1"
           "0x6B175474E89094C44Da98b954EedeAC495271d0F")
      (sample.server 200 "{}" None) sample.odos_store
    = Returns res σ'
    /\ sent σ' = [rq]
    /\ http.Request.Header rq = ∅
    /\ ~ carries_odos_headers rq.
Proof.
  eexists _, _, _. split; [vm_compute; reflexivity|].
  split; [reflexivity|]. split; [reflexivity|].
  intros [H _]. vm_compute in H. discriminate.
Qed.

(** C8 (amended).  Every request that [Quote] or [Assemble] sends carries
    [Content-Type: application/json], [Accept: */*],
    [Origin: https://app.odos.xyz] and [Referer: https://app.odos.xyz/];
    the request that [GetTokenPrice] sends is a plain GET without any
    header. *)
Theorem odos_request_headers `{!strconv.FloatFormat, !url.Parser}
    (w : World) (σ : state odos.OdosClient) (c : loc) (this : odos.OdosClient)
    (hc : http.Client) :
  clients σ !! c = Some this ->
  httpClients σ !! odos.httpClient this = Some hc ->
  (forall req, exists res σ',
      run (odos.Quote c req) w σ = Returns res σ'
      /\ forall rq, rq ∈ sent σ' -> rq ∈ sent σ \/ carries_odos_headers rq)
  /\ (forall userAddr pathId isSimulate, exists res σ',
      run (odos.Assemble c userAddr pathId isSimulate) w σ = Returns res σ'
      /\ forall rq, rq ∈ sent σ' -> rq ∈ sent σ \/ carries_odos_headers rq)
  /\ (forall chainID tokenAddr, exists res σ',
      run (odos.GetTokenPrice c chainID tokenAddr) w σ = Returns res σ'
      /\ forall rq, rq ∈ sent σ' ->
           rq ∈ sent σ \/ (http.Request.Method rq = "GET" /\ http.Request.Header rq = ∅)).
Proof.
  intros Hc Hp. split; [|split].
  - intros req. rewrite (Quote_run w σ c this hc Hc Hp). cbv zeta.
    destruct (json.Marshal _ _) as [jsonData|e]; [|eexists _, _; split; [reflexivity|tauto]].
    destruct (url.ParseError _); eexists _, _; (split; [reflexivity|]); [tauto|].
    intros rq [Hin|Hin%list_elem_of_singleton]%elem_of_app; [now left|right].
    subst rq. apply set_headers_carries.
  - intros userAddr pathId isSimulate. rewrite (Assemble_run w σ c this hc Hc Hp). cbv zeta.
    destruct (json.Marshal _ _) as [jsonData|e]; [|eexists _, _; split; [reflexivity|tauto]].
    destruct (url.ParseError _); eexists _, _; (split; [reflexivity|]); [tauto|].
    intros rq [Hin|Hin%list_elem_of_singleton]%elem_of_app; [now left|right].
    subst rq. apply set_headers_carries.
  - intros chainID tokenAddr. rewrite (GetTokenPrice_run w σ c this hc Hc Hp). cbv zeta.
    destruct (url.ParseError _); eexists _, _; (split; [reflexivity|]); [tauto|].
    intros rq [Hin|Hin%list_elem_of_singleton]%elem_of_app; [now left|right].
    subst rq. split; reflexivity.
Qed.

Lemma odos_request_headers_witness :
  exists res σ',
    run (@odos.Assemble sample.exact_decimal sample.accept_all 1%positive "0x163A" "9c22" true)
      sample.offline sample.odos_store = Returns res σ'
    /\ forall rq, rq ∈ sent σ' -> rq ∈ sent sample.odos_store \/ carries_odos_headers rq.
Proof.
  destruct (@odos_request_headers sample.exact_decimal sample.accept_all sample.offline
              sample.odos_store 1%positive
              {| odos.httpClient := 1%positive; odos.baseURL := odos._baseURL |}
              {| http.Timeout := 10 * time.Second |} eq_refl eq_refl) as (_ & HA & _).
  exact (HA "0x163A" "9c22" true).
Defined.
(** ** The scanner: how much input an item takes *)

Import json.

Ltac sapp := repeat first [rewrite sapp_assoc | rewrite sapp_nil_r | progress simpl].

Lemma skip_space_len (s : string) : (len (skip_space s) <= len s)%nat.
Proof. induction s as [|c s IH]; simpl; [lia|]. destruct (isSpace c); simpl; lia. Qed.

Lemma skip_space_app (s t : string) (c : ascii) (r : string) :
  skip_space s = String c r -> skip_space (s +:+ t) = String c (r +:+ t).
Proof.
  induction s as [|d s IH]; simpl; [discriminate|].
  destruct (isSpace d); [exact IH|]. now intros [= -> ->].
Qed.

Lemma skip_space_all (s t : string) :
  skip_space s = "" -> skip_space (s +:+ t) = skip_space t.
Proof.
  induction s as [|d s IH]; simpl; [reflexivity|].
  destruct (isSpace d); [exact IH|discriminate].
Qed.

Lemma skip_space_head (c : ascii) (s : string) :
  isSpace c = false -> skip_space (String c s) = String c s.
Proof. intros H. simpl. now rewrite H. Qed.

Lemma span_digits_eq (s ds r : string) : span_digits s = (ds, r) -> s = ds +:+ r.
Proof.
  revert ds r. induction s as [|c s IH]; simpl; intros ds r.
  - now intros [= <- <-].
  - destruct (isDigit c).
    + destruct (span_digits s) as [ds' r'] eqn:E. intros [= <- <-].
      simpl. now rewrite (IH _ _ eq_refl).
    + now intros [= <- <-].
Qed.

(** What a scanner of literals returns is the text it has consumed. *)
Lemma scan_exp_eq (lit s l r : string) :
  scan_exp lit s = Parsed l r -> exists x, l = lit +:+ x /\ s = x +:+ r.
Proof.
  unfold scan_exp. destruct s as [|c s].
  - intros [= <- <-]. exists "". now rewrite sapp_nil_r.
  - destruct (Ascii.eqb c "e" || Ascii.eqb c "E").
    + set (p := match s with
                | String c' r' =>
                    if Ascii.eqb c' "+" || Ascii.eqb c' "-"
                    then (String c' "", r') else ("", s)
                | "" => ("", s)
                end).
      assert (Hp : s = fst p +:+ snd p).
      { subst p. destruct s as [|c' r']; [reflexivity|].
        destruct (Ascii.eqb c' "+" || Ascii.eqb c' "-"); reflexivity. }
      destruct p as [sg r1]. simpl in Hp.
      destruct (span_digits r1) as [ds r2] eqn:E. apply span_digits_eq in E.
      destruct ds as [|d ds].
      * destruct r2; [discriminate|]. unfold invalid_char. discriminate.
      * intros [= <- <-]. exists (String c sg +:+ String d ds). split; [reflexivity|].
        subst s r1. simpl. now rewrite !sapp_assoc.
    + intros [= <- <-]. exists "". now rewrite sapp_nil_r.
Qed.

Lemma scan_frac_eq (lit s l r : string) :
  scan_frac lit s = Parsed l r -> exists x, l = lit +:+ x /\ s = x +:+ r.
Proof.
  unfold scan_frac. destruct s as [|c s]; [apply scan_exp_eq|].
  destruct (Ascii.eqb_spec c ".") as [->|Hne]; [|apply scan_exp_eq].
  destruct (span_digits s) as [ds r'] eqn:E. apply span_digits_eq in E.
  destruct ds as [|d ds].
  - destruct r'; [discriminate|]. unfold invalid_char. discriminate.
  - intros H. apply scan_exp_eq in H as (x & -> & ->).
    exists (String "." (String d ds) +:+ x). split.
    + now rewrite !sapp_assoc.
    + subst s. simpl. now rewrite !sapp_assoc.
Qed.

Lemma scan_number_eq (s l r : string) :
  scan_number s = Parsed l r -> s = l +:+ r /\ l <> "".
Proof.
  unfold scan_number.
  set (p := match s with
            | String c r0 => if Ascii.eqb c "-" then (String "-" "", r0) else ("", s)
            | "" => ("", s)
            end).
  assert (Hp : s = fst p +:+ snd p).
  { subst p. destruct s as [|c r0]; [reflexivity|].
    destruct (Ascii.eqb_spec c "-") as [->|]; reflexivity. }
  destruct p as [sign s1]. simpl in Hp. destruct s1 as [|c s1]; [discriminate|].
  destruct (Ascii.eqb_spec c "0") as [->|].
  - intros H. apply scan_frac_eq in H as (x & -> & ->). split.
    + subst s. now sapp.
    + destruct sign; discriminate.
  - destruct (isDigit c); [|unfold invalid_char; discriminate].
    destruct (span_digits s1) as [ds r'] eqn:E. apply span_digits_eq in E.
    intros H. apply scan_frac_eq in H as (x & -> & ->). split.
    + subst s s1. now sapp.
    + destruct sign; discriminate.
Qed.

Lemma scan_lit_len (name expect s r : string) (u : unit) :
  scan_lit name expect s = Parsed u r -> (len r <= len s)%nat.
Proof.
  revert s. induction expect as [|e expect IH]; simpl; intros s.
  - intros [= _ <-]. lia.
  - destruct s as [|c s]; [discriminate|].
    destruct (Ascii.eqb c e); [|unfold invalid_char; discriminate].
    intros H%IH. simpl. lia.
Qed.

Lemma cons_raw_Parsed (pre : string) (x : scanned string) (raw r : string) :
  cons_raw pre x = Parsed raw r -> exists raw', x = Parsed raw' r /\ raw = pre +:+ raw'.
Proof. destruct x; simpl; try discriminate. intros [= <- <-]. now eexists. Qed.

(** Induction on the length of a string *)
Lemma string_len_ind (P : string -> Prop) :
  (forall s, (forall s', (len s' < len s)%nat -> P s') -> P s) -> forall s, P s.
Proof.
  intros H s. remember (len s) as n eqn:E. revert s E.
  induction n as [n IH] using lt_wf_ind. intros s ->.
  apply H. intros s' Hlt. exact (IH _ Hlt s' eq_refl).
Qed.

Lemma escU_error_not_Parsed {A : Type} (s : string) (a : A) (r : string) :
  escU_error s <> Parsed a r.
Proof.
  induction s as [|c s IH]; simpl; [discriminate|].
  destruct (isHex c); [exact IH|unfold invalid_char; discriminate].
Qed.

Lemma escU_error_not_Exhausted {A : Type} (s : string) : @escU_error A s <> Exhausted.
Proof.
  induction s as [|c s IH]; simpl; [discriminate|].
  destruct (isHex c); [exact IH|unfold invalid_char; discriminate].
Qed.

#[local] Arguments escU_error : simpl never.

Lemma scan_string_eq (s raw r : string) :
  scan_string s = Parsed raw r -> s = raw +:+ String dquote r.
Proof.
  revert raw r. induction s as [s IH] using string_len_ind. intros raw r.
  destruct s as [|c s]; [discriminate|]. simpl.
  destruct (Ascii.eqb_spec c dquote) as [->|]; [now intros [= <- <-]|].
  destruct (Ascii.eqb_spec c "\") as [->|].
  - destruct s as [|e s1]; [discriminate|].
    destruct (isShortEscape e).
    { intros (raw' & H & ->)%cons_raw_Parsed. apply IH in H; [|simpl; lia].
      now subst s1. }
    destruct (Ascii.eqb_spec e "u") as [->|]; [|unfold invalid_char; discriminate].
    destruct s1 as [|h1 [|h2 [|h3 [|h4 r2]]]];
      try (destruct (all_hex _); [discriminate|intros H; now apply escU_error_not_Parsed in H]).
    destruct (isHex h1 && isHex h2 && isHex h3 && isHex h4);
      [|intros H; now apply escU_error_not_Parsed in H].
    intros (raw' & H & ->)%cons_raw_Parsed. apply IH in H; [|simpl; lia].
    now subst r2.
  - destruct (byte_val c <? 32); [unfold invalid_char; discriminate|].
    intros (raw' & H & ->)%cons_raw_Parsed. apply IH in H; [|simpl; lia].
    now subst s.
Qed.

Lemma bind_scanned_Parsed {A B : Type} (x : scanned A) (f : A -> string -> scanned B)
    (b : B) (r : string) :
  bind_scanned x f = Parsed b r -> exists a r', x = Parsed a r' /\ f a r' = Parsed b r.
Proof. destruct x; simpl; try discriminate. intros H. now eexists _, _. Qed.

Lemma scan_value_S (fuel : nat) (depth : Z) (s : string) :
  scan_value (S fuel) depth s =
  match skip_space s with
  | "" => Incomplete
  | String c r =>
      if Ascii.eqb c "{" then
        if maxNestingDepth <? depth + 1 then invalid_char c "exceeded max depth"
        else
          match skip_space r with
          | "" => Incomplete
          | String c' r' =>
              if Ascii.eqb c' "}" then Parsed (Obj []) r'
              else bind_scanned (scan_members fuel (depth + 1) (String c' r'))
                     (fun ms rest => Parsed (Obj ms) rest)
          end
      else if Ascii.eqb c "[" then
        if maxNestingDepth <? depth + 1 then invalid_char c "exceeded max depth"
        else
          match skip_space r with
          | "" => Incomplete
          | String c' r' =>
              if Ascii.eqb c' "]" then Parsed (Arr []) r'
              else bind_scanned (scan_elems fuel (depth + 1) (String c' r'))
                     (fun vs rest => Parsed (Arr vs) rest)
          end
      else if Ascii.eqb c dquote then
        bind_scanned (scan_string r)
          (fun raw rest =>
             match unquote raw with
             | Some str => Parsed (Str str) rest
             | None => Invalid "JSON decoder out of sync - data changing underfoot?"
             end)
      else if Ascii.eqb c "-" || isDigit c then
        bind_scanned (scan_number (String c r)) (fun lit rest => Parsed (Num lit) rest)
      else if Ascii.eqb c "t" then
        bind_scanned (scan_lit "true" "rue" r) (fun _ rest => Parsed (Bool true) rest)
      else if Ascii.eqb c "f" then
        bind_scanned (scan_lit "false" "alse" r) (fun _ rest => Parsed (Bool false) rest)
      else if Ascii.eqb c "n" then
        bind_scanned (scan_lit "null" "ull" r) (fun _ rest => Parsed Null rest)
      else invalid_char c "looking for beginning of value"
  end.
Proof. reflexivity. Qed.

Lemma scan_elems_S (fuel : nat) (depth : Z) (s : string) :
  scan_elems (S fuel) depth s =
  bind_scanned (scan_value fuel depth s)
    (fun v r =>
       match skip_space r with
       | "" => Incomplete
       | String c r' =>
           if Ascii.eqb c "," then
             bind_scanned (scan_elems fuel depth r') (fun vs rest => Parsed (v :: vs) rest)
           else if Ascii.eqb c "]" then Parsed [v] r'
           else invalid_char c "after array element"
       end).
Proof. reflexivity. Qed.

Lemma scan_members_S (fuel : nat) (depth : Z) (s : string) :
  scan_members (S fuel) depth s =
  match skip_space s with
  | "" => Incomplete
  | String c r =>
      if Ascii.eqb c dquote then
        bind_scanned (scan_string r)
          (fun raw r1 =>
             match unquote raw with
             | None => Invalid "JSON decoder out of sync - data changing underfoot?"
             | Some key =>
                 match skip_space r1 with
                 | "" => Incomplete
                 | String c1 r2 =>
                     if Ascii.eqb c1 ":" then
                       bind_scanned (scan_value fuel depth r2)
                         (fun v r3 =>
                            match skip_space r3 with
                            | "" => Incomplete
                            | String c3 r4 =>
                                if Ascii.eqb c3 "," then
                                  bind_scanned (scan_members fuel depth r4)
                                    (fun ms rest => Parsed ((key, v) :: ms) rest)
                                else if Ascii.eqb c3 "}" then Parsed [(key, v)] r4
                                else invalid_char c3 "after object key:value pair"
                            end)
                     else invalid_char c1 "after object key"
                 end
             end)
      else invalid_char c "looking for beginning of object key string"
  end.
Proof. reflexivity. Qed.

Lemma skip_space_cons_len (s : string) (c : ascii) (r : string) :
  skip_space s = String c r -> (len r < len s)%nat.
Proof. intros H. pose proof (skip_space_len s) as L. rewrite H in L. simpl in L. lia. Qed.

(** The steps shared by the proofs about the three scanners: name the
    outcome of every test and of every inner scan. *)
Ltac scan_step :=
  match goal with
  | H : bind_scanned _ _ = Parsed _ _ |- _ =>
      apply bind_scanned_Parsed in H as (? & ? & ? & H)
  | H : match skip_space ?s with _ => _ end = Parsed _ _ |- _ =>
      destruct (skip_space s) eqn:?; [discriminate H|]
  | H : (if ?b then _ else _) = Parsed _ _ |- _ => destruct b eqn:?
  | H : match unquote ?x with _ => _ end = Parsed _ _ |- _ => destruct (unquote x) eqn:?
  | H : invalid_char _ _ = Parsed _ _ |- _ => discriminate H
  | H : Invalid _ = Parsed _ _ |- _ => discriminate H
  | H : Incomplete = Parsed _ _ |- _ => discriminate H
  | H : Exhausted = Parsed _ _ |- _ => discriminate H
  | H : Parsed _ _ = Parsed _ _ |- _ => injection H as <- <-
  end.

Ltac len_facts :=
  repeat match goal with
  | H : skip_space _ = String _ _ |- _ => apply skip_space_cons_len in H
  | H : scan_string _ = Parsed _ _ |- _ => apply scan_string_eq in H; apply (f_equal len) in H;
      rewrite len_sapp in H; simpl in H
  | H : scan_number _ = Parsed _ _ |- _ =>
      apply scan_number_eq in H as [H ?]; apply (f_equal len) in H; rewrite len_sapp in H
  | H : scan_lit _ _ _ = Parsed _ _ |- _ => apply scan_lit_len in H
  end.

Lemma len_nonempty (s : string) : s <> "" -> (0 < len s)%nat.
Proof. destruct s; [contradiction|simpl; lia]. Qed.

(** A scanned item takes at least one byte. *)
Lemma scan_shrinks (fuel : nat) :
  (forall d s v r, scan_value fuel d s = Parsed v r -> (len r < len s)%nat)
  /\ (forall d s vs r, scan_elems fuel d s = Parsed vs r -> (len r < len s)%nat)
  /\ (forall d s ms r, scan_members fuel d s = Parsed ms r -> (len r < len s)%nat).
Proof.
  induction fuel as [|fuel (IHv & IHe & IHm)]; [repeat split; discriminate|].
  split; [|split]; intros d s x r H.
  - rewrite scan_value_S in H. repeat scan_step;
      repeat match goal with
             | H : scan_members _ _ _ = Parsed _ _ |- _ => apply IHm in H
             | H : scan_elems _ _ _ = Parsed _ _ |- _ => apply IHe in H
             end; len_facts; simpl in *; try lia.
    match goal with H : ?l <> "" |- _ => apply len_nonempty in H end. lia.
  - rewrite scan_elems_S in H. repeat scan_step;
      repeat match goal with
             | H : scan_value _ _ _ = Parsed _ _ |- _ => apply IHv in H
             | H : scan_elems _ _ _ = Parsed _ _ |- _ => apply IHe in H
             end; len_facts; simpl in *; lia.
  - rewrite scan_members_S in H. repeat scan_step;
      repeat match goal with
             | H : scan_value _ _ _ = Parsed _ _ |- _ => apply IHv in H
             | H : scan_members _ _ _ = Parsed _ _ |- _ => apply IHm in H
             end; len_facts; simpl in *; lia.
Qed.

(** ** The scanner: the recursion bound *)

Lemma bind_not_Exhausted {A B : Type} (x : scanned A) (f : A -> string -> scanned B) :
  x <> Exhausted -> (forall a r, x = Parsed a r -> f a r <> Exhausted) ->
  bind_scanned x f <> Exhausted.
Proof. destruct x; simpl; intros Hx Hf; try discriminate; [now apply Hf|contradiction]. Qed.

Lemma scan_exp_not_Exhausted (lit s : string) : scan_exp lit s <> Exhausted.
Proof.
  unfold scan_exp, invalid_char. destruct s as [|c s]; [discriminate|].
  destruct (_ || _); [|discriminate].
  destruct (match s with "" => _ | String _ _ => _ end) as [sg r1].
  destruct (span_digits r1) as [[|] [|]]; discriminate.
Qed.

Lemma scan_frac_not_Exhausted (lit s : string) : scan_frac lit s <> Exhausted.
Proof.
  unfold scan_frac, invalid_char. destruct s as [|c s]; [apply scan_exp_not_Exhausted|].
  destruct (Ascii.eqb c "."); [|apply scan_exp_not_Exhausted].
  destruct (span_digits s) as [[|] [|]]; try discriminate; apply scan_exp_not_Exhausted.
Qed.

Lemma scan_number_not_Exhausted (s : string) : scan_number s <> Exhausted.
Proof.
  unfold scan_number, invalid_char.
  destruct (match s with "" => _ | String _ _ => _ end) as [sign [|c s1]]; [discriminate|].
  destruct (Ascii.eqb c "0"); [apply scan_frac_not_Exhausted|].
  destruct (isDigit c); [|discriminate].
  destruct (span_digits s1). apply scan_frac_not_Exhausted.
Qed.

Lemma scan_lit_not_Exhausted (name expect s : string) : scan_lit name expect s <> Exhausted.
Proof.
  revert s. induction expect as [|e expect IH]; simpl; intros s; [discriminate|].
  destruct s as [|c s]; [discriminate|].
  destruct (Ascii.eqb c e); [apply IH|unfold invalid_char; discriminate].
Qed.

Lemma cons_raw_not_Exhausted (pre : string) (x : scanned string) :
  x <> Exhausted -> cons_raw pre x <> Exhausted.
Proof. intros H. apply bind_not_Exhausted; [exact H|discriminate]. Qed.

Lemma scan_string_not_Exhausted (s : string) : scan_string s <> Exhausted.
Proof.
  induction s as [s IH] using string_len_ind.
  destruct s as [|c s]; [discriminate|]. simpl.
  destruct (Ascii.eqb c dquote); [discriminate|].
  destruct (Ascii.eqb c "\").
  - destruct s as [|e s1]; [discriminate|].
    destruct (isShortEscape e); [apply cons_raw_not_Exhausted, IH; simpl; lia|].
    destruct (Ascii.eqb e "u"); [|unfold invalid_char; discriminate].
    destruct s1 as [|h1 [|h2 [|h3 [|h4 r2]]]];
      try (destruct (all_hex _); [discriminate|apply escU_error_not_Exhausted]).
    destruct (_ && _); [|apply escU_error_not_Exhausted].
    apply cons_raw_not_Exhausted, IH; simpl; lia.
  - destruct (byte_val c <? 32); [unfold invalid_char; discriminate|].
    apply cons_raw_not_Exhausted, IH; simpl; lia.
Qed.

Ltac not_exhausted :=
  repeat match goal with
  | |- bind_scanned _ _ <> Exhausted => apply bind_not_Exhausted; [|intros ? ? ?]
  | |- scan_string _ <> Exhausted => apply scan_string_not_Exhausted
  | |- scan_number _ <> Exhausted => apply scan_number_not_Exhausted
  | |- scan_lit _ _ _ <> Exhausted => apply scan_lit_not_Exhausted
  | |- invalid_char _ _ <> Exhausted => discriminate
  | |- Parsed _ _ <> Exhausted => discriminate
  | |- Invalid _ <> Exhausted => discriminate
  | |- Incomplete <> Exhausted => discriminate
  | |- (if ?b then _ else _) <> Exhausted => destruct b
  | |- match unquote ?x with _ => _ end <> Exhausted => destruct (unquote x)
  | |- match skip_space ?s with _ => _ end <> Exhausted => destruct (skip_space s) eqn:?
  end.

(** With two units of fuel for each byte of input the scanners do not run
    out. *)
Lemma scan_fuel (fuel : nat) :
  (forall d s, (2 * len s + 1 <= fuel)%nat -> scan_value fuel d s <> Exhausted)
  /\ (forall d s, (2 * len s + 2 <= fuel)%nat -> scan_elems fuel d s <> Exhausted)
  /\ (forall d s, (2 * len s + 2 <= fuel)%nat -> scan_members fuel d s <> Exhausted).
Proof.
  induction fuel as [|fuel (IHv & IHe & IHm)]; [repeat split; intros; lia|].
  split; [|split]; intros d s Hf.
  - rewrite scan_value_S. not_exhausted; len_facts.
    + apply IHm. simpl in *. lia.
    + apply IHe. simpl in *. lia.
  - rewrite scan_elems_S. not_exhausted.
    + apply IHv. lia.
    + apply IHe. match goal with H : scan_value _ _ _ = Parsed _ _ |- _ =>
        apply (proj1 (scan_shrinks _)) in H end. len_facts. lia.
  - rewrite scan_members_S. not_exhausted.
    + apply IHv. len_facts. lia.
    + apply IHm. match goal with H : scan_value _ _ _ = Parsed _ _ |- _ =>
        apply (proj1 (scan_shrinks _)) in H end. len_facts. lia.
Qed.

Theorem scan_not_Exhausted (data : string) : scan data <> Exhausted.
Proof. apply (proj1 (scan_fuel _)). lia. Qed.


Lemma below_refl {A : Type} (x : scanned A) : below x x.
Proof. now right. Qed.

Lemma bind_below {A B : Type} (x y : scanned A) (f g : A -> string -> scanned B) :
  below x y -> (forall a r, below (f a r) (g a r)) -> below (bind_scanned x f) (bind_scanned y g).
Proof.
  intros [->| ->] Hf; [now left|]. destruct y; simpl; [apply Hf|now right..].
Qed.

Ltac below_step :=
  repeat match goal with
  | |- below (bind_scanned _ _) (bind_scanned _ _) => apply bind_below; [|intros ? ?]
  | |- below ?x ?x => apply below_refl
  | |- below (if ?b then _ else _) (if ?b then _ else _) => destruct b
  | |- below (match ?x with _ => _ end) (match ?x with _ => _ end) => destruct x
  end.

Lemma scan_fuel_S (fuel : nat) :
  (forall d s, below (scan_value fuel d s) (scan_value (S fuel) d s))
  /\ (forall d s, below (scan_elems fuel d s) (scan_elems (S fuel) d s))
  /\ (forall d s, below (scan_members fuel d s) (scan_members (S fuel) d s)).
Proof.
  induction fuel as [|fuel (IHv & IHe & IHm)]; [repeat split; intros; now left|].
  split; [|split]; intros d s.
  - rewrite (scan_value_S (S fuel)), (scan_value_S fuel). below_step; auto.
  - rewrite (scan_elems_S (S fuel)), (scan_elems_S fuel). below_step; auto.
  - rewrite (scan_members_S (S fuel)), (scan_members_S fuel). below_step; auto.
Qed.

Lemma scan_value_fuel_mono (fuel fuel' : nat) (d : Z) (s : string) (x : scanned value) :
  scan_value fuel d s = x -> x <> Exhausted -> (fuel <= fuel')%nat ->
  scan_value fuel' d s = x.
Proof.
  intros Hx Hne Hle. induction Hle as [|fuel' Hle IH]; [exact Hx|].
  destruct (proj1 (scan_fuel_S fuel') d s) as [E|E]; congruence.
Qed.

(** Whatever the fuel, an outcome that is not [Exhausted] is the outcome of
    [scan] with its own bound. *)
Lemma scan_value_scan (fuel : nat) (s : string) (x : scanned value) :
  scan_value fuel 0 s = x -> x <> Exhausted -> scan s = x.
Proof.
  intros Hx Hne. unfold scan.
  destruct (Nat.le_ge_cases fuel (S (2 * len s))) as [Hle|Hle].
  - eapply scan_value_fuel_mono; eauto.
  - pose proof (scan_not_Exhausted s) as Hs. unfold scan in Hs.
    rewrite <- Hx. symmetry. eapply scan_value_fuel_mono; eauto.
Qed.

(** ** The scanner: bytes after an item *)

#[local] Arguments scan_exp : simpl never.
#[local] Arguments scan_frac : simpl never.
#[local] Arguments scan_number : simpl never.

Lemma span_digits_app (s ds r t : string) :
  span_digits s = (ds, r) -> r <> "" -> span_digits (s +:+ t) = (ds, r +:+ t).
Proof.
  revert ds r. induction s as [|c s IH]; simpl; intros ds r.
  - intros [= <- <-]. contradiction.
  - destruct (isDigit c) eqn:D.
    + destruct (span_digits s) as [ds' r'] eqn:E. intros [= <- <-] Hr.
      now rewrite (IH _ _ eq_refl Hr).
    + now intros [= <- <-] _.
Qed.

Lemma scan_exp_app (lit s l r t : string) :
  scan_exp lit s = Parsed l r -> r <> "" -> scan_exp lit (s +:+ t) = Parsed l (r +:+ t).
Proof.
  unfold scan_exp. destruct s as [|c s]; [intros [= <- <-]; contradiction|].
  cbn [String.append].
  destruct (Ascii.eqb c "e" || Ascii.eqb c "E"); [|now intros [= <- <-]].
  destruct s as [|c' s']; [discriminate|]. cbn [String.append].
  destruct (Ascii.eqb c' "+" || Ascii.eqb c' "-").
  - destruct (span_digits s') as [ds r2] eqn:E.
    destruct ds as [|d ds]; [destruct r2; unfold invalid_char; discriminate|].
    intros [= <- <-] Hr. now rewrite (span_digits_app _ _ _ t E Hr).
  - destruct (span_digits (String c' s')) as [ds r2] eqn:E.
    destruct ds as [|d ds]; [destruct r2; unfold invalid_char; discriminate|].
    intros [= <- <-] Hr.
    change (String c' (s' +:+ t)) with (String c' s' +:+ t).
    now rewrite (span_digits_app _ _ _ t E Hr).
Qed.

Lemma scan_exp_rest (lit s l r : string) :
  scan_exp lit s = Parsed l r -> r <> "" -> s <> "".
Proof.
  intros H Hr ->. apply scan_exp_eq in H as (x & _ & Hx).
  destruct x, r; try discriminate. contradiction.
Qed.

Lemma scan_frac_rest (lit s l r : string) :
  scan_frac lit s = Parsed l r -> r <> "" -> s <> "".
Proof.
  intros H Hr ->. apply scan_frac_eq in H as (x & _ & Hx).
  destruct x, r; try discriminate. contradiction.
Qed.

Lemma scan_frac_app (lit s l r t : string) :
  scan_frac lit s = Parsed l r -> r <> "" -> scan_frac lit (s +:+ t) = Parsed l (r +:+ t).
Proof.
  intros H Hr. pose proof (scan_frac_rest _ _ _ _ H Hr) as Hs.
  destruct s as [|c s]; [contradiction|].
  unfold scan_frac in H |- *. cbn [String.append].
  destruct (Ascii.eqb c "."); [|exact (scan_exp_app lit (String c s) l r t H Hr)].
  destruct (span_digits s) as [ds r'] eqn:E.
  destruct ds as [|d ds]; [destruct r'; unfold invalid_char in H; discriminate|].
  rewrite (span_digits_app _ _ _ t E (scan_exp_rest _ _ _ _ H Hr)).
  now apply scan_exp_app.
Qed.

Lemma scan_number_app (s l r t : string) :
  scan_number s = Parsed l r -> r <> "" -> scan_number (s +:+ t) = Parsed l (r +:+ t).
Proof.
  unfold scan_number. destruct s as [|c s]; [discriminate|]. cbn [String.append].
  destruct (Ascii.eqb c "-").
  - destruct s as [|c1 s1]; [discriminate|]. cbn [String.append].
    destruct (Ascii.eqb c1 "0"); [apply scan_frac_app|].
    destruct (isDigit c1); [|unfold invalid_char; discriminate].
    destruct (span_digits s1) as [ds r'] eqn:E. intros H Hr.
    rewrite (span_digits_app _ _ _ t E (scan_frac_rest _ _ _ _ H Hr)).
    now apply scan_frac_app.
  - destruct (Ascii.eqb c "0"); [apply scan_frac_app|].
    destruct (isDigit c); [|unfold invalid_char; discriminate].
    destruct (span_digits s) as [ds r'] eqn:E. intros H Hr.
    rewrite (span_digits_app _ _ _ t E (scan_frac_rest _ _ _ _ H Hr)).
    now apply scan_frac_app.
Qed.

Lemma scan_lit_app (name expect s r t : string) (u : unit) :
  scan_lit name expect s = Parsed u r -> scan_lit name expect (s +:+ t) = Parsed u (r +:+ t).
Proof.
  revert s. induction expect as [|e expect IH]; simpl; intros s.
  - now intros [= <- <-].
  - destruct s as [|c s]; [discriminate|]. simpl.
    destruct (Ascii.eqb c e); [apply IH|unfold invalid_char; discriminate].
Qed.

Lemma scan_string_app (s raw r t : string) :
  scan_string s = Parsed raw r -> scan_string (s +:+ t) = Parsed raw (r +:+ t).
Proof.
  revert raw r. induction s as [s IH] using string_len_ind. intros raw r.
  destruct s as [|c s]; [discriminate|]. simpl.
  destruct (Ascii.eqb c dquote); [now intros [= <- <-]|].
  destruct (Ascii.eqb c "\").
  - destruct s as [|e s1]; [discriminate|]. simpl.
    destruct (isShortEscape e).
    { intros (raw' & H & ->)%cons_raw_Parsed. rewrite (IH s1 ltac:(simpl; lia) _ _ H).
      reflexivity. }
    destruct (Ascii.eqb e "u"); [|unfold invalid_char; discriminate].
    destruct s1 as [|h1 [|h2 [|h3 [|h4 r2]]]];
      try (destruct (all_hex _); [discriminate|intros H; now apply escU_error_not_Parsed in H]).
    simpl. destruct (_ && _); [|intros H; now apply escU_error_not_Parsed in H].
    intros (raw' & H & ->)%cons_raw_Parsed. rewrite (IH r2 ltac:(simpl; lia) _ _ H).
    reflexivity.
  - destruct (byte_val c <? 32); [unfold invalid_char; discriminate|].
    intros (raw' & H & ->)%cons_raw_Parsed. rewrite (IH s ltac:(simpl; lia) _ _ H).
    reflexivity.
Qed.

(** Bytes appended to the input stay behind the item scanned, unless the
    item is a number that ends with the input (more digits could then
    continue it). *)
Lemma scan_app (fuel : nat) (t : string) :
  (forall d s v r, scan_value fuel d s = Parsed v r -> r <> "" \/ is_Num v = false ->
                   scan_value fuel d (s +:+ t) = Parsed v (r +:+ t))
  /\ (forall d s vs r, scan_elems fuel d s = Parsed vs r ->
                       scan_elems fuel d (s +:+ t) = Parsed vs (r +:+ t))
  /\ (forall d s ms r, scan_members fuel d s = Parsed ms r ->
                       scan_members fuel d (s +:+ t) = Parsed ms (r +:+ t)).
Proof.
  induction fuel as [|fuel (IHv & IHe & IHm)]; [repeat split; discriminate|].
  split; [|split].
  - intros d s v r H Hv. rewrite scan_value_S in H |- *.
    destruct (skip_space s) as [|c r0] eqn:E; [discriminate|].
    rewrite (skip_space_app _ t _ _ E).
    repeat match goal with
    | H : (if ?b then _ else _) = Parsed _ _ |- _ => destruct b eqn:?
    | H : invalid_char _ _ = Parsed _ _ |- _ => discriminate H
    end.
    + destruct (skip_space r0) as [|c' r'] eqn:E'; [discriminate|].
      rewrite (skip_space_app _ t _ _ E').
      destruct (Ascii.eqb c' "}"); [now injection H as <- <-|].
      apply bind_scanned_Parsed in H as (ms & r1 & H & [= <- <-]).
      change (String c' (r' +:+ t)) with (String c' r' +:+ t).
      now rewrite (IHm _ _ _ _ H).
    + destruct (skip_space r0) as [|c' r'] eqn:E'; [discriminate|].
      rewrite (skip_space_app _ t _ _ E').
      destruct (Ascii.eqb c' "]"); [now injection H as <- <-|].
      apply bind_scanned_Parsed in H as (vs & r1 & H & [= <- <-]).
      change (String c' (r' +:+ t)) with (String c' r' +:+ t).
      now rewrite (IHe _ _ _ _ H).
    + apply bind_scanned_Parsed in H as (raw & r1 & H & Hu).
      rewrite (scan_string_app _ _ _ t H). cbn [bind_scanned].
      destruct (unquote raw); [now injection Hu as <- <-|discriminate].
    + apply bind_scanned_Parsed in H as (lit & r1 & H & [= <- <-]).
      destruct Hv as [Hv|Hv]; [|discriminate].
      change (String c (r0 +:+ t)) with (String c r0 +:+ t).
      now rewrite (scan_number_app _ _ _ t H Hv).
    + apply bind_scanned_Parsed in H as (u & r1 & H & [= <- <-]).
      now rewrite (scan_lit_app _ _ _ _ t _ H).
    + apply bind_scanned_Parsed in H as (u & r1 & H & [= <- <-]).
      now rewrite (scan_lit_app _ _ _ _ t _ H).
    + apply bind_scanned_Parsed in H as (u & r1 & H & [= <- <-]).
      now rewrite (scan_lit_app _ _ _ _ t _ H).
  - intros d s vs r H. rewrite scan_elems_S in H |- *.
    apply bind_scanned_Parsed in H as (v & r1 & Hval & H).
    destruct (skip_space r1) as [|c r'] eqn:E; [discriminate|].
    assert (Hr1 : r1 <> "") by (intros ->; discriminate).
    rewrite (IHv _ _ _ _ Hval (or_introl Hr1)). cbn [bind_scanned].
    rewrite (skip_space_app _ t _ _ E).
    destruct (Ascii.eqb c ",").
    + apply bind_scanned_Parsed in H as (vs' & r2 & H & [= <- <-]).
      now rewrite (IHe _ _ _ _ H).
    + destruct (Ascii.eqb c "]"); [now injection H as <- <-|discriminate].
  - intros d s ms r H. rewrite scan_members_S in H |- *.
    destruct (skip_space s) as [|c r0] eqn:E; [discriminate|].
    rewrite (skip_space_app _ t _ _ E).
    destruct (Ascii.eqb c dquote); [|discriminate].
    apply bind_scanned_Parsed in H as (raw & r1 & Hs & H).
    rewrite (scan_string_app _ _ _ t Hs). cbn [bind_scanned].
    destruct (unquote raw) as [key|]; [|discriminate].
    destruct (skip_space r1) as [|c1 r2] eqn:E1; [discriminate|].
    rewrite (skip_space_app _ t _ _ E1).
    destruct (Ascii.eqb c1 ":"); [|discriminate].
    apply bind_scanned_Parsed in H as (v & r3 & Hval & H).
    destruct (skip_space r3) as [|c3 r4] eqn:E3; [discriminate|].
    assert (Hr3 : r3 <> "") by (intros ->; discriminate).
    rewrite (IHv _ _ _ _ Hval (or_introl Hr3)). cbn [bind_scanned].
    rewrite (skip_space_app _ t _ _ E3).
    destruct (Ascii.eqb c3 ",").
    + apply bind_scanned_Parsed in H as (ms' & r5 & H & [= <- <-]).
      now rewrite (IHm _ _ _ _ H).
    + destruct (Ascii.eqb c3 "}"); [now injection H as <- <-|discriminate].
Qed.

Lemma scan_append (j t : string) (v : value) (rest : string) :
  scan j = Parsed v rest -> rest <> "" \/ is_Num v = false ->
  scan (j +:+ t) = Parsed v (rest +:+ t).
Proof.
  intros H Hv. apply (scan_value_scan (S (2 * len j))); [|discriminate].
  now apply (proj1 (scan_app _ t)).
Qed.

(** ** Decoding from a stream and decoding a buffer *)

Lemma Unmarshal_Ok (t : gotype) (data : string) (old r : denote t) :
  Unmarshal t data old = Ok r ->
  exists v rest, scan data = Parsed v rest /\ skip_space rest = "" /\ fromJSON t v old = Ok r.
Proof.
  unfold Unmarshal, checkValid.
  destruct (scan data) as [v rest| | |]; try discriminate.
  destruct (skip_space rest) eqn:E; [|discriminate].
  intros H. now exists v, rest.
Qed.

Lemma fromJSON_struct_value (T : gotype) (v : value) (old r : denote T) :
  is_struct T = true -> fromJSON T v old = Ok r -> is_Num v = false.
Proof.
  destruct T; try discriminate. intros _.
  destruct v; try reflexivity. discriminate.
Qed.

Lemma nonSpace_skip (t : string) :
  nonSpace t = true -> exists c r, skip_space t = String c r.
Proof.
  induction t as [|c t IH]; simpl; [discriminate|].
  destruct (isSpace c); simpl; [exact IH|]. intros _. now eexists _, _.
Qed.

(** A decoder on a stream takes the first value and leaves what follows
    it: bytes after a complete record do not matter, nor does the way the
    stream ends. *)
Lemma Decode_trailing (T : gotype) (j t : string) (e : option error) (old r : denote T) :
  is_struct T = true ->
  Unmarshal T j old = Ok r -> t <> "" ->
  Decode T {| io.data := j +:+ t; io.err := e |} old = Ok r.
Proof.
  intros HT (v & rest & Hs & _ & Hv)%Unmarshal_Ok Ht.
  pose proof (fromJSON_struct_value _ _ _ _ HT Hv) as Hn.
  unfold Decode, readValue. cbn [io.data io.err].
  rewrite (scan_append _ t _ _ Hs (or_intror Hn)).
  assert (Hrt : exists c x, rest +:+ t = String c x).
  { destruct rest; simpl; [|now eexists _, _]. destruct t; [contradiction|now eexists _, _]. }
  destruct Hrt as (c & x & ->).
  destruct v; try discriminate; cbn [mbind result_bind]; exact Hv.
Qed.

(** [Unmarshal] takes the whole buffer: white space after the value is
    passed over, the first byte that is none is a syntax error. *)
Lemma Unmarshal_trailing (T : gotype) (j t : string) (old r : denote T) :
  is_struct T = true ->
  Unmarshal T j old = Ok r ->
  Unmarshal T (j +:+ t) old
  = match skip_space t with
    | EmptyString => Ok r
    | String c _ =>
        Err (SyntaxError ("invalid character " +:+ quoteChar c +:+ " after top-level value"))
    end.
Proof.
  intros HT (v & rest & Hs & Hsp & Hv)%Unmarshal_Ok.
  pose proof (fromJSON_struct_value _ _ _ _ HT Hv) as Hn.
  unfold Unmarshal, checkValid.
  rewrite (scan_append _ t _ _ Hs (or_intror Hn)), (skip_space_all _ _ Hsp).
  destruct (skip_space t); [exact Hv|reflexivity].
Qed.

(** Referenced by C10 as its counterexample.  The body is the record [{}]
    followed by one trailing byte, a space: [Assemble] decodes it like the
    record alone and reports no error. *)
Lemma Assemble_accepts_trailing_space :
  exists (r : denote odos.AssembleResponse) (σ' : state odos.OdosClient),
    Unmarshal odos.AssembleResponse "{}" (zero odos.AssembleResponse) = Ok r
    /\ run (@odos.Assemble sample.exact_decimal sample.accept_all 1%positive
              "0x163A5EC5e9C32238d075E2D829fE9fA87451e3b7" "9c2294c5e076d888e149c764f832738b"
              true)
         (sample.server 200 ("{}" +:+ " ") None) sample.odos_store
       = Returns (Some r, None) σ'.
Proof. eexists _, _. split; vm_compute; reflexivity. Qed.

(** C10 (amended).  Take a body that is one valid JSON value of the
    expected schema followed by trailing bytes [t], in a response of status
    200.  [Assemble], which unmarshals the buffered body, goes by what is
    left of [t] after its leading white space ([skip_space t]): if nothing
    is left (the trailing bytes are white space only) it succeeds with the
    record that the value alone decodes to; otherwise it returns a decode
    error, the syntax error about the first byte that is no white space,
    quoted as the scanner quotes it.  [GetTokenPrice], [Quote], [GetRoutes]
    and [BuildRoute], which decode from the stream, succeed with the record
    that the value alone decodes to, whatever the trailing bytes are and
    however the stream ends. *)
Theorem decode_strictness `{!strconv.FloatFormat, !url.Parser}
    (j t : string) (e : option error) :
  t <> "" ->
  let whole := {| http.Response.StatusCode := 200;
                  http.Response.Body := {| io.data := j +:+ t; io.err := None |} |} in
  let stream := {| http.Response.StatusCode := 200;
                   http.Response.Body := {| io.data := j +:+ t; io.err := e |} |} in
  (forall (w : World) (σ : state odos.OdosClient) (c : loc) (this : odos.OdosClient)
          (hc : http.Client),
      clients σ !! c = Some this ->
      httpClients σ !! odos.httpClient this = Some hc ->
      (forall userAddr pathId isSimulate jsonData r,
          let url := fmt.Sprintf "%s/sor/assemble" [fmt.S_ (odos.baseURL this)] in
          let rq := odos.set_headers (request "POST" url (Some jsonData)) in
          Unmarshal odos.AssembleResponse j (zero odos.AssembleResponse) = Ok r ->
          Marshal odos.AssembleRequest (odos.mkAssembleRequest userAddr pathId isSimulate)
            = Ok jsonData ->
          url.ParseError url = None ->
          RoundTrip w hc rq = Ok whole ->
          run (odos.Assemble c userAddr pathId isSimulate) w σ =
          Returns
            match skip_space t with
            | EmptyString => (Some r, None)
            | String ch _ =>
                (None,
                 Some (fmt.Errorf "failed to decode response: %w"
                         [fmt.W_ (SyntaxError ("invalid character " +:+ quoteChar ch
                                                 +:+ " after top-level value"))]))
            end
            (log σ rq))
      /\ (forall chainID tokenAddr r,
          let url := fmt.Sprintf "%s/pricing/token/%s/%s"
                       [fmt.S_ (odos.baseURL this); fmt.S_ chainID; fmt.S_ tokenAddr] in
          Unmarshal odos.PriceResponse j (zero odos.PriceResponse) = Ok r ->
          url.ParseError url = None ->
          RoundTrip w hc (request "GET" url None) = Ok stream ->
          run (odos.GetTokenPrice c chainID tokenAddr) w σ =
          Returns (Some r, None) (log σ (request "GET" url None)))
      /\ (forall req jsonData r,
          let url := fmt.Sprintf "%s/sor/quote/v2" [fmt.S_ (odos.baseURL this)] in
          let rq := odos.set_headers (request "POST" url (Some jsonData)) in
          Unmarshal odos.QuoteResponse j (zero odos.QuoteResponse) = Ok r ->
          Marshal (TPtr odos.QuoteRequest) req = Ok jsonData ->
          url.ParseError url = None ->
          RoundTrip w hc rq = Ok stream ->
          run (odos.Quote c req) w σ = Returns (Some r, None) (log σ rq)))
  /\ (forall (w : World) (σ : state kyberswap.KyberSwapClient) (c : loc)
             (this : kyberswap.KyberSwapClient) (hc : http.Client),
      clients σ !! c = Some this ->
      httpClients σ !! kyberswap.httpClient this = Some hc ->
      (forall tokenIn tokenOut amountIn r,
          let url := fmt.Sprintf "%s/api/v1/routes?tokenIn=%s&tokenOut=%s&amountIn=%s"
                       [fmt.S_ (kyberswap.baseURL this); fmt.S_ tokenIn; fmt.S_ tokenOut;
                        fmt.S_ amountIn] in
          Unmarshal kyberswap.RouteResponse j (zero kyberswap.RouteResponse) = Ok r ->
          url.ParseError url = None ->
          RoundTrip w hc (request "GET" url None) = Ok stream ->
          run (kyberswap.GetRoutes c tokenIn tokenOut amountIn) w σ =
          Returns (Some r, None) (log σ (request "GET" url None)))
      /\ (forall routeSummary sender recipient jsonBody r,
          let url := fmt.Sprintf "%s/api/v1/route/build" [fmt.S_ (kyberswap.baseURL this)] in
          let rq := http.Request.with_header (request "POST" url (Some jsonBody))
                      "Content-Type" "application/json" in
          Unmarshal kyberswap.BuildRouteResponse j (zero kyberswap.BuildRouteResponse) = Ok r ->
          Marshal kyberswap.BuildRouteRequest
            (kyberswap.mkBuildRouteRequest routeSummary sender recipient
               (wrap64 (UnixNow w + 20 * 3600)) 10) = Ok jsonBody ->
          url.ParseError url = None ->
          RoundTrip w hc rq = Ok stream ->
          run (kyberswap.BuildRoute c routeSummary sender recipient) w σ =
          Returns (Some r, None) (log σ rq))).
Proof.
  intros Hne whole stream.
  split.
  - intros w σ c this hc Hc Hp. split; [|split].
    + intros userAddr pathId isSimulate jsonData r url rq HU HM Hurl Hrt.
      pose proof (Unmarshal_trailing odos.AssembleResponse j t _ _ eq_refl HU) as Hch.
      rewrite (Assemble_run w σ c this hc Hc Hp), HM. cbv zeta. fold url.
      rewrite Hurl. fold rq. rewrite Hrt. subst whole.
      cbn [http.Response.Body http.Response.StatusCode io.err io.data].
      change (negb (200 =? http.StatusOK)) with false. cbv iota.
      rewrite Hch. now destruct (skip_space t).
    + intros chainID tokenAddr r url HU Hurl Hrt.
      rewrite (GetTokenPrice_run w σ c this hc Hc Hp). cbv zeta. fold url.
      rewrite Hurl, Hrt. subst stream. cbn [http.Response.Body].
      now rewrite (Decode_trailing odos.PriceResponse j t e _ _ eq_refl HU Hne).
    + intros req jsonData r url rq HU HM Hurl Hrt.
      rewrite (Quote_run w σ c this hc Hc Hp), HM. cbv zeta. fold url.
      rewrite Hurl. fold rq. rewrite Hrt. subst stream. cbn [http.Response.Body].
      now rewrite (Decode_trailing odos.QuoteResponse j t e _ _ eq_refl HU Hne).
  - intros w σ c this hc Hc Hp. split.
    + intros tokenIn tokenOut amountIn r url HU Hurl Hrt.
      rewrite (GetRoutes_run w σ c this hc Hc Hp). cbv zeta. fold url.
      rewrite Hurl, Hrt. subst stream. cbn [http.Response.Body http.Response.StatusCode].
      change (negb (200 =? http.StatusOK)) with false. cbv iota.
      now rewrite (Decode_trailing kyberswap.RouteResponse j t e _ _ eq_refl HU Hne).
    + intros routeSummary sender recipient jsonBody r url rq HU HM Hurl Hrt.
      rewrite (BuildRoute_run w σ c this hc Hc Hp). cbv zeta. rewrite HM. fold url.
      rewrite Hurl. fold rq. rewrite Hrt. subst stream.
      cbn [http.Response.Body http.Response.StatusCode].
      change (negb (200 =? http.StatusOK)) with false. cbv iota.
      now rewrite (Decode_trailing kyberswap.BuildRouteResponse j t e _ _ eq_refl HU Hne).
Qed.

(** The record [{}] followed by a line feed and a backslash: [Assemble]
    fails with the error about the backslash, [GetTokenPrice] returns the
    zero record.  The record followed by a tab and a line feed: both
    return the zero record. *)
Lemma decode_strictness_witness :
  (run (@odos.Assemble sample.exact_decimal sample.accept_all 1%positive "0x163A" "9c22" true)
     (sample.server 200 ("{}" +:+ String "010" "\") None) sample.odos_store
   = Returns (None,
              Some (fmt.Errorf "failed to decode response: %w"
                      [fmt.W_ (SyntaxError "invalid character '\\' after top-level value")]))
       (log sample.odos_store
          (odos.set_headers
             (request "POST" "https://api.odos.xyz/sor/assemble"
                (Some (print (Obj [("userAddr", Str "0x163A"); ("pathId", Str "9c22");
                                   ("simulate", Bool true)])))))))
  /\ run (@odos.GetTokenPrice sample.accept_all 1%positive "1" "0x6B17")
       (sample.server 200 ("{}" +:+ String "010" "\") None) sample.odos_store
     = Returns (Some (zero odos.PriceResponse), None)
         (log sample.odos_store
            (request "GET" "https://api.odos.xyz/pricing/token/1/0x6B17" None))
  /\ run (@odos.Assemble sample.exact_decimal sample.accept_all 1%positive "0x163A" "9c22" true)
       (sample.server 200 ("{}" +:+ String "009" (String "010" "")) None) sample.odos_store
     = Returns (Some (zero odos.AssembleResponse), None)
         (log sample.odos_store
            (odos.set_headers
               (request "POST" "https://api.odos.xyz/sor/assemble"
                  (Some (print (Obj [("userAddr", Str "0x163A"); ("pathId", Str "9c22");
                                     ("simulate", Bool true)]))))))
  /\ run (@odos.GetTokenPrice sample.accept_all 1%positive "1" "0x6B17")
       (sample.server 200 ("{}" +:+ String "009" (String "010" "")) None) sample.odos_store
     = Returns (Some (zero odos.PriceResponse), None)
         (log sample.odos_store
            (request "GET" "https://api.odos.xyz/pricing/token/1/0x6B17" None)).
Proof.
  destruct (@decode_strictness sample.exact_decimal sample.accept_all "{}"
              (String "010" "\") None ltac:(discriminate)) as [Hodos _].
  destruct (Hodos (sample.server 200 ("{}" +:+ String "010" "\") None) sample.odos_store
              1%positive {| odos.httpClient := 1%positive; odos.baseURL := odos._baseURL |}
              {| http.Timeout := 10 * time.Second |} eq_refl eq_refl) as (HA & HP & _).
  destruct (@decode_strictness sample.exact_decimal sample.accept_all "{}"
              (String "009" (String "010" "")) None ltac:(discriminate)) as [Hodos' _].
  destruct (Hodos' (sample.server 200 ("{}" +:+ String "009" (String "010" "")) None)
              sample.odos_store 1%positive
              {| odos.httpClient := 1%positive; odos.baseURL := odos._baseURL |}
              {| http.Timeout := 10 * time.Second |} eq_refl eq_refl) as (HA' & HP' & _).
  split; [|split; [|split]].
  - exact (HA "0x163A" "9c22" true _ (zero odos.AssembleResponse)
             eq_refl eq_refl eq_refl eq_refl).
  - exact (HP "1" "0x6B17" (zero odos.PriceResponse) eq_refl eq_refl eq_refl).
  - exact (HA' "0x163A" "9c22" true _ (zero odos.AssembleResponse)
             eq_refl eq_refl eq_refl eq_refl).
  - exact (HP' "1" "0x6B17" (zero odos.PriceResponse) eq_refl eq_refl eq_refl).
Defined.

(** ** UTF-8 *)

Lemma byte_of_val (c : ascii) : byte_of (byte_val c) = c.
Proof. unfold byte_of, byte_val. rewrite N2Z.id. apply ascii_N_embedding. Qed.

Lemma byte_val_range (c : ascii) : 0 <= byte_val c < 256.
Proof.
  unfold byte_val. pose proof (N_ascii_bounded c) as H. lia.
Qed.

Lemma forall_range_sound (lo hi : Z) (P : Z -> bool) :
  utf8.forall_range lo hi P = true -> forall z, lo <= z <= hi -> P z = true.
Proof.
  unfold utf8.forall_range. rewrite forallb_forall. intros H z Hz.
  apply H, list_elem_of_In, elem_of_seqZ. lia.
Qed.

(** Checked by running through every sequence of two and three bytes
    that [DecodeRune] accepts, and the first three bytes of every sequence
    of four. *)
Lemma encodes_back_all : utf8.forall_range 0x80 0xFF utf8.encodes_back = true.
Proof. vm_cast_no_check (@eq_refl bool true). Qed.

Lemma continuation_back_all :
  utf8.forall_range utf8.locb utf8.hicb utf8.continuation_back = true.
Proof. vm_compute. reflexivity. Qed.

Lemma rune4_high4 (p0 b1 b2 b3 : Z) :
  utf8.rune4 p0 b1 b2 b3
  = Z.lor (Z.shiftl (utf8.high4 p0 b1 b2) 6) (Z.land b3 utf8.maskx).
Proof.
  unfold utf8.rune4, utf8.high4. rewrite !Z.shiftl_lor, !Z.shiftl_shiftl by lia.
  reflexivity.
Qed.

(** A rune of four bytes is written as the three bytes of its high bits
    and the byte of its low six. *)
Lemma EncodeRune_four (h l : Z) :
  0x400 <= h <= 0x43FF -> 0 <= l < 64 ->
  utf8.EncodeRune (Z.lor (Z.shiftl h 6) l)
  = utf8.encode4 h (String (byte_of (Z.lor utf8.tx l)) "").
Proof.
  intros Hh Hl. set (r := Z.lor (Z.shiftl h 6) l).
  assert (Hs : Z.shiftr r 6 = h).
  { unfold r. rewrite Z.shiftr_lor, Z.shiftr_shiftl_l by lia.
    rewrite (Z.shiftr_div_pow2 l 6) by lia. rewrite Z.div_small by (simpl; lia).
    change (6 - 6) with 0. now rewrite Z.shiftl_0_r, Z.lor_0_r. }
  assert (Hm : Z.land r 63 = l).
  { unfold r. rewrite Z.land_lor_distr_l. change 63 with (Z.ones 6).
    rewrite !Z.land_ones by lia. rewrite Z.shiftl_mul_pow2 by lia.
    rewrite Z.mod_mul by (simpl; lia). rewrite Z.mod_small by (simpl; lia). reflexivity. }
  assert (Hr : 0x10000 <= r <= 0x10FFFF).
  { pose proof (Z.shiftr_div_pow2 r 6 ltac:(lia)) as Hd. rewrite Hs in Hd.
    change (2 ^ 6) with 64 in Hd. pose proof (Z.div_mod r 64 ltac:(lia)) as E.
    pose proof (Z.mod_pos_bound r 64 ltac:(lia)) as B. lia. }
  unfold utf8.EncodeRune, utf8.encode4. cbv zeta.
  rewrite (Z.mod_small r (2 ^ 32)) by (simpl; lia).
  unfold utf8.rune1Max, utf8.rune2Max, utf8.rune3Max, utf8.MaxRune, utf8.surrogateMin,
    utf8.surrogateMax.
  destruct (r <=? 127) eqn:E1; [lia|]. destruct (r <=? 2047) eqn:E2; [lia|].
  destruct (1114111 <? r) eqn:E3; [lia|]. destruct (55296 <=? r) eqn:E4; [|lia].
  destruct (r <=? 57343) eqn:E5; [lia|]. cbn [orb andb].
  destruct (r <=? 65535) eqn:E6; [lia|].
  assert (H18 : Z.shiftr r 18 = Z.shiftr h 12).
  { rewrite <- Hs. rewrite Z.shiftr_shiftr by lia. reflexivity. }
  assert (H12 : Z.shiftr r 12 = Z.shiftr h 6).
  { rewrite <- Hs. rewrite Z.shiftr_shiftr by lia. reflexivity. }
  assert (H0 : Z.land (utf8.byte r) utf8.maskx = l).
  { unfold utf8.byte, utf8.maskx. rewrite <- Z.land_assoc. exact Hm. }
  now rewrite H18, H12, Hs, H0.
Qed.

Lemma first_range (p0 : Z) (sz : nat) (lo hi : Z) :
  utf8.first p0 = Some (sz, lo, hi) ->
  0xC2 <= p0 <= 0xF4 /\ 0x80 <= lo /\ hi <= 0xBF /\ (2 <= sz <= 4)%nat.
Proof.
  unfold utf8.first, utf8.locb, utf8.hicb.
  repeat match goal with
  | |- context [if ?b then _ else _] => destruct b eqn:?
  end; intros [= <- <- <-]; lia.
Qed.

(** What a well-formed multi-byte sequence at the head of [s] is like. *)
Lemma DecodeRune_multibyte (c : ascii) (s' : string) (r : Z) (size : nat) :
  utf8.DecodeRune (String c s') = (r, size) ->
  (r =? utf8.RuneError) && (size =? 1)%nat = false ->
  utf8.RuneSelf <= byte_val c ->
  exists pre : string,
    String c s' = pre +:+ drop_bytes size (String c s')
    /\ len pre = size
    /\ (2 <= size)%nat
    /\ utf8.EncodeRune r = pre
    /\ utf8.high pre = true
    /\ forall x, utf8.DecodeRune (pre +:+ x) = (r, size)
    /\ drop_bytes size (pre +:+ x) = x.
Proof.
  intros HD Hok Hc.
  pose proof (byte_val_range c) as Rc.
  pose proof (forall_range_sound _ _ _ encodes_back_all (byte_val c)
                ltac:(unfold utf8.RuneSelf in Hc; lia)) as HB.
  unfold utf8.encodes_back in HB. unfold utf8.DecodeRune in HD.
  destruct (byte_val c <? utf8.RuneSelf) eqn:E0; [lia|].
  destruct (utf8.first (byte_val c)) as [[[sz lo] hi]|] eqn:F;
    [|injection HD as <- <-; discriminate].
  pose proof (first_range _ _ _ _ F) as (Rp & Rlo & Rhi & Rsz).
  destruct s' as [|c1 s2]; [injection HD as <- <-; discriminate|].
  pose proof (byte_val_range c1) as R1.
  destruct ((byte_val c1 <? lo) || (hi <? byte_val c1)) eqn:E1;
    [injection HD as <- <-; discriminate|].
  apply orb_false_iff in E1 as [E1a E1b].
  pose proof (forall_range_sound _ _ _ HB (byte_val c1) ltac:(lia)) as HB1. cbv beta in HB1.
  destruct (sz <=? 2)%nat eqn:S2.
  { injection HD as <- <-. apply String.eqb_eq in HB1. rewrite !byte_of_val in HB1.
    exists (String c (String c1 "")). fold (utf8.rune2 (byte_val c) (byte_val c1)).
    split; [reflexivity|]. split; [reflexivity|]. split; [lia|]. split; [exact HB1|].
    split. { simpl. unfold utf8.RuneSelf. rewrite !andb_true_r.
             apply andb_true_intro; split; apply Z.leb_le; lia. }
    intros x. split; [|reflexivity].
    unfold utf8.DecodeRune. cbn [String.append]. rewrite E0, F, E1a, E1b, S2. reflexivity. }
  destruct s2 as [|c2 s3]; [injection HD as <- <-; discriminate|].
  pose proof (byte_val_range c2) as R2.
  destruct ((byte_val c2 <? utf8.locb) || (utf8.hicb <? byte_val c2)) eqn:E2;
    [injection HD as <- <-; discriminate|].
  pose proof E2 as E2'. apply orb_false_iff in E2' as [E2a E2b].
  unfold utf8.locb, utf8.hicb in E2a, E2b.
  pose proof (forall_range_sound _ _ _ HB1 (byte_val c2)
                ltac:(unfold utf8.locb, utf8.hicb; lia)) as HB2. cbv beta in HB2.
  destruct (sz <=? 3)%nat eqn:S3.
  { injection HD as <- <-. apply String.eqb_eq in HB2. rewrite !byte_of_val in HB2.
    exists (String c (String c1 (String c2 ""))).
    fold (utf8.rune3 (byte_val c) (byte_val c1) (byte_val c2)).
    split; [reflexivity|]. split; [reflexivity|]. split; [lia|]. split; [exact HB2|].
    split. { simpl. unfold utf8.RuneSelf. rewrite !andb_true_r.
             repeat (apply andb_true_intro; split); apply Z.leb_le; lia. }
    intros x. split; [|reflexivity].
    unfold utf8.DecodeRune. cbn [String.append].
    rewrite E0, F, E1a, E1b, S2, E2, S3. reflexivity. }
  destruct s3 as [|c3 s4]; [injection HD as <- <-; discriminate|].
  pose proof (byte_val_range c3) as R3.
  destruct ((byte_val c3 <? utf8.locb) || (utf8.hicb <? byte_val c3)) eqn:E3;
    [injection HD as <- <-; discriminate|].
  pose proof E3 as E3'. apply orb_false_iff in E3' as [E3a E3b].
  unfold utf8.locb, utf8.hicb in E3a, E3b.
  cbv zeta in HB2.
  apply andb_true_iff in HB2 as [[Hlo%Z.leb_le Hhi%Z.leb_le]%andb_true_iff HB3].
  apply String.eqb_eq in HB3. rewrite !byte_of_val in HB3.
  pose proof (forall_range_sound _ _ _ continuation_back_all (byte_val c3)
                ltac:(unfold utf8.locb, utf8.hicb; lia)) as HC%Z.eqb_eq.
  assert (HE : utf8.EncodeRune (utf8.rune4 (byte_val c) (byte_val c1) (byte_val c2)
                                  (byte_val c3))
               = String c (String c1 (String c2 (String c3 "")))).
  { rewrite rune4_high4, EncodeRune_four.
    - rewrite HC, byte_of_val. unfold utf8.encode4 in HB3 |- *.
      injection HB3 as -> -> ->. reflexivity.
    - lia.
    - unfold utf8.maskx. change 63 with (Z.ones 6). rewrite Z.land_ones by lia.
      apply Z.mod_pos_bound. reflexivity. }
  injection HD as <- <-.
  exists (String c (String c1 (String c2 (String c3 "")))).
  fold (utf8.rune4 (byte_val c) (byte_val c1) (byte_val c2) (byte_val c3)).
  split; [reflexivity|]. split; [reflexivity|]. split; [lia|]. split; [exact HE|].
  split. { simpl. unfold utf8.RuneSelf. rewrite !andb_true_r.
           repeat (apply andb_true_intro; split); apply Z.leb_le; lia. }
  intros x. split; [|reflexivity].
  unfold utf8.DecodeRune. cbn [String.append].
  rewrite E0, F, E1a, E1b, S2, E2, S3, E3. reflexivity.
Qed.

Lemma valid_loop_Valid (fuel : nat) (s : string) :
  utf8.valid_loop fuel s = true -> utf8.Valid s.
Proof.
  revert s. induction fuel as [|fuel IH]; intros s; simpl.
  - destruct s; [constructor|discriminate].
  - destruct s as [|c s']; [constructor|].
    destruct (utf8.DecodeRune (String c s')) as [r size] eqn:D.
    destruct ((r =? utf8.RuneError) && (size =? 1)%nat) eqn:E; [discriminate|].
    intros H. eapply utf8.Valid_rune; eauto.
Qed.

Lemma ValidString_Valid (s : string) : utf8.ValidString s = true -> utf8.Valid s.
Proof. apply valid_loop_Valid. Qed.

(** ** Strings: what the encoder writes, the scanner delimits and
    [unquote] reads back *)

Lemma take_bytes_app (pre x : string) : take_bytes (len pre) (pre +:+ x) = pre.
Proof. induction pre as [|c pre IH]; simpl; [now destruct x|now rewrite IH]. Qed.

(** An ASCII byte, written as it is or escaped, is one step of the scanner
    and one step of [unquote]. *)
Lemma scan_string_ascii (c : ascii) (X raw rest : string) :
  (byte_val c <? utf8.RuneSelf) = true ->
  scan_string X = Parsed raw rest ->
  scan_string ((if htmlSafe (byte_val c) then String c "" else escape_ascii c) +:+ X)
  = Parsed ((if htmlSafe (byte_val c) then String c "" else escape_ascii c) +:+ raw) rest.
Proof.
  intros Hc HX.
  destruct c as [[] [] [] [] [] [] [] []]; try discriminate Hc;
    simpl; rewrite HX; reflexivity.
Qed.

Lemma unquote_loop_ascii (c : ascii) (fuel : nat) (X : string) :
  (byte_val c <? utf8.RuneSelf) = true ->
  unquote_loop (S fuel) ((if htmlSafe (byte_val c) then String c "" else escape_ascii c) +:+ X)
  = prepend (String c "") (unquote_loop fuel X).
Proof.
  intros Hc.
  destruct c as [[] [] [] [] [] [] [] []]; try discriminate Hc; reflexivity.
Qed.

Lemma len_ascii_piece (c : ascii) :
  (1 <= len (if htmlSafe (byte_val c) then String c "" else escape_ascii c))%nat.
Proof.
  destruct (htmlSafe _); simpl; [lia|]. unfold escape_ascii.
  repeat match goal with |- context [if ?b then _ else _] => destruct b end; simpl; lia.
Qed.

Lemma appendString_loop_ascii (n : nat) (c : ascii) (r : string) :
  (byte_val c <? utf8.RuneSelf) = true ->
  appendString_loop (S n) (String c r)
  = (if htmlSafe (byte_val c) then String c "" else escape_ascii c) +:+ appendString_loop n r.
Proof.
  intros Hc. simpl. rewrite Hc. now destruct (htmlSafe _).
Qed.

Lemma scan_string_high (pre X raw rest : string) :
  utf8.high pre = true -> scan_string X = Parsed raw rest ->
  scan_string (pre +:+ X) = Parsed (pre +:+ raw) rest.
Proof.
  intros Hp HX. induction pre as [|c pre IH]; [exact HX|].
  simpl in Hp. apply andb_true_iff in Hp as [Hc Hp]. specialize (IH Hp).
  cbn [String.append scan_string].
  destruct (Ascii.eqb_spec c dquote) as [->|_]; [vm_compute in Hc; discriminate|].
  destruct (Ascii.eqb_spec c "\") as [->|_]; [vm_compute in Hc; discriminate|].
  apply Z.leb_le in Hc. unfold utf8.RuneSelf in Hc.
  destruct (byte_val c <? 32) eqn:E; [lia|].
  now rewrite IH.
Qed.

(** The text between the quotes that [appendString] writes is delimited
    by the scanner as it stands, whatever the string. *)
Lemma scan_string_appendString (n : nat) (s rest : string) :
  scan_string (appendString_loop n s +:+ String dquote rest)
  = Parsed (appendString_loop n s) rest.
Proof.
  revert s. induction n as [|n IH]; intros s.
  { destruct s; reflexivity. }
  destruct s as [|c r]; [reflexivity|].
  destruct (byte_val c <? utf8.RuneSelf) eqn:Hc.
  { rewrite (appendString_loop_ascii _ _ _ Hc), sapp_assoc.
    apply (scan_string_ascii _ _ _ _ Hc), IH. }
  cbn [appendString_loop]. rewrite Hc.
  destruct (utf8.DecodeRune (String c r)) as [rr size] eqn:D.
  destruct ((rr =? utf8.RuneError) && (size =? 1)%nat) eqn:E.
  { cbn [String.append scan_string]. simpl.
    rewrite IH. reflexivity. }
  destruct ((rr =? 0x2028) || (rr =? 0x2029)) eqn:L.
  { apply orb_true_iff in L as [->%Z.eqb_eq| ->%Z.eqb_eq]; simpl; now rewrite IH. }
  destruct (DecodeRune_multibyte _ _ _ _ D E ltac:(lia))
    as (pre & Hs & Hl & _ & _ & Hh & _).
  assert (Ht : take_bytes size (String c r) = pre).
  { rewrite Hs, <- Hl. apply take_bytes_app. }
  rewrite Ht, sapp_assoc. now apply scan_string_high.
Qed.

Lemma DecodeRune_ascii (c : ascii) (r : string) :
  (byte_val c <? utf8.RuneSelf) = true -> utf8.DecodeRune (String c r) = (byte_val c, 1%nat).
Proof. intros Hc. simpl. now rewrite Hc. Qed.

(** [unquote] reads back a string of well-formed runes. *)
Lemma unquote_loop_appendString (n : nat) (s : string) (fuel : nat) :
  utf8.Valid s -> (len s <= n)%nat -> (len (appendString_loop n s) <= fuel)%nat ->
  unquote_loop fuel (appendString_loop n s) = Some s.
Proof.
  revert s fuel. induction n as [|n IH]; intros s fuel Hv Hn Hf.
  { destruct s; [now destruct fuel|simpl in Hn; lia]. }
  destruct s as [|c r]; [now destruct fuel|].
  inversion Hv as [|s0 rr size _ D E Hv' Es]; subst s0.
  destruct (byte_val c <? utf8.RuneSelf) eqn:Hc.
  { rewrite (DecodeRune_ascii _ _ Hc) in D. injection D as <- <-. simpl in Hv', Hn.
    rewrite (appendString_loop_ascii _ _ _ Hc) in Hf |- *.
    rewrite len_sapp in Hf. pose proof (len_ascii_piece c) as Hp.
    destruct fuel as [|fuel]; [lia|].
    rewrite (unquote_loop_ascii _ _ _ Hc), (IH r fuel Hv'); [reflexivity|lia|lia]. }
  destruct (DecodeRune_multibyte _ _ _ _ D E ltac:(lia))
    as (pre & Hs & Hl & H2 & He & Hh & Hx).
  assert (Hlen : len (String c r) = (size + len (drop_bytes size (String c r)))%nat).
  { rewrite Hs at 1. now rewrite len_sapp, Hl. }
  revert Hf. cbn [appendString_loop]. rewrite Hc, D, E.
  assert (Hpre : exists pre', pre = String c pre').
  { destruct pre as [|c' pre']; [simpl in Hl; lia|]. injection Hs as -> _. now eexists. }
  destruct Hpre as (pre' & Hpre).
  destruct ((rr =? 0x2028) || (rr =? 0x2029)) eqn:L.
  - intros Hf. destruct fuel as [|fuel]; [simpl in Hf; lia|].
    assert (G : forall X, unquote_loop (S fuel)
                 ("\u202" +:+ String (hex (Z.land rr 0xF)) X)
               = prepend (utf8.EncodeRune rr) (unquote_loop fuel X)).
    { intros X. apply orb_true_iff in L as [->%Z.eqb_eq| ->%Z.eqb_eq]; reflexivity. }
    rewrite G, He, (IH _ fuel Hv'); [simpl; now rewrite <- Hs|lia|].
    simpl in Hf. lia.
  - assert (Ht : take_bytes size (String c r) = pre).
    { rewrite Hs, <- Hl. apply take_bytes_app. }
    rewrite Ht. set (X := appendString_loop n _). intros Hf. rewrite len_sapp in Hf.
    destruct fuel as [|fuel]; [lia|].
    assert (G : unquote_loop (S fuel) (pre +:+ X)
               = prepend (utf8.EncodeRune rr) (unquote_loop fuel X)).
    { destruct (Hx X) as [HD Hdrop]. rewrite Hpre in HD, Hdrop |- *.
      cbn [String.append unquote_loop].
      change (String c (pre' +:+ X)) with (String c pre' +:+ X). rewrite HD, Hdrop.
      destruct (Ascii.eqb_spec c "\") as [->|_]; [vm_compute in Hc; discriminate|].
      destruct (Ascii.eqb_spec c dquote) as [->|_]; [vm_compute in Hc; discriminate|].
      destruct (byte_val c <? 32) eqn:E32; [unfold utf8.RuneSelf in Hc; lia|].
      cbn [orb]. now rewrite Hc. }
    rewrite G, He. unfold X. rewrite (IH _ fuel Hv'); [simpl; now rewrite <- Hs|lia|].
    fold X. lia.
Qed.

Lemma unquote_appendString (s : string) :
  utf8.Valid s -> unquote (appendString_loop (len s) s) = Some s.
Proof. intros Hv. unfold unquote. now apply unquote_loop_appendString. Qed.

(** ** Number literals followed by the end of a value *)

Lemma ends_number_head (c : ascii) (t : string) :
  ends_number (String c t) = true ->
  isDigit c = false /\ Ascii.eqb c "." = false /\ (Ascii.eqb c "e" || Ascii.eqb c "E") = false.
Proof.
  simpl. intros H%negb_true_iff.
  destruct (isDigit c), (Ascii.eqb c "."), (Ascii.eqb c "e"), (Ascii.eqb c "E");
    simpl in *; try discriminate; auto.
Qed.

Lemma span_digits_ends (s ds r t : string) :
  span_digits s = (ds, r) -> r <> "" \/ ends_number t = true ->
  span_digits (s +:+ t) = (ds, r +:+ t).
Proof.
  intros H [Hr|Ht]; [now apply span_digits_app|].
  revert ds r H. induction s as [|c s IH]; simpl; intros ds r.
  - intros [= <- <-]. destruct t as [|c t]; [reflexivity|].
    apply ends_number_head in Ht as (Hd & _). simpl. now rewrite Hd.
  - destruct (isDigit c) eqn:D.
    + destruct (span_digits s) as [ds' r'] eqn:E. intros [= <- <-].
      now rewrite (IH _ _ eq_refl).
    + now intros [= <- <-].
Qed.

Lemma scan_exp_ends (lit s l r t : string) :
  scan_exp lit s = Parsed l r -> r <> "" \/ ends_number t = true ->
  scan_exp lit (s +:+ t) = Parsed l (r +:+ t).
Proof.
  intros H Ht. destruct s as [|c s].
  - injection H as <- <-. destruct Ht as [Ht|Ht]; [contradiction|].
    destruct t as [|c t]; [reflexivity|].
    apply ends_number_head in Ht as (_ & _ & He). unfold scan_exp. simpl. now rewrite He.
  - revert H. unfold scan_exp. cbn [String.append].
    destruct (Ascii.eqb c "e" || Ascii.eqb c "E"); [|now intros [= <- <-]].
    destruct s as [|c' s']; [discriminate|]. cbn [String.append].
    destruct (Ascii.eqb c' "+" || Ascii.eqb c' "-").
    + destruct (span_digits s') as [ds r2] eqn:E.
      destruct ds as [|d ds]; [destruct r2; unfold invalid_char; discriminate|].
      intros [= <- <-]. now rewrite (span_digits_ends _ _ _ t E Ht).
    + destruct (span_digits (String c' s')) as [ds r2] eqn:E.
      destruct ds as [|d ds]; [destruct r2; unfold invalid_char; discriminate|].
      intros [= <- <-].
      change (String c' (s' +:+ t)) with (String c' s' +:+ t).
      now rewrite (span_digits_ends _ _ _ t E Ht).
Qed.

Lemma scan_frac_ends (lit s l r t : string) :
  scan_frac lit s = Parsed l r -> r <> "" \/ ends_number t = true ->
  scan_frac lit (s +:+ t) = Parsed l (r +:+ t).
Proof.
  intros H Ht. destruct s as [|c s].
  - injection H as <- <-. destruct Ht as [Ht|Ht]; [contradiction|].
    destruct t as [|c t]; [reflexivity|].
    pose proof (ends_number_head _ _ Ht) as (_ & Hd & _).
    unfold scan_frac. cbn [String.append]. rewrite Hd.
    apply (scan_exp_ends lit "" lit "" (String c t) eq_refl). now right.
  - revert H. unfold scan_frac. cbn [String.append].
    destruct (Ascii.eqb c "."); [|intros H; exact (scan_exp_ends lit (String c s) l r t H Ht)].
    destruct (span_digits s) as [ds r'] eqn:E.
    destruct ds as [|d ds]; [destruct r'; unfold invalid_char; discriminate|].
    intros H.
    rewrite (span_digits_ends _ _ _ t E).
    + now apply scan_exp_ends.
    + destruct Ht as [Hr|Ht]; [left; exact (scan_exp_rest _ _ _ _ H Hr)|now right].
Qed.

Lemma scan_number_ends (s l r t : string) :
  scan_number s = Parsed l r -> r <> "" \/ ends_number t = true ->
  scan_number (s +:+ t) = Parsed l (r +:+ t).
Proof.
  assert (G : forall lit c s,
             (if Ascii.eqb c "0" then scan_frac (lit +:+ "0") s
              else if isDigit c
                   then let '(ds, r') := span_digits s in scan_frac (lit +:+ String c ds) r'
                   else invalid_char c "in numeric literal") = Parsed l r ->
             r <> "" \/ ends_number t = true ->
             (if Ascii.eqb c "0" then scan_frac (lit +:+ "0") (s +:+ t)
              else if isDigit c
                   then let '(ds, r') := span_digits (s +:+ t) in
                        scan_frac (lit +:+ String c ds) r'
                   else invalid_char c "in numeric literal") = Parsed l (r +:+ t)).
  { intros lit c s0. destruct (Ascii.eqb c "0"); [apply scan_frac_ends|].
    destruct (isDigit c); [|unfold invalid_char; discriminate].
    destruct (span_digits s0) as [ds r'] eqn:E. intros H Ht.
    rewrite (span_digits_ends _ _ _ t E).
    + now apply scan_frac_ends.
    + destruct Ht as [Hr|Ht]; [left; exact (scan_frac_rest _ _ _ _ H Hr)|now right]. }
  unfold scan_number. destruct s as [|c s]; [discriminate|]. cbn [String.append].
  destruct (Ascii.eqb c "-").
  - destruct s as [|c1 s1]; [discriminate|]. cbn [String.append].
    intros H Ht. exact (G "-" c1 s1 H Ht).
  - intros H Ht. exact (G "" c s H Ht).
Qed.

Lemma number_literal_scan (lit t : string) :
  number_literal lit = true -> ends_number t = true ->
  scan_number (lit +:+ t) = Parsed lit t.
Proof.
  unfold number_literal. destruct (scan_number lit) as [l r| | |] eqn:E; try discriminate.
  destruct r; [|discriminate]. intros _ Ht.
  destruct (scan_number_eq _ _ _ E) as [Hl _]. rewrite sapp_nil_r in Hl. subst l.
  apply (scan_number_ends _ _ _ t E). now right.
Qed.

Lemma number_literal_head (lit : string) :
  number_literal lit = true ->
  exists c r, lit = String c r /\ (Ascii.eqb c "-" || isDigit c) = true.
Proof.
  unfold number_literal. destruct (scan_number lit) as [l r| | |] eqn:E; try discriminate.
  intros _. revert E. unfold scan_number. destruct lit as [|c s]; [discriminate|].
  intros E. exists c, s. split; [reflexivity|].
  destruct (Ascii.eqb c "-"); [reflexivity|]. simpl.
  destruct (Ascii.eqb c "0") eqn:E0; [now apply Ascii.eqb_eq in E0 as ->|].
  destruct (isDigit c); [reflexivity|discriminate].
Qed.

(** ** Integers *)

Lemma ParseInt_FormatInt (z : Z) :
  in_int64 z = true -> strconv.ParseInt (strconv.FormatInt z) = Some z.
Proof.
  intros Hz. unfold strconv.ParseInt, strconv.FormatInt.
  rewrite NilZero.isi.
  - now rewrite DecimalZ.of_to, Hz.
  - destruct z; simpl; try discriminate.
    intros [= H]. now apply DecimalPos.Unsigned.to_uint_nonnil in H.
  - destruct z; simpl; try discriminate.
    intros [= H]. now apply DecimalPos.Unsigned.to_uint_nonnil in H.
Qed.

Lemma nzhead_no_zero (d u : Decimal.uint) : Decimal.nzhead d <> Decimal.D0 u.
Proof. induction d; simpl; try discriminate. exact IHd. Qed.

Lemma to_uint_head (p : positive) (u : Decimal.uint) : Pos.to_uint p <> Decimal.D0 u.
Proof.
  intros H. pose proof (DecimalPos.Unsigned.to_of (Pos.to_uint p)) as E.
  rewrite DecimalPos.Unsigned.of_to in E. simpl in E. rewrite H in E.
  unfold Decimal.unorm in E.
  destruct (Decimal.nzhead (Decimal.D0 u)) eqn:N; try discriminate.
  - injection E as ->. now apply DecimalPos.Unsigned.to_uint_nonzero in H.
  - now apply nzhead_no_zero in N.
Qed.

Lemma span_digits_uint (d : Decimal.uint) :
  span_digits (NilEmpty.string_of_uint d) = (NilEmpty.string_of_uint d, "").
Proof. induction d; simpl; try rewrite IHd; reflexivity. Qed.

Lemma scan_number_uint (sign : string) (p : positive) :
  sign = "" \/ sign = "-" ->
  scan_number (sign +:+ NilZero.string_of_uint (Pos.to_uint p))
  = Parsed (sign +:+ NilZero.string_of_uint (Pos.to_uint p)) "".
Proof.
  intros Hs. pose proof (to_uint_head p) as H0.
  pose proof (DecimalPos.Unsigned.to_uint_nonnil p) as Hn.
  destruct (Pos.to_uint p) as [|d|d|d|d|d|d|d|d|d|d];
    try contradiction; try (now destruct (H0 d));
    destruct Hs as [-> | ->]; unfold scan_number; simpl;
    rewrite span_digits_uint; reflexivity.
Qed.

Lemma number_literal_FormatInt (z : Z) : number_literal (strconv.FormatInt z) = true.
Proof.
  unfold number_literal, strconv.FormatInt. destruct z as [|p|p]; [reflexivity| |].
  - pose proof (scan_number_uint "" p (or_introl eq_refl)) as E.
    cbn [String.append] in E. cbn [Z.to_int NilZero.string_of_int]. now rewrite E.
  - pose proof (scan_number_uint "-" p (or_intror eq_refl)) as E.
    cbn [String.append] in E. cbn [Z.to_int NilZero.string_of_int]. now rewrite E.
Qed.

(** ** The scanner on the text of the encoder *)

Lemma value_ind (P : value -> Prop) :
  P Null -> (forall b, P (Bool b)) -> (forall lit, P (Num lit)) -> (forall s, P (Str s)) ->
  (forall vs, Forall P vs -> P (Arr vs)) ->
  (forall ms, Forall (fun kv => P (snd kv)) ms -> P (Obj ms)) ->
  forall v, P v.
Proof.
  intros HN HB HNum HS HA HO. fix IH 1. intros [ |b|lit|s|vs|ms].
  - exact HN.
  - apply HB.
  - apply HNum.
  - apply HS.
  - apply HA. induction vs as [|v vs IHvs]; constructor; [apply IH|exact IHvs].
  - apply HO. induction ms as [|kv ms IHms]; constructor; [apply IH|exact IHms].
Qed.

Lemma scan_elems_fuel_mono (fuel fuel' : nat) (d : Z) (s : string) (x : scanned (list value)) :
  scan_elems fuel d s = x -> x <> Exhausted -> (fuel <= fuel')%nat ->
  scan_elems fuel' d s = x.
Proof.
  intros Hx Hne Hle. induction Hle as [|fuel' Hle IH]; [exact Hx|].
  destruct (proj1 (proj2 (scan_fuel_S fuel')) d s) as [E|E]; congruence.
Qed.

Lemma scan_members_fuel_mono (fuel fuel' : nat) (d : Z) (s : string)
    (x : scanned (list (string * value))) :
  scan_members fuel d s = x -> x <> Exhausted -> (fuel <= fuel')%nat ->
  scan_members fuel' d s = x.
Proof.
  intros Hx Hne Hle. induction Hle as [|fuel' Hle IH]; [exact Hx|].
  destruct (proj2 (proj2 (scan_fuel_S fuel')) d s) as [E|E]; congruence.
Qed.

Lemma appendString_app (s X : string) :
  appendString s +:+ X = String dquote (appendString_loop (len s) s +:+ String dquote X).
Proof. unfold appendString. cbn [String.append]. now rewrite sapp_assoc. Qed.

(** The first byte of a number literal starts nothing else. *)
Lemma number_head (c : ascii) :
  (Ascii.eqb c "-" || isDigit c) = true ->
  isSpace c = false /\ Ascii.eqb c "{" = false /\ Ascii.eqb c "[" = false
  /\ Ascii.eqb c dquote = false /\ Ascii.eqb c "]" = false.
Proof.
  intros H.
  repeat split;
    match goal with
    | |- isSpace _ = false => unfold isSpace
    | _ => idtac
    end;
    repeat match goal with
    | |- context [Ascii.eqb c ?x] =>
        destruct (Ascii.eqb_spec c x) as [->|_]; [vm_compute in H; discriminate|]
    end; reflexivity.
Qed.

(** The text of a value starts with a byte that is no white space and
    does not close an array. *)
Lemma print_head (d : Z) (j : value) :
  well_formed d j = true ->
  exists c r, print j = String c r /\ isSpace c = false /\ Ascii.eqb c "]" = false.
Proof.
  destruct j as [ |[]|lit|s|vs|ms]; intros H; try (now eexists _, _).
  simpl in H. apply number_literal_head in H as (c & r & -> & Hc).
  apply number_head in Hc as (? & _ & _ & _ & ?). now exists c, r.
Qed.

Lemma scan_value_Str (d : Z) (s rest : string) :
  utf8.ValidString s = true ->
  scan_value 1 d (appendString s +:+ rest) = Parsed (Str s) rest.
Proof.
  intros Hv%ValidString_Valid. rewrite appendString_app, scan_value_S.
  rewrite skip_space_head by reflexivity.
  change (Ascii.eqb dquote "{") with false. change (Ascii.eqb dquote "[") with false.
  change (Ascii.eqb dquote dquote) with true. cbv iota.
  rewrite scan_string_appendString. cbn [bind_scanned].
  now rewrite unquote_appendString.
Qed.

Lemma scan_value_Num (d : Z) (lit rest : string) :
  number_literal lit = true -> ends_number rest = true ->
  scan_value 1 d (lit +:+ rest) = Parsed (Num lit) rest.
Proof.
  intros Hl Hr. rewrite scan_value_S.
  destruct (number_literal_head _ Hl) as (c & r & E & Hc).
  pose proof (number_head _ Hc) as (Hsp & H1 & H2 & H3 & _).
  pose proof (number_literal_scan _ _ Hl Hr) as Hscan.
  rewrite E in Hscan |- *. cbn [String.append] in Hscan |- *.
  rewrite (skip_space_head _ _ Hsp), H1, H2, H3, Hc, Hscan. reflexivity.
Qed.

Lemma ends_number_close (c : ascii) (t : string) :
  Ascii.eqb c "," || Ascii.eqb c "]" || Ascii.eqb c "}" = true ->
  ends_number (String c t) = true.
Proof.
  intros H. apply orb_true_iff in H as [H|H]; [apply orb_true_iff in H as [H|H]|];
    apply Ascii.eqb_eq in H as ->; reflexivity.
Qed.

Lemma join_head (sep x : string) (l : list string) (t : string) (c : ascii) (r : string) :
  x = String c r -> exists y, join sep (x :: l) +:+ t = String c y.
Proof. intros ->. destruct l; cbn [join String.append]; now eexists. Qed.

Lemma scan_elems_print (d : Z) (vs : list value) (rest : string) :
  Forall (fun v => forall d rest, well_formed d v = true -> ends_number rest = true ->
                   exists fuel, scan_value fuel d (print v +:+ rest) = Parsed v rest) vs ->
  vs <> [] -> forallb (well_formed d) vs = true ->
  exists fuel,
    scan_elems fuel d (join "," (map print vs) +:+ String "]" rest) = Parsed vs rest.
Proof.
  intros HF. induction HF as [|v vs Hv HF IH]; [contradiction|]. intros _ Hwf.
  cbn [forallb] in Hwf. apply andb_true_iff in Hwf as [Hwv Hwf].
  destruct vs as [|v' vs'].
  - destruct (Hv d (String "]" rest) Hwv eq_refl) as (f & Hf).
    exists (S f). rewrite scan_elems_S. cbn [map join]. rewrite Hf. reflexivity.
  - destruct (IH ltac:(discriminate) Hwf) as (f2 & Hf2).
    set (J := join "," (map print (v' :: vs'))) in *.
    destruct (Hv d (String "," (J +:+ String "]" rest)) Hwv eq_refl) as (f1 & Hf1).
    exists (S (Nat.max f1 f2)). rewrite scan_elems_S.
    change (join "," (map print (v :: v' :: vs'))) with (print v +:+ "," +:+ J).
    rewrite !sapp_assoc. cbn [String.append].
    rewrite (scan_value_fuel_mono _ (Nat.max f1 f2) _ _ _ Hf1) by (discriminate || lia).
    cbn [bind_scanned]. rewrite skip_space_head by reflexivity.
    change (Ascii.eqb "," ",") with true. cbv iota.
    rewrite (scan_elems_fuel_mono _ (Nat.max f1 f2) _ _ _ Hf2) by (discriminate || lia).
    reflexivity.
Qed.

Lemma scan_members_print (d : Z) (ms : list (string * value)) (rest : string) :
  Forall (fun kv => forall d rest, well_formed d (snd kv) = true -> ends_number rest = true ->
                    exists fuel,
                      scan_value fuel d (print (snd kv) +:+ rest) = Parsed (snd kv) rest) ms ->
  ms <> [] ->
  forallb (fun kv => utf8.ValidString (fst kv) && well_formed d (snd kv)) ms = true ->
  exists fuel,
    scan_members fuel d
      (join "," (map (fun kv => appendString (fst kv) +:+ ":" +:+ print (snd kv)) ms)
       +:+ String "}" rest) = Parsed ms rest.
Proof.
  intros HF. induction HF as [|[k v] ms Hv HF IH]; [contradiction|]. intros _ Hwf.
  cbn [forallb fst snd] in Hwf, Hv. apply andb_true_iff in Hwf as [Hkv Hwf].
  apply andb_true_iff in Hkv as [Hk%ValidString_Valid Hwv].
  destruct ms as [|kv' ms'].
  - destruct (Hv d (String "}" rest) Hwv eq_refl) as (f & Hf).
    exists (S f). rewrite scan_members_S. cbn [map join fst snd].
    rewrite !sapp_assoc, appendString_app.
    rewrite skip_space_head by reflexivity.
    change (Ascii.eqb dquote dquote) with true. cbv iota.
    rewrite scan_string_appendString. cbn [bind_scanned].
    rewrite (unquote_appendString _ Hk). cbn [String.append].
    rewrite skip_space_head by reflexivity.
    change (Ascii.eqb ":" ":") with true. cbv iota.
    rewrite Hf. reflexivity.
  - destruct (IH ltac:(discriminate) Hwf) as (f2 & Hf2).
    set (J := join "," (map _ (kv' :: ms'))) in *.
    destruct (Hv d (String "," (J +:+ String "}" rest)) Hwv eq_refl) as (f1 & Hf1).
    exists (S (Nat.max f1 f2)). rewrite scan_members_S.
    change (join "," (map ?f ((k, v) :: kv' :: ms')))
      with ((appendString k +:+ ":" +:+ print v) +:+ "," +:+ J).
    rewrite !sapp_assoc, appendString_app.
    rewrite skip_space_head by reflexivity.
    change (Ascii.eqb dquote dquote) with true. cbv iota.
    rewrite scan_string_appendString. cbn [bind_scanned].
    rewrite (unquote_appendString _ Hk). cbn [String.append].
    rewrite skip_space_head by reflexivity.
    change (Ascii.eqb ":" ":") with true. cbv iota.
    rewrite (scan_value_fuel_mono _ (Nat.max f1 f2) _ _ _ Hf1) by (discriminate || lia).
    cbn [bind_scanned]. rewrite skip_space_head by reflexivity.
    change (Ascii.eqb "," ",") with true. cbv iota.
    rewrite (scan_members_fuel_mono _ (Nat.max f1 f2) _ _ _ Hf2) by (discriminate || lia).
    reflexivity.
Qed.

(** The scanner reads the text of a well-formed value back as the value,
    and stops where the text ends. *)
Lemma scan_value_print (j : value) :
  forall d rest, well_formed d j = true -> ends_number rest = true ->
  exists fuel, scan_value fuel d (print j +:+ rest) = Parsed j rest.
Proof.
  induction j as [ |b|lit|s|vs IH|ms IH] using value_ind; intros d rest Hwf Hr.
  - now exists 1%nat.
  - exists 1%nat. now destruct b.
  - exists 1%nat. now apply scan_value_Num.
  - exists 1%nat. now apply scan_value_Str.
  - cbn [well_formed] in Hwf. apply andb_true_iff in Hwf as [Hd Hwf].
    apply Z.leb_le in Hd.
    destruct vs as [|v vs].
    { exists 1%nat. rewrite scan_value_S. cbn. 
      destruct (maxNestingDepth <? d + 1) eqn:E; [lia|reflexivity]. }
    destruct (scan_elems_print (d + 1) (v :: vs) rest IH ltac:(discriminate) Hwf) as (f & Hf).
    exists (S f). rewrite scan_value_S. cbn [print]. rewrite !sapp_assoc.
    cbn [String.append]. rewrite skip_space_head by reflexivity.
    change (Ascii.eqb "[" "{") with false. change (Ascii.eqb "[" "[") with true. cbv iota.
    destruct (maxNestingDepth <? d + 1) eqn:E; [lia|].
    pose proof Hwf as Hwv. cbn [forallb] in Hwv. apply andb_true_iff in Hwv as [Hwv _].
    destruct (print_head _ _ Hwv) as (c & r & Hp & Hsp & Hc).
    destruct (join_head "," (print v) (map print vs) (String "]" rest) c r Hp) as (Y & HY).
    change (map print (v :: vs)) with (print v :: map print vs) in Hf |- *.
    rewrite HY in Hf |- *.
    rewrite (skip_space_head _ _ Hsp), Hc, Hf. reflexivity.
  - cbn [well_formed] in Hwf. apply andb_true_iff in Hwf as [Hd Hwf].
    apply Z.leb_le in Hd.
    destruct ms as [|kv ms].
    { exists 1%nat. rewrite scan_value_S. cbn.
      destruct (maxNestingDepth <? d + 1) eqn:E; [lia|reflexivity]. }
    destruct (scan_members_print (d + 1) (kv :: ms) rest IH ltac:(discriminate) Hwf)
      as (f & Hf).
    set (pm := fun kv : string * value => appendString (fst kv) +:+ ":" +:+ print (snd kv))
      in Hf.
    exists (S f). rewrite scan_value_S.
    change (print (Obj (kv :: ms))) with ("{" +:+ join "," (map pm (kv :: ms)) +:+ "}").
    rewrite !sapp_assoc.
    cbn [String.append]. rewrite skip_space_head by reflexivity.
    change (Ascii.eqb "{" "{") with true. cbv iota.
    destruct (maxNestingDepth <? d + 1) eqn:E; [lia|].
    destruct (join_head "," (pm kv) (map pm ms) (String "}" rest) dquote _ eq_refl)
      as (Y & HY).
    change (map pm (kv :: ms)) with (pm kv :: map pm ms) in Hf |- *.
    rewrite HY in Hf |- *.
    rewrite skip_space_head by reflexivity.
    change (Ascii.eqb dquote "}") with false. cbv iota. rewrite Hf. reflexivity.
Qed.

Theorem scan_print (j : value) :
  well_formed 0 j = true -> scan (print j) = Parsed j "".
Proof.
  intros Hwf. destruct (scan_value_print j 0 "" Hwf eq_refl) as (f & Hf).
  rewrite sapp_nil_r in Hf. apply (scan_value_scan f); [exact Hf|discriminate].
Qed.

(** ** Values of an interface *)

Lemma float_eqb_eq (a b : strconv.float64) : strconv.float_eqb a b = true -> a = b.
Proof.
  destruct a as [s|s| |s m e], b as [s'|s'| |s' m' e']; simpl; try discriminate.
  - now intros ->%Bool.eqb_prop.
  - now intros ->%Bool.eqb_prop.
  - reflexivity.
  - intros [[->%Bool.eqb_prop ->%Pos.eqb_eq]%andb_true_iff ->%Z.eqb_eq]%andb_true_iff.
    reflexivity.
Qed.

Lemma any_ind (P : any -> Prop) :
  P anil -> (forall b, P (abool b)) -> (forall f, P (afloat64 f)) ->
  (forall s, P (astring s)) ->
  (forall l, Forall P l -> P (aslice l)) ->
  (forall m, Forall (fun kv => P (snd kv)) m -> P (amap m)) ->
  forall a, P a.
Proof.
  intros HN HB HF HS HL HM. fix IH 1. intros [ |b|f|s|l|m].
  - exact HN.
  - apply HB.
  - apply HF.
  - apply HS.
  - apply HL. induction l as [|a l IHl]; constructor; [apply IH|exact IHl].
  - apply HM. induction m as [|kv m IHm]; constructor; [apply IH|exact IHm].
Qed.

Lemma bind_Ok {A B : Type} (x : result A) (f : A -> result B) (b : B) :
  x ≫= f = Ok b -> exists a, x = Ok a /\ f a = Ok b.
Proof. destruct x as [a|e]; [now exists a|discriminate]. Qed.

(** A key that comes after all the keys of a map goes to its end. *)
Lemma map_insert_last {A : Type} (k : string) (v : A) (m : list (string * A)) :
  forallb (fun k' => match String.compare k' k with Lt => true | _ => false end) (map fst m)
  = true ->
  map_insert k v m = m ++ [(k, v)].
Proof.
  induction m as [|[k' v'] m IH]; [reflexivity|]. cbn [map forallb fst map_insert].
  intros [Hk Hm]%andb_true_iff. rewrite String.compare_antisym.
  destruct (String.compare k' k); try discriminate. cbn [CompOpp].
  now rewrite (IH Hm).
Qed.

Section AnyRoundTrip.
Context `{!strconv.FloatFormat}.

Lemma float_roundtrip (f : strconv.float64) :
  float_roundtrips f = true ->
  float_toJSON f = Ok (Num (strconv.FormatFloat f))
  /\ number_literal (strconv.FormatFloat f) = true
  /\ strconv.ParseFloat (strconv.FormatFloat f) = Some f.
Proof.
  unfold float_roundtrips, float_toJSON.
  intros [[-> Hn]%andb_true_iff Hp]%andb_true_iff. split; [reflexivity|]. split; [exact Hn|].
  destruct (strconv.ParseFloat _) as [g|]; [|discriminate].
  now apply float_eqb_eq in Hp as ->.
Qed.

Lemma any_toJSON_aslice (l : list any) :
  any_toJSON (aslice l) = vs ← mapM any_toJSON l; Ok (Arr vs).
Proof.
  cbn [any_toJSON]. f_equal.
  induction l as [|x l IH]; [reflexivity|]. cbn [mapM]. now rewrite <- IH.
Qed.

Lemma any_toJSON_amap (m : list (string * any)) :
  any_toJSON (amap m)
  = ms ← mapM (fun kx => v ← any_toJSON (snd kx); Ok (fst kx, v)) m; Ok (Obj ms).
Proof.
  cbn [any_toJSON]. f_equal.
  induction m as [|kx m IH]; [reflexivity|]. cbn [mapM]. rewrite <- IH.
  now destruct (any_toJSON (snd kx)).
Qed.

Lemma to_any_Arr (vs : list value) : to_any (Arr vs) = l ← mapM to_any vs; Ok (aslice l).
Proof.
  cbn [to_any]. f_equal.
  induction vs as [|v vs IH]; [reflexivity|]. cbn [mapM]. now rewrite <- IH.
Qed.

(** The members of an object written from a map with its keys in order
    make up the same map again. *)
Lemma to_any_members (ms : list (string * value)) :
  forall (m acc : list (string * any)),
  mapM (fun kv => x ← to_any (snd kv); Ok (fst kv, x)) ms = Ok m ->
  sorted_keys (map fst m) = true ->
  Forall (fun k => Forall (fun k' => String.compare k k' = Lt) (map fst m)) (map fst acc) ->
  (fix go (ms : list (string * value)) (acc : list (string * any))
     : result (list (string * any)) :=
     match ms with
     | [] => Ok acc
     | kv :: ms' => x ← to_any (snd kv); go ms' (map_insert (fst kv) x acc)
     end) ms acc = Ok (acc ++ m).
Proof.
  induction ms as [|[k v] ms IH]; intros m acc Hm Hs Hacc.
  - injection Hm as <-. now rewrite app_nil_r.
  - cbn [mapM fst snd] in Hm |- *.
    apply bind_Ok in Hm as ([k0 x] & Hx & Hm).
    apply bind_Ok in Hx as (x' & Hx & [= <- <-]). rewrite Hx. cbn [mbind result_bind].
    apply bind_Ok in Hm as (m' & Hm' & [= <-]).
    cbn [map fst sorted_keys] in Hs. apply andb_true_iff in Hs as [Hk Hs].
    rewrite map_insert_last.
    + rewrite (IH m' _ Hm' Hs); [now rewrite <- app_assoc|].
      rewrite map_app. apply Forall_app. split.
      * eapply Forall_impl; [exact Hacc|].
        intros k0 H0. cbn [map fst] in H0. now inversion H0.
      * constructor; [|constructor]. cbn [fst].
        apply Forall_forall. intros k' Hin%list_elem_of_In.
        rewrite forallb_forall in Hk. specialize (Hk k' Hin).
        now destruct (String.compare k k').
    + apply forallb_forall. intros k0 Hin.
      rewrite Forall_forall in Hacc. specialize (Hacc k0 (proj2 (list_elem_of_In _ _) Hin)).
      cbn [map fst] in Hacc. inversion Hacc as [|? ? Hlt _]. now rewrite Hlt.
Qed.

Lemma any_list_roundtrip (d : Z) (l : list any) :
  Forall (fun a => forall d, valid_any d a = true ->
                   exists j, any_toJSON a = Ok j /\ well_formed d j = true /\ to_any j = Ok a) l ->
  forallb (valid_any d) l = true ->
  exists vs, mapM any_toJSON l = Ok vs /\ forallb (well_formed d) vs = true
             /\ mapM to_any vs = Ok l.
Proof.
  intros HF. induction HF as [|a l Ha HF IH]; [now exists []|].
  cbn [forallb]. intros [Hva Hvl]%andb_true_iff.
  destruct (Ha d Hva) as (j & Hj & Hwj & Hback). destruct (IH Hvl) as (vs & Hvs & Hwvs & Hbacks).
  exists (j :: vs). cbn [mapM forallb]. rewrite Hj, Hvs, Hwj, Hwvs, Hback, Hbacks.
  now repeat split.
Qed.

Lemma any_map_roundtrip (d : Z) (m : list (string * any)) :
  Forall (fun kv => forall d, valid_any d (snd kv) = true ->
                    exists j, any_toJSON (snd kv) = Ok j /\ well_formed d j = true
                              /\ to_any j = Ok (snd kv)) m ->
  forallb (fun kv => utf8.ValidString (fst kv) && valid_any d (snd kv)) m = true ->
  exists ms, mapM (fun kx => v ← any_toJSON (snd kx); Ok (fst kx, v)) m = Ok ms
             /\ forallb (fun kv => utf8.ValidString (fst kv) && well_formed d (snd kv)) ms = true
             /\ mapM (fun kv => x ← to_any (snd kv); Ok (fst kv, x)) ms = Ok m.
Proof.
  intros HF. induction HF as [|[k a] m Ha HF IH]; [now exists []|].
  cbn [forallb fst snd] in Ha |- *. intros [[Hk Hva]%andb_true_iff Hvm]%andb_true_iff.
  destruct (Ha d Hva) as (j & Hj & Hwj & Hback). destruct (IH Hvm) as (ms & Hms & Hwms & Hbacks).
  exists ((k, j) :: ms). cbn [mapM forallb fst snd].
  rewrite Hj. cbn [mbind result_bind]. rewrite Hms, Hk, Hwj, Hwms, Hback. cbn [mbind result_bind].
  rewrite Hbacks. now repeat split.
Qed.

(** A value of an interface is written as a well-formed JSON value that
    decodes to it. *)
Lemma any_roundtrip (a : any) :
  forall d, valid_any d a = true ->
  exists j, any_toJSON a = Ok j /\ well_formed d j = true /\ to_any j = Ok a.
Proof.
  induction a as [ |b|f|s|l IH|m IH] using any_ind; intros d Hv.
  - now exists Null.
  - now exists (Bool b).
  - cbn [valid_any] in Hv. destruct (float_roundtrip f Hv) as (Hj & Hn & Hp).
    exists (Num (strconv.FormatFloat f)). cbn [any_toJSON well_formed to_any].
    now rewrite Hp.
  - now exists (Str s).
  - cbn [valid_any] in Hv. apply andb_true_iff in Hv as [Hd Hv].
    destruct (any_list_roundtrip (d + 1) l IH Hv) as (vs & Hvs & Hwf & Hback).
    exists (Arr vs). rewrite any_toJSON_aslice, to_any_Arr, Hvs, Hback.
    cbn [well_formed]. now rewrite Hd, Hwf.
  - cbn [valid_any] in Hv. apply andb_true_iff in Hv as [[Hd Hs]%andb_true_iff Hv].
    destruct (any_map_roundtrip (d + 1) m IH Hv) as (ms & Hms & Hwf & Hback).
    exists (Obj ms). rewrite any_toJSON_amap, Hms.
    cbn [well_formed]. rewrite Hd, Hwf. repeat split.
    cbn [to_any]. now rewrite (to_any_members ms m [] Hback Hs (List.Forall_nil _)).
Qed.

End AnyRoundTrip.

(** ** Records *)

Lemma find_exact (k : string) (l : list string) :
  In k l -> List.find (String.eqb k) l = Some k.
Proof.
  induction l as [|x l IH]; [contradiction|]. cbn [List.find].
  destruct (String.eqb_spec k x) as [->|Hne]; [reflexivity|].
  intros [->|Hin]; [contradiction|auto].
Qed.

(** The key that is the tag of a field selects the field of that tag. *)
Lemma find_field_tag (fs : fields) (k : string) : In k (tags fs) -> find_field fs k = Some k.
Proof. intros Hin. unfold find_field. now rewrite (find_exact _ _ Hin). Qed.

(** Members for the fields after the first leave the first field alone. *)
Lemma decode_members_tail (g tag : string) (t : gotype) (r : fields)
    (ms : list (string * value)) :
  forall (x : denote t) (o : denote_fields r),
  Forall (fun kv => In (fst kv) (tags r) /\ fst kv <> tag) ms ->
  decode_members (find_field (FCons g tag t r)) (fromJSON_field (FCons g tag t r)) ms (x, o)
  = y ← decode_members (find_field r) (fromJSON_field r) ms o; Ok (x, y).
Proof.
  induction ms as [|[k j] ms IH]; intros x o HF; [reflexivity|].
  inversion HF as [|? ? [Hin Hne] HF']; subst. cbn [fst snd] in Hin, Hne.
  cbn [decode_members fst snd].
  rewrite (find_field_tag r k Hin), (find_field_tag (FCons g tag t r) k (or_intror Hin)).
  cbn [fromJSON_field fst snd].
  destruct (String.eqb_spec tag k) as [->|_]; [contradiction|].
  destruct (fromJSON_field r k j o) as [y|e]; cbn [mbind result_bind]; [apply IH, HF'|].
  reflexivity.
Qed.

Section RoundTrip.
Context `{!strconv.FloatFormat}.

Lemma slice_roundtrip (e : gotype) (d : Z) (l : list (denote e)) :
  (forall d v, valid e d v = true ->
     exists j, toJSON e v = Ok j /\ well_formed d j = true
               /\ (nullable e = false -> j <> Null)
               /\ forall old, fromJSON e j old = Ok v) ->
  forallb (valid e d) l = true ->
  exists vs, mapM (toJSON e) l = Ok vs /\ forallb (well_formed d) vs = true
             /\ forall old, decode_elems (fromJSON e) (zero e) vs old = Ok l.
Proof.
  intros He. induction l as [|x l IH]; [now exists []|].
  cbn [forallb]. intros [Hx Hl]%andb_true_iff.
  destruct (He d x Hx) as (j & Hj & Hwj & _ & Hback). destruct (IH Hl) as (vs & Hvs & Hwf & Hbacks).
  exists (j :: vs). cbn [mapM forallb decode_elems]. rewrite Hj, Hvs, Hwj, Hwf.
  repeat split. intros old. rewrite Hback. cbn [mbind result_bind]. now rewrite Hbacks.
Qed.

(** A value is written as a well-formed JSON value from which the decoder
    makes the same value again, whatever the variable held before. *)
Lemma toJSON_fromJSON :
  (forall t, roundtrips t = true -> forall d (v : denote t), valid t d v = true ->
     exists j, toJSON t v = Ok j /\ well_formed d j = true
               /\ (nullable t = false -> j <> Null)
               /\ forall old, fromJSON t j old = Ok v)
  /\ (forall fs, roundtrips_fields fs = true ->
        forall d (v : denote_fields fs), valid_fields fs d v = true ->
        exists ms, toJSON_fields fs v = Ok ms /\ map fst ms = tags fs
                   /\ forallb (fun kv => utf8.ValidString (fst kv) && well_formed d (snd kv)) ms
                      = true
                   /\ forall old,
                        decode_members (find_field fs) (fromJSON_field fs) ms old = Ok v).
Proof.
  apply gotype_mutind.
  - (* string *)
    intros _ d v Hv. exists (Str v). now repeat split.
  - (* bool *)
    intros _ d v _. exists (Bool v). now repeat split.
  - (* int *)
    intros _ d v Hv. exists (Num (strconv.FormatInt v)). cbn [toJSON well_formed fromJSON].
    rewrite number_literal_FormatInt, (ParseInt_FormatInt _ Hv). now repeat split.
  - (* int64 *)
    intros _ d v Hv. exists (Num (strconv.FormatInt v)). cbn [toJSON well_formed fromJSON].
    rewrite number_literal_FormatInt, (ParseInt_FormatInt _ Hv). now repeat split.
  - (* float64 *)
    intros _ d v Hv. destruct (float_roundtrip v Hv) as (Hj & Hn & Hp).
    exists (Num (strconv.FormatFloat v)). cbn [toJSON well_formed fromJSON].
    rewrite Hp. now repeat split.
  - (* interface{} *)
    intros _ d v Hv. destruct (any_roundtrip v d Hv) as (j & Hj & Hwf & Hback).
    exists j. cbn [toJSON fromJSON]. split; [exact Hj|]. split; [exact Hwf|].
    split; [discriminate|]. intros _. exact Hback.
  - (* slices *)
    intros e IH Hr d [l|] Hv; [|exists Null; now repeat split].
    cbn [roundtrips] in Hr. cbn [valid] in Hv. apply andb_true_iff in Hv as [Hd Hv].
    destruct (slice_roundtrip e (d + 1) l (IH Hr) Hv) as (vs & Hvs & Hwf & Hback).
    exists (Arr vs). cbn [toJSON well_formed fromJSON]. rewrite Hvs, Hd, Hwf.
    split; [reflexivity|]. split; [reflexivity|]. split; [discriminate|].
    intros old. now rewrite Hback.
  - (* pointers *)
    intros e IH Hr d [x|] Hv; [|exists Null; now repeat split].
    cbn [roundtrips] in Hr. apply andb_true_iff in Hr as [Hn%negb_true_iff Hr].
    cbn [valid] in Hv. destruct (IH Hr d x Hv) as (j & Hj & Hwf & Hnull & Hback).
    exists j. cbn [toJSON fromJSON]. split; [exact Hj|]. split; [exact Hwf|].
    split; [discriminate|]. intros old. specialize (Hnull Hn).
    destruct j; try contradiction; now rewrite Hback.
  - (* structs *)
    intros name fs IH Hr d v Hv. cbn [roundtrips] in Hr. cbn [valid] in Hv.
    apply andb_true_iff in Hv as [Hd Hv].
    destruct (IH Hr (d + 1) v Hv) as (ms & Hms & _ & Hwf & Hback).
    exists (Obj ms). cbn [toJSON well_formed fromJSON]. rewrite Hms, Hd, Hwf.
    split; [reflexivity|]. split; [reflexivity|]. split; [discriminate|]. exact Hback.
  - (* no field *)
    intros _ d [] _. exists []. repeat split. now intros [].
  - (* a field and the fields after it *)
    intros g tag t IHt r IHr Hr d [x vr] Hv.
    cbn [roundtrips_fields] in Hr.
    apply andb_true_iff in Hr as [[[Hnew Htag]%andb_true_iff Hrt]%andb_true_iff Hrr].
    cbn [valid_fields fst snd] in Hv. apply andb_true_iff in Hv as [Hvx Hvr].
    destruct (IHt Hrt d x Hvx) as (j & Hj & Hwj & _ & Hbackx).
    destruct (IHr Hrr d vr Hvr) as (ms & Hms & Htags & Hwf & Hbackr).
    exists ((tag, j) :: ms). cbn [toJSON_fields fst snd map tags forallb].
    rewrite Hj, Hms, Htags, Htag, Hwj, Hwf. repeat split.
    intros [ox or]. cbn [decode_members fst snd].
    rewrite (find_field_tag (FCons g tag t r) tag (or_introl eq_refl)).
    cbn [fromJSON_field fst snd]. rewrite String.eqb_refl, Hbackx. cbn [mbind result_bind].
    rewrite decode_members_tail; [now rewrite Hbackr|].
    apply Forall_forall. intros [k j'] Hin. cbn [fst].
    assert (Hk : In k (tags r)).
    { rewrite <- Htags. apply in_map_iff. exists (k, j'). split; [reflexivity|].
      now apply list_elem_of_In. }
    split; [exact Hk|]. intros ->.
    apply negb_true_iff in Hnew. 
    assert (Hex : existsb (String.eqb tag) (tags r) = true).
    { apply existsb_exists. exists tag. split; [exact Hk|apply String.eqb_refl]. }
    congruence.
Qed.

End RoundTrip.

(** ** Marshal, then Unmarshal *)

(** For a type that loses nothing in encoding and a value within the
    limits of the text, [Marshal] succeeds and [Unmarshal] makes the value
    again from what it wrote. *)
Lemma Marshal_Unmarshal `{!strconv.FloatFormat} (t : gotype) (v old : denote t) :
  roundtrips t = true -> valid t 0 v = true ->
  exists text, Marshal t v = Ok text /\ Unmarshal t text old = Ok v.
Proof.
  intros Hr Hv.
  destruct (proj1 toJSON_fromJSON t Hr 0 v Hv) as (j & Hj & Hwf & _ & Hback).
  exists (print j). unfold Marshal. rewrite Hj. split; [reflexivity|].
  unfold Unmarshal, checkValid. rewrite (scan_print j Hwf). cbn [skip_space].
  apply Hback.
Qed.

(** Referenced by C6 as its counterexample.  The user address of the
    record [AssembleRequest{UserAddr: "\xff"}] is one byte that is no
    UTF-8.  [Marshal] writes the escape of the replacement character
    U+FFFD in its place, and [Unmarshal] makes of it the three bytes of
    that character: a record with another user address. *)
Lemma roundtrip_replaces_invalid_utf8 :
  exists text : string,
    @Marshal sample.exact_decimal odos.AssembleRequest
      (odos.mkAssembleRequest (String "255" "") "" false) = Ok text
    /\ contains text (String "\" "ufffd")
    /\ Unmarshal odos.AssembleRequest text (zero odos.AssembleRequest)
       = Ok (odos.mkAssembleRequest (utf8.EncodeRune utf8.RuneError) "" false)
    /\ odos.mkAssembleRequest (utf8.EncodeRune utf8.RuneError) "" false
       <> odos.mkAssembleRequest (String "255" "") "" false.
Proof.
  eexists. split; [vm_compute; reflexivity|].
  split; [apply containsb_sound; vm_compute; reflexivity|].
  split; [vm_compute; reflexivity|].
  intros E. vm_compute in E. discriminate E.
Qed.

(** A number that is not finite has no text: [Marshal] fails on the
    [QuoteRequest] that is zero but for a gas price of NaN, whatever
    [FormatFloat] is. *)
Lemma Marshal_refuses_NaN `{!strconv.FloatFormat} :
  Marshal odos.QuoteRequest
    (0, (None, (None, (S754_nan, snd (snd (snd (snd (zero odos.QuoteRequest))))))))
  = Err (UnsupportedValueError "NaN").
Proof. reflexivity. Qed.

(** C6 (amended).  Take a request record ([QuoteRequest],
    [AssembleRequest] or [BuildRouteRequest]) in which every string is
    valid UTF-8, every integer fits 64 bits, every floating-point number
    is finite and written by [FormatFloat] as a number literal that
    [ParseFloat] reads back as the same number, every value of an
    [interface{}] is [nil], a [bool], a [float64], a [string], a slice or a
    map with string keys of such values, and no more than 10000 objects and
    arrays are nested.  Marshaling it to JSON succeeds, and unmarshaling
    that JSON (into a variable that holds anything) yields a record equal
    to the original in every field value. *)
Theorem request_roundtrip `{!strconv.FloatFormat} (T : gotype) (req old : denote T) :
  In T [odos.QuoteRequest; odos.AssembleRequest; kyberswap.BuildRouteRequest] ->
  valid T 0 req = true ->
  exists text, Marshal T req = Ok text /\ Unmarshal T text old = Ok req.
Proof.
  intros HT Hv. apply Marshal_Unmarshal; [|exact Hv].
  destruct HT as [<-|[<-|[<-|[]]]]; vm_compute; reflexivity.
Qed.

(** One record of each kind, with the exact decimal expansion for
    [FormatFloat]. *)
Lemma request_roundtrip_witness :
  (exists text,
     @Marshal sample.exact_decimal odos.QuoteRequest sample.quote_request = Ok text
     /\ Unmarshal odos.QuoteRequest text (zero odos.QuoteRequest) = Ok sample.quote_request)
  /\ (exists text,
        @Marshal sample.exact_decimal odos.AssembleRequest sample.assemble_request = Ok text
        /\ Unmarshal odos.AssembleRequest text (zero odos.AssembleRequest)
           = Ok sample.assemble_request)
  /\ (exists text,
        @Marshal sample.exact_decimal kyberswap.BuildRouteRequest sample.build_route_request
        = Ok text
        /\ Unmarshal kyberswap.BuildRouteRequest text (zero kyberswap.BuildRouteRequest)
           = Ok sample.build_route_request).
Proof.
  split; [|split].
  - apply (@request_roundtrip sample.exact_decimal odos.QuoteRequest sample.quote_request
             (zero odos.QuoteRequest)); [left; reflexivity|vm_compute; reflexivity].
  - apply (@request_roundtrip sample.exact_decimal odos.AssembleRequest sample.assemble_request
             (zero odos.AssembleRequest)); [right; left; reflexivity|vm_compute; reflexivity].
  - apply (@request_roundtrip sample.exact_decimal kyberswap.BuildRouteRequest
             sample.build_route_request (zero kyberswap.BuildRouteRequest));
      [right; right; left; reflexivity|vm_compute; reflexivity].
Defined.

(** * More on the two clients *)

(** ** The URLs

    [Sprintf] puts its operands into the text as they are. *)

Lemma Sprintf_pricing (base chainID tokenAddr : string) :
  fmt.Sprintf "%s/pricing/token/%s/%s" [fmt.S_ base; fmt.S_ chainID; fmt.S_ tokenAddr]
  = base +:+ "/pricing/token/" +:+ chainID +:+ "/" +:+ tokenAddr.
Proof. simpl. now rewrite sapp_nil_r. Qed.

Lemma Sprintf_quote (base : string) :
  fmt.Sprintf "%s/sor/quote/v2" [fmt.S_ base] = base +:+ "/sor/quote/v2".
Proof. reflexivity. Qed.

Lemma Sprintf_assemble (base : string) :
  fmt.Sprintf "%s/sor/assemble" [fmt.S_ base] = base +:+ "/sor/assemble".
Proof. reflexivity. Qed.

Lemma Sprintf_routes (base tokenIn tokenOut amountIn : string) :
  fmt.Sprintf "%s/api/v1/routes?tokenIn=%s&tokenOut=%s&amountIn=%s"
    [fmt.S_ base; fmt.S_ tokenIn; fmt.S_ tokenOut; fmt.S_ amountIn]
  = base +:+ "/api/v1/routes?tokenIn=" +:+ tokenIn +:+ "&tokenOut=" +:+ tokenOut
         +:+ "&amountIn=" +:+ amountIn.
Proof. simpl. now rewrite sapp_nil_r. Qed.

Lemma Sprintf_build (base : string) :
  fmt.Sprintf "%s/api/v1/route/build" [fmt.S_ base] = base +:+ "/api/v1/route/build".
Proof. reflexivity. Qed.

(** ** A record or an error *)

Lemma settles_same {C A : Type} (m : Go C (option A * option error)) w σ (e : error) :
  run m w σ = Returns (None, Some e) σ -> settles m w σ.
Proof.
  intros H. exists (None, Some e), σ. split; [exact H|]. do 2 (split; [reflexivity|]).
  right. now exists e.
Qed.

Lemma settles_log {C A : Type} (m : Go C (option A * option error)) w σ
    (rq : http.Request.t) (res : option A * option error) :
  run m w σ = Returns res (log σ rq) ->
  (exists r, res = (Some r, None)) \/ (exists e, res = (None, Some e)) ->
  settles m w σ.
Proof.
  intros H Hres. exists res, (log σ rq). split; [exact H|]. do 2 (split; [reflexivity|]).
  exact Hres.
Qed.

Ltac settle_result :=
  repeat match goal with
  | |- context [match ?x with _ => _ end] => destruct x
  end;
  first [left; eexists; reflexivity | right; eexists; reflexivity].

(** X1.  On a well-formed client every method of the Odos client returns
    (it does not panic): with a record and no error, or with an error and
    no record, whatever the world answers.  The call leaves the client
    objects and their [http.Client]s as they were. *)
Theorem odos_record_or_error `{!strconv.FloatFormat, !url.Parser}
    (w : World) (σ : state odos.OdosClient) (c : loc) (this : odos.OdosClient)
    (hc : http.Client) :
  clients σ !! c = Some this ->
  httpClients σ !! odos.httpClient this = Some hc ->
  (forall chainID tokenAddr, settles (odos.GetTokenPrice c chainID tokenAddr) w σ)
  /\ (forall req, settles (odos.Quote c req) w σ)
  /\ (forall userAddr pathId isSimulate,
        settles (odos.Assemble c userAddr pathId isSimulate) w σ).
Proof.
  intros Hc Hp. split; [|split].
  - intros chainID tokenAddr.
    pose proof (GetTokenPrice_run w σ c this hc Hc Hp chainID tokenAddr) as E. cbv zeta in E.
    destruct (url.ParseError _) as [e|]; [exact (settles_same _ _ _ _ E)|].
    apply (settles_log _ _ _ _ _ E). settle_result.
  - intros req. pose proof (Quote_run w σ c this hc Hc Hp req) as E. cbv zeta in E.
    destruct (Marshal _ req) as [jsonData|err]; [|exact (settles_same _ _ _ _ E)].
    destruct (url.ParseError _) as [e|]; [exact (settles_same _ _ _ _ E)|].
    apply (settles_log _ _ _ _ _ E). settle_result.
  - intros userAddr pathId isSimulate.
    pose proof (Assemble_run w σ c this hc Hc Hp userAddr pathId isSimulate) as E.
    cbv zeta in E.
    destruct (Marshal _ _) as [jsonData|err]; [|exact (settles_same _ _ _ _ E)].
    destruct (url.ParseError _) as [e|]; [exact (settles_same _ _ _ _ E)|].
    apply (settles_log _ _ _ _ _ E). settle_result.
Qed.

Lemma odos_record_or_error_witness :
  (forall chainID tokenAddr,
      settles (@odos.GetTokenPrice sample.accept_all 1%positive chainID tokenAddr)
        (sample.server 200 "{}" None) sample.odos_store)
  /\ (forall req,
        settles (@odos.Quote sample.exact_decimal sample.accept_all 1%positive req)
          (sample.server 200 "{}" None) sample.odos_store)
  /\ (forall userAddr pathId isSimulate,
        settles
          (@odos.Assemble sample.exact_decimal sample.accept_all 1%positive userAddr pathId
             isSimulate)
          (sample.server 200 "{}" None) sample.odos_store).
Proof.
  apply (@odos_record_or_error sample.exact_decimal sample.accept_all
           (sample.server 200 "{}" None) sample.odos_store 1%positive
           {| odos.httpClient := 1%positive; odos.baseURL := odos._baseURL |}
           {| http.Timeout := 10 * time.Second |}); reflexivity.
Defined.

(** X2.  On a well-formed client [GetRoutes] and [BuildRoute] return (they
    do not panic): with a record and no error, or with an error and no
    record, whatever the world answers.  The call leaves the client objects
    and their [http.Client]s as they were. *)
Theorem kyberswap_record_or_error `{!strconv.FloatFormat, !url.Parser}
    (w : World) (σ : state kyberswap.KyberSwapClient) (c : loc)
    (this : kyberswap.KyberSwapClient) (hc : http.Client) :
  clients σ !! c = Some this ->
  httpClients σ !! kyberswap.httpClient this = Some hc ->
  (forall tokenIn tokenOut amountIn,
      settles (kyberswap.GetRoutes c tokenIn tokenOut amountIn) w σ)
  /\ (forall routeSummary sender recipient,
        settles (kyberswap.BuildRoute c routeSummary sender recipient) w σ).
Proof.
  intros Hc Hp. split.
  - intros tokenIn tokenOut amountIn.
    pose proof (GetRoutes_run w σ c this hc Hc Hp tokenIn tokenOut amountIn) as E.
    cbv zeta in E.
    destruct (url.ParseError _) as [e|]; [exact (settles_same _ _ _ _ E)|].
    apply (settles_log _ _ _ _ _ E). settle_result.
  - intros routeSummary sender recipient.
    pose proof (BuildRoute_run w σ c this hc Hc Hp routeSummary sender recipient) as E.
    cbv zeta in E.
    destruct (Marshal _ _) as [jsonData|err]; [|exact (settles_same _ _ _ _ E)].
    destruct (url.ParseError _) as [e|]; [exact (settles_same _ _ _ _ E)|].
    apply (settles_log _ _ _ _ _ E). settle_result.
Qed.

Lemma kyberswap_record_or_error_witness :
  (forall tokenIn tokenOut amountIn,
      settles (@kyberswap.GetRoutes sample.accept_all 1%positive tokenIn tokenOut amountIn)
        sample.offline sample.kyber_store)
  /\ (forall routeSummary sender recipient,
        settles
          (@kyberswap.BuildRoute sample.exact_decimal sample.accept_all 1%positive routeSummary
             sender recipient)
          sample.offline sample.kyber_store).
Proof.
  apply (@kyberswap_record_or_error sample.exact_decimal sample.accept_all
           sample.offline sample.kyber_store 1%positive sample.kyber_client
           {| http.Timeout := 10 * time.Second |}); reflexivity.
Defined.

(** ** Failures before a response *)

Ltac show_wraps :=
  unfold wraps, fmt.Errorf; simpl; rewrite ?sapp_nil_r; split; reflexivity.





(** ** The request of each method *)







(** ** BuildRoute and a status other than 200 *)

(** X7.  When the server answers [BuildRoute] with a status other than 200,
    the body is read but never decoded.  If it is read to its end the error
    wraps nothing and its text is "unexpected status code: ", the status,
    ": " and the body as it came; if reading fails with [e], the error
    wraps [e] and its text names the status before the text of [e]. *)
Theorem BuildRoute_status_error `{!strconv.FloatFormat, !url.Parser}
    (w : World) (σ : state kyberswap.KyberSwapClient) (c : loc)
    (this : kyberswap.KyberSwapClient) (hc : http.Client)
    (routeSummary : denote kyberswap.RouteSummary) (sender recipient jsonBody : string)
    (code : Z) (body : io.Reader) :
  let url := kyberswap.baseURL this +:+ "/api/v1/route/build" in
  let rq := http.Request.with_header (request "POST" url (Some jsonBody))
              "Content-Type" "application/json" in
  clients σ !! c = Some this ->
  httpClients σ !! kyberswap.httpClient this = Some hc ->
  Marshal kyberswap.BuildRouteRequest
    (kyberswap.mkBuildRouteRequest routeSummary sender recipient
       (wrap64 (UnixNow w + 20 * 3600)) 10) = Ok jsonBody ->
  url.ParseError url = None ->
  RoundTrip w hc rq = Ok {| http.Response.StatusCode := code; http.Response.Body := body |} ->
  code <> 200 ->
  exists err,
    run (kyberswap.BuildRoute c routeSummary sender recipient) w σ
    = Returns (None, Some err) (log σ rq)
    /\ match io.err body with
       | None =>
           Unwrap err = None
           /\ Error err = "unexpected status code: " +:+ strconv.FormatInt code +:+ ": "
                          +:+ io.data body
       | Some e =>
           wraps err ("status code " +:+ strconv.FormatInt code
                      +:+ ", failed to read error response: ") e
       end.
Proof.
  intros url rq Hc Hp HM Hu Hrt Hcode.
  pose proof (BuildRoute_run w σ c this hc Hc Hp routeSummary sender recipient) as E.
  cbv zeta in E. rewrite Sprintf_build, HM in E. fold url in E. rewrite Hu in E.
  fold rq in E. rewrite Hrt in E. cbn [http.Response.StatusCode http.Response.Body] in E.
  destruct (code =? http.StatusOK) eqn:Ec; [apply Z.eqb_eq in Ec; contradiction|].
  cbn [negb] in E.
  destruct (io.err body) as [e|]; (eexists; split; [exact E|]).
  - unfold wraps, fmt.Errorf. simpl. rewrite ?sapp_assoc. simpl. rewrite ?sapp_nil_r.
    split; reflexivity.
  - unfold fmt.Errorf. simpl. rewrite ?sapp_assoc. simpl. rewrite ?sapp_nil_r.
    split; reflexivity.
Qed.

Lemma BuildRoute_status_error_witness :
  exists jsonBody err,
    @Marshal sample.exact_decimal kyberswap.BuildRouteRequest
      (kyberswap.mkBuildRouteRequest sample.route_summary "0xd46B" "0xd46B"
         (1700000000 + 20 * 3600) 10) = Ok jsonBody
    /\ run (@kyberswap.BuildRoute sample.exact_decimal sample.accept_all 1%positive
              sample.route_summary "0xd46B" "0xd46B")
         (sample.server 429 "slow down" None) sample.kyber_store
       = Returns (None, Some err)
           (log sample.kyber_store
              (http.Request.with_header
                 (request "POST"
                    "https://aggregator-api.kyberswap.com/ethereum/api/v1/route/build"
                    (Some jsonBody))
                 "Content-Type" "application/json"))
    /\ Unwrap err = None
    /\ Error err = "unexpected status code: 429: slow down".
Proof.
  eexists.
  destruct (@BuildRoute_status_error sample.exact_decimal sample.accept_all
              (sample.server 429 "slow down" None) sample.kyber_store 1%positive
              sample.kyber_client {| http.Timeout := 10 * time.Second |}
              sample.route_summary "0xd46B" "0xd46B" _ 429
              {| io.data := "slow down"; io.err := None |}
              eq_refl eq_refl eq_refl eq_refl eq_refl ltac:(discriminate))
    as (err & Hrun & Hw & Ht).
  exists err. split; [reflexivity|]. split; [exact Hrun|]. split; [exact Hw|exact Ht].
Defined.

(** ** Constructing and configuring a client *)

(** X8.  [NewClient] works on every store.  The client it returns is at a
    location that held nothing, and so is the [http.Client] it points to,
    whose timeout is ten seconds; the clients and [http.Client]s that were
    there are untouched, and nothing is sent. *)
Theorem NewClient_fresh :
  (forall (baseURL : string) (w : World) (σ : state odos.OdosClient),
      exists c σ' this,
        run (odos.NewClient baseURL) w σ = Returns c σ'
        /\ clients σ !! c = None
        /\ httpClients σ !! odos.httpClient this = None
        /\ clients σ' = <[c := this]> (clients σ)
        /\ httpClients σ' = <[odos.httpClient this := {| http.Timeout := 10 * time.Second |}]>
                              (httpClients σ)
        /\ sent σ' = sent σ)
  /\ (forall (baseURL chain : string) (w : World) (σ : state kyberswap.KyberSwapClient),
        exists c σ' this,
          run (kyberswap.NewClient baseURL chain) w σ = Returns c σ'
          /\ clients σ !! c = None
          /\ httpClients σ !! kyberswap.httpClient this = None
          /\ clients σ' = <[c := this]> (clients σ)
          /\ httpClients σ'
             = <[kyberswap.httpClient this := {| http.Timeout := 10 * time.Second |}]>
                 (httpClients σ)
          /\ sent σ' = sent σ).
Proof.
  split.
  - intros baseURL w σ.
    exists (fresh (dom (clients σ))). eexists.
    exists {| odos.httpClient := fresh (dom (httpClients σ));
         odos.baseURL := if String.eqb baseURL "" then odos._baseURL else baseURL |}.
    rewrite odos_NewClient_run.
    split; [reflexivity|]. cbn [clients httpClients sent odos.httpClient].
    split; [apply not_elem_of_dom, is_fresh|].
    split; [apply not_elem_of_dom, is_fresh|]. now repeat split.
  - intros baseURL chain w σ.
    exists (fresh (dom (clients σ))). eexists.
    exists {| kyberswap.httpClient := fresh (dom (httpClients σ));
         kyberswap.baseURL :=
           (if String.eqb baseURL "" then kyberswap._baseURL else baseURL)
           +:+ "/" +:+ (if String.eqb chain "" then "ethereum" else chain) |}.
    rewrite kyberswap_NewClient_run.
    split; [reflexivity|]. cbn [clients httpClients sent kyberswap.httpClient].
    split; [apply not_elem_of_dom, is_fresh|].
    split; [apply not_elem_of_dom, is_fresh|]. now repeat split.
Qed.

Lemma WithTimeout_run (w : World) (σ : state kyberswap.KyberSwapClient) (c : loc)
    (this : kyberswap.KyberSwapClient) (hc : http.Client) (d : Z) :
  clients σ !! c = Some this ->
  httpClients σ !! kyberswap.httpClient this = Some hc ->
  run (kyberswap.WithTimeout c d) w σ
  = Returns c {| httpClients := <[kyberswap.httpClient this := {| http.Timeout := d |}]>
                                  (httpClients σ);
                 clients := clients σ; sent := sent σ |}.
Proof.
  intros Hc Hp. unfold kyberswap.WithTimeout.
  rewrite run_bind, (run_deref _ _ _ _ Hc), run_bind.
  unfold set_Timeout; simpl. now rewrite Hp.
Qed.

(** X9.  Chained configuration: of two calls of [WithTimeout] in a row the
    second decides, the store is the one that the second call alone
    leaves. *)
Theorem WithTimeout_twice (w : World) (σ : state kyberswap.KyberSwapClient) (c : loc)
    (this : kyberswap.KyberSwapClient) (hc : http.Client) (d1 d2 : Z) :
  clients σ !! c = Some this ->
  httpClients σ !! kyberswap.httpClient this = Some hc ->
  run (c' ← kyberswap.WithTimeout c d1; kyberswap.WithTimeout c' d2) w σ
  = run (kyberswap.WithTimeout c d2) w σ.
Proof.
  intros Hc Hp. rewrite run_bind, (WithTimeout_run _ _ _ _ _ d1 Hc Hp).
  erewrite (WithTimeout_run _ _ _ this _ d2); [|exact Hc|cbn; apply lookup_insert_eq].
  rewrite (WithTimeout_run _ _ _ _ _ d2 Hc Hp). cbn [httpClients clients sent].
  now rewrite insert_insert_eq.
Qed.

Lemma WithTimeout_twice_witness :
  run (c' ← kyberswap.WithTimeout 1%positive (3 * time.Second);
       kyberswap.WithTimeout c' (30 * time.Second)) sample.offline sample.kyber_store
  = run (kyberswap.WithTimeout 1%positive (30 * time.Second)) sample.offline sample.kyber_store.
Proof.
  apply (WithTimeout_twice sample.offline sample.kyber_store 1%positive sample.kyber_client
           {| http.Timeout := 10 * time.Second |}); reflexivity.
Defined.

(** X10.  A client made by [NewClient] and given the timeout [d] by
    [WithTimeout] calls the server with an [http.Client] of timeout [d]:
    on every store, when [url.Parse] accepts the URL, the three calls in a
    row return what [GetRoutes] makes of the answer that this
    [http.Client] gives to the GET for the URL built from the base URL and
    the chain (or their defaults) and the three arguments. *)
Theorem NewClient_WithTimeout_GetRoutes `{!strconv.FloatFormat, !url.Parser}
    (baseURL chain : string) (d : Z) (tokenIn tokenOut amountIn : string)
    (w : World) (σ : state kyberswap.KyberSwapClient) :
  let url := (if String.eqb baseURL "" then "https://aggregator-api.kyberswap.com" else baseURL)
             +:+ "/" +:+ (if String.eqb chain "" then "ethereum" else chain)
             +:+ "/api/v1/routes?tokenIn=" +:+ tokenIn +:+ "&tokenOut=" +:+ tokenOut
             +:+ "&amountIn=" +:+ amountIn in
  url.ParseError url = None ->
  exists σ',
    run (c ← kyberswap.NewClient baseURL chain;
         c' ← kyberswap.WithTimeout c d;
         kyberswap.GetRoutes c' tokenIn tokenOut amountIn) w σ
    = Returns
        match RoundTrip w {| http.Timeout := d |} (request "GET" url None) with
        | Err err => (None, Some (fmt.Errorf "error sending request: %w" [fmt.W_ err]))
        | Ok resp =>
            if negb (http.Response.StatusCode resp =? http.StatusOK) then
              (None, Some (fmt.Errorf "unexpected status code: %d"
                             [fmt.D_ (http.Response.StatusCode resp)]))
            else
              match Decode kyberswap.RouteResponse (http.Response.Body resp)
                      (zero kyberswap.RouteResponse) with
              | Err err => (None, Some (fmt.Errorf "error decoding response: %w" [fmt.W_ err]))
              | Ok routeResp => (Some routeResp, None)
              end
        end σ'.
Proof.
  intros url Hu.
  rewrite run_bind, kyberswap_NewClient_run. cbv zeta.
  set (p := fresh (dom (httpClients σ))). set (c := fresh (dom (clients σ))).
  set (this := {| kyberswap.httpClient := p; kyberswap.baseURL := _ |}).
  set (σ1 := {| httpClients := _; clients := _; sent := sent σ |}).
  assert (Hc : clients σ1 !! c = Some this) by apply lookup_insert_eq.
  assert (Hp : httpClients σ1 !! kyberswap.httpClient this
               = Some {| http.Timeout := 10 * time.Second |}) by apply lookup_insert_eq.
  rewrite run_bind, (WithTimeout_run w σ1 c this _ d Hc Hp).
  set (σ2 := {| httpClients := _; clients := clients σ1; sent := sent σ1 |}).
  assert (Hp2 : httpClients σ2 !! kyberswap.httpClient this = Some {| http.Timeout := d |})
    by apply lookup_insert_eq.
  rewrite (GetRoutes_run w σ2 c this _ Hc Hp2). cbv zeta.
  rewrite Sprintf_routes. unfold this at 1 2 3. cbn [kyberswap.baseURL].
  rewrite !sapp_assoc. cbn [String.append].
  change (url.ParseError _) with (url.ParseError url). rewrite Hu.
  eexists. reflexivity.
Qed.

(** A world in which only an [http.Client] with a timeout of three
    seconds gets an answer. *)
Lemma NewClient_WithTimeout_GetRoutes_witness :
  exists σ',
    run (c ← @kyberswap.NewClient "" "";
         c' ← kyberswap.WithTimeout c (3 * time.Second);
         @kyberswap.GetRoutes sample.accept_all c' "0xdac1" "0x9D39" "100")
      {| UnixNow := 1700000000;
         RoundTrip := fun hc _ =>
           if http.Timeout hc =? 3 * time.Second then
             Ok {| http.Response.StatusCode := 200;
                   http.Response.Body := {| io.data := "{}"; io.err := None |} |}
           else Err (errorString "context deadline exceeded") |}
      sample.empty
    = Returns (Some (zero kyberswap.RouteResponse), None) σ'.
Proof.
  exact (@NewClient_WithTimeout_GetRoutes sample.exact_decimal sample.accept_all "" ""
           (3 * time.Second) "0xdac1" "0x9D39" "100"
           {| UnixNow := 1700000000;
              RoundTrip := fun hc _ =>
                if http.Timeout hc =? 3 * time.Second then
                  Ok {| http.Response.StatusCode := 200;
                        http.Response.Body := {| io.data := "{}"; io.err := None |} |}
                else Err (errorString "context deadline exceeded") |}
           sample.empty eq_refl).
Defined.

(** ** What the encoder refuses, and what the decoder yields *)

Lemma ParseFloat_finite (s : string) (f : strconv.float64) :
  strconv.ParseFloat s = Some f -> strconv.IsFinite f = true.
Proof.
  unfold strconv.ParseFloat.
  repeat match goal with
  | |- context [match ?x with _ => _ end] => destruct x eqn:?
  end; try discriminate; intros [= <-]; reflexivity.
Qed.

Lemma mapM_forallb {A B : Type} (f : A -> result B) (p : A -> bool) (Q : error -> Prop)
    (l : list A) :
  Forall (fun a => match f a with Ok _ => p a = true | Err e => p a = false /\ Q e end) l ->
  match mapM f l with
  | Ok _ => forallb p l = true
  | Err e => forallb p l = false /\ Q e
  end.
Proof.
  induction 1 as [|a l Ha _ IH]; [reflexivity|]. cbn [mapM forallb].
  destruct (f a) as [b|e]; cbn [mbind result_bind].
  - rewrite Ha. destruct (mapM f l) as [bs|e]; cbn [mbind result_bind]; exact IH.
  - destruct Ha as [-> HQ]. now split.
Qed.

Section Encodable.
Context `{!strconv.FloatFormat}.

Lemma any_toJSON_encodable (a : any) :
  match any_toJSON a with
  | Ok _ => any_encodable a = true
  | Err e => any_encodable a = false /\ refused e
  end.
Proof.
  induction a as [ |b|f|s|l IH|m IH] using any_ind; try reflexivity.
  - cbn [any_toJSON any_encodable]. unfold float_toJSON.
    destruct (strconv.IsFinite f) eqn:E; [reflexivity|]. split; [reflexivity|]. now exists f.
  - rewrite any_toJSON_aslice. cbn [any_encodable].
    pose proof (mapM_forallb any_toJSON any_encodable refused l IH) as G.
    destruct (mapM any_toJSON l); exact G.
  - rewrite any_toJSON_amap. cbn [any_encodable].
    pose proof (mapM_forallb (fun kx => v ← any_toJSON (snd kx); Ok (fst kx, v))
                  (fun kv => any_encodable (snd kv)) refused m) as G.
    destruct (mapM _ m); apply G; (eapply Forall_impl; [exact IH|]);
      intros kv Hkv; cbv beta in Hkv |- *; destruct (any_toJSON (snd kv)); exact Hkv.
Qed.

(** [Marshal] refuses a value exactly when one of its floating-point
    numbers is not finite, and the error it gives is the
    [UnsupportedValueError] of such a number. *)
Lemma toJSON_encodable :
  (forall t (v : denote t),
     match toJSON t v with
     | Ok _ => encodable t v = true
     | Err e => encodable t v = false /\ refused e
     end)
  /\ (forall fs (v : denote_fields fs),
        match toJSON_fields fs v with
        | Ok _ => encodable_fields fs v = true
        | Err e => encodable_fields fs v = false /\ refused e
        end).
Proof.
  apply gotype_mutind; try (intros; reflexivity).
  - intros v. cbn [toJSON encodable]. unfold float_toJSON.
    destruct (strconv.IsFinite v) eqn:E; [reflexivity|]. split; [reflexivity|]. now exists v.
  - exact any_toJSON_encodable.
  - intros e IH [l|]; [|reflexivity]. cbn [toJSON encodable].
    pose proof (mapM_forallb (toJSON e) (encodable e) refused l) as G.
    destruct (mapM (toJSON e) l); apply G, Forall_forall; intros x _; apply IH.
  - intros e IH [x|]; [|reflexivity]. apply IH.
  - intros name fs IH v. cbn [toJSON encodable]. specialize (IH v).
    destruct (toJSON_fields fs v); exact IH.
  - intros g tag t IHt r IHr [x vr]. cbn [toJSON_fields encodable_fields fst snd].
    specialize (IHt x). specialize (IHr vr).
    destruct (toJSON t x) as [j|e]; cbn [mbind result_bind].
    + rewrite IHt. destruct (toJSON_fields r vr); exact IHr.
    + destruct IHt as [-> HQ]. now split.
Qed.

End Encodable.

Lemma zero_encodable :
  (forall t, encodable t (zero t) = true)
  /\ (forall fs, encodable_fields fs (zero_fields fs) = true).
Proof.
  apply gotype_mutind; try reflexivity.
  - intros name fs IH. exact IH.
  - intros g tag t IHt r IHr. cbn [zero_fields encodable_fields fst snd]. now rewrite IHt, IHr.
Qed.

Lemma map_insert_forallb {A : Type} (p : string * A -> bool) (k : string) (x : A)
    (m : list (string * A)) :
  p (k, x) = true -> forallb p m = true -> forallb p (map_insert k x m) = true.
Proof.
  intros Hx. induction m as [|kv m IH]; cbn [map_insert forallb]; [now rewrite Hx|].
  intros [Hkv Hm]%andb_true_iff.
  destruct (String.compare k (fst kv)); cbn [forallb]; rewrite ?Hx, ?Hkv, ?Hm, ?(IH Hm);
    reflexivity.
Qed.

(** What the decoder puts into an [interface{}] the encoder accepts. *)
Lemma to_any_encodable (j : value) :
  forall a, to_any j = Ok a -> any_encodable a = true.
Proof.
  induction j as [ |b|lit|s|vs IH|ms IH] using value_ind; intros a.
  - now intros [= <-].
  - now intros [= <-].
  - cbn [to_any]. destruct (strconv.ParseFloat lit) as [f|] eqn:E; [|discriminate].
    intros [= <-]. exact (ParseFloat_finite _ _ E).
  - now intros [= <-].
  - rewrite to_any_Arr. intros (l & Hl & [= <-])%bind_Ok. cbn [any_encodable].
    revert l Hl. induction IH as [|v vs Hv _ IHvs]; intros l.
    + now intros [= <-].
    + cbn [mapM]. intros (x & Hx & (xs & Hxs & [= <-])%bind_Ok)%bind_Ok.
      cbn [forallb]. now rewrite (Hv _ Hx), (IHvs _ Hxs).
  - cbn [to_any]. intros (m & Hm & [= <-])%bind_Ok. cbn [any_encodable].
    revert Hm. generalize (@nil (string * any)) (eq_refl : forallb (fun kv : string * any =>
      any_encodable (snd kv)) [] = true).
    induction IH as [|kv ms Hkv _ IHms]; intros acc Hacc.
    + now intros [= <-].
    + intros (x & Hx & Hgo)%bind_Ok.
      apply (IHms (map_insert (fst kv) x acc)); [|exact Hgo].
      apply map_insert_forallb; [exact (Hkv _ Hx)|exact Hacc].
Qed.

(** Decoding into a variable whose value the encoder accepts leaves a
    value that the encoder accepts. *)
Lemma fromJSON_encodable :
  (forall t j (old v : denote t),
     fromJSON t j old = Ok v -> encodable t old = true -> encodable t v = true)
  /\ (forall fs tag j (old v : denote_fields fs),
        fromJSON_field fs tag j old = Ok v ->
        encodable_fields fs old = true -> encodable_fields fs v = true).
Proof.
  apply gotype_mutind; try (intros; reflexivity).
  - intros j old v. cbn [fromJSON]. destruct j; try discriminate; [now intros [= <-]|].
    destruct (strconv.ParseFloat lit) as [f|] eqn:E; [|discriminate].
    intros [= <-] _. exact (ParseFloat_finite _ _ E).
  - intros j old v H _. exact (to_any_encodable j v H).
  - intros e IH j old v. cbn [fromJSON]. destruct j as [ | | | |js| ]; try discriminate.
    { now intros [= <-]. }
    match goal with |- context [decode_elems _ _ _ ?o] => set (ol := o) end.
    intros (l & Hl & [= <-])%bind_Ok Hold. cbn [encodable].
    assert (Hol : forallb (encodable e) ol = true)
      by (unfold ol; destruct old; [exact Hold|reflexivity]).
    clearbody ol. clear Hold. revert ol l Hl Hol.
    induction js as [|j js IHjs]; intros ol l.
    + now intros [= <-].
    + cbn [decode_elems]. intros (x & Hx & (xs & Hxs & [= <-])%bind_Ok)%bind_Ok Hol.
      cbn [forallb]. apply andb_true_iff. split.
      * apply (IH _ _ _ Hx). destruct ol as [|a ol]; [apply zero_encodable|].
        cbn [forallb] in Hol. now apply andb_true_iff in Hol as [-> _].
      * apply (IHjs _ _ Hxs). destruct ol as [|a ol]; [reflexivity|].
        cbn [forallb] in Hol. now apply andb_true_iff in Hol as [_ ->].
  - intros e IH j old v. cbn [fromJSON].
    assert (G : (x ← fromJSON e j (match old with Some x => x | None => zero e end);
                 Ok (Some x)) = Ok v -> encodable (TPtr e) old = true ->
                encodable (TPtr e) v = true).
    { intros (x & Hx & [= <-])%bind_Ok Hold. cbn [encodable]. apply (IH _ _ _ Hx).
      destruct old; [exact Hold|apply zero_encodable]. }
    destruct j; try exact G. now intros [= <-].
  - intros name fs IH j old v. cbn [fromJSON]. destruct j as [ | | | | |ms]; try discriminate.
    { now intros [= <-]. }
    cbn [encodable]. revert old. induction ms as [|kv ms IHms]; intros old.
    + now intros [= <-].
    + cbn [decode_members]. destruct (find_field fs (fst kv)) as [tag|]; [|apply IHms].
      intros (x & Hx & Hrest)%bind_Ok Hold. apply (IHms _ Hrest). exact (IH _ _ _ _ Hx Hold).
  - intros g tag' t IHt r IHr tag j [ox or] v. cbn [fromJSON_field fst snd encodable_fields].
    destruct (String.eqb tag' tag).
    + intros (x & Hx & [= <-])%bind_Ok [Hox Hor]%andb_true_iff.
      cbn [fst snd]. now rewrite (IHt _ _ _ Hx Hox), Hor.
    + intros (y & Hy & [= <-])%bind_Ok [Hox Hor]%andb_true_iff.
      cbn [fst snd]. now rewrite Hox, (IHr _ _ _ _ Hy Hor).
Qed.

Lemma Marshal_encodable `{!strconv.FloatFormat} (t : gotype) (v : denote t) :
  match Marshal t v with
  | Ok _ => encodable t v = true
  | Err e => encodable t v = false /\ refused e
  end.
Proof.
  unfold Marshal. pose proof (proj1 toJSON_encodable t v) as G.
  destruct (toJSON t v); exact G.
Qed.

Lemma Decode_fromJSON (t : gotype) (r : io.Reader) (old v : denote t) :
  Decode t r old = Ok v -> exists j, fromJSON t j old = Ok v.
Proof. unfold Decode. intros (j & _ & H)%bind_Ok. now exists j. Qed.

Lemma Unmarshal_fromJSON (t : gotype) (data : string) (old v : denote t) :
  Unmarshal t data old = Ok v -> exists j, fromJSON t j old = Ok v.
Proof. intros (j & _ & _ & _ & H)%Unmarshal_Ok. now exists j. Qed.

Lemma decoded_marshals `{!strconv.FloatFormat} (t : gotype) (j : value) (v : denote t) :
  fromJSON t j (zero t) = Ok v -> exists text, Marshal t v = Ok text.
Proof.
  intros Hj. pose proof (proj1 fromJSON_encodable t j _ v Hj (proj1 zero_encodable t)) as E.
  pose proof (Marshal_encodable t v) as G.
  destruct (Marshal t v) as [text|e]; [now exists text|]. destruct G as [G _]. congruence.
Qed.

Ltac returned_record E :=
  repeat match type of E with
  | context [match ?x with _ => _ end] => destruct x eqn:?
  | context [if ?x then _ else _] => destruct x eqn:?
  end;
  try discriminate E; injection E as <- _.

(** X11.  [Quote] marshals its request first.  If one of the numbers of the
    request is a NaN or an infinity, nothing is sent and the error wraps the
    encoder's [UnsupportedValueError]; in every other case, a [nil] request
    included, marshalling succeeds. *)
Theorem Quote_marshal `{!strconv.FloatFormat, !url.Parser}
    (w : World) (σ : state odos.OdosClient) (c : loc) (this : odos.OdosClient)
    (hc : http.Client) (req : denote (TPtr odos.QuoteRequest)) :
  clients σ !! c = Some this ->
  httpClients σ !! odos.httpClient this = Some hc ->
  if encodable (TPtr odos.QuoteRequest) req then
    exists jsonData, Marshal (TPtr odos.QuoteRequest) req = Ok jsonData
  else
    exists err cause,
      run (odos.Quote c req) w σ = Returns (None, Some err) σ
      /\ wraps err "failed to marshal request: " cause
      /\ refused cause.
Proof.
  intros Hc Hp. pose proof (Marshal_encodable (TPtr odos.QuoteRequest) req) as G.
  pose proof (Quote_run w σ c this hc Hc Hp req) as E. cbv zeta in E.
  destruct (Marshal (TPtr odos.QuoteRequest) req) as [jsonData|cause].
  - rewrite G. now exists jsonData.
  - destruct G as [-> Hr]. eexists _, cause. split; [exact E|]. split; [show_wraps|exact Hr].
Qed.

Lemma Quote_marshal_witness :
  exists err cause,
    run (@odos.Quote sample.exact_decimal sample.accept_all 1%positive
           (Some (1, (None, (None, (S754_nan,
                    snd (snd (snd (snd (zero odos.QuoteRequest))))))))))
      (sample.server 200 "{}" None) sample.odos_store
    = Returns (None, Some err) sample.odos_store
    /\ wraps err "failed to marshal request: " cause
    /\ refused cause.
Proof.
  exact (@Quote_marshal sample.exact_decimal sample.accept_all
           (sample.server 200 "{}" None) sample.odos_store 1%positive
           {| odos.httpClient := 1%positive; odos.baseURL := odos._baseURL |}
           {| http.Timeout := 10 * time.Second |}
           (Some (1, (None, (None, (S754_nan,
                    snd (snd (snd (snd (zero odos.QuoteRequest)))))))))
           eq_refl eq_refl).
Defined.

(** X12.  [BuildRoute] marshals its request before it touches the client.  If
    a number in the route summary (they are all under a field [Extra]) is
    a NaN or an infinity, the call returns an error that wraps the
    encoder's [UnsupportedValueError], on every store, a store without the
    client included, and nothing is sent. *)
Theorem BuildRoute_marshal `{!strconv.FloatFormat, !url.Parser}
    (w : World) (σ : state kyberswap.KyberSwapClient) (c : loc)
    (routeSummary : denote kyberswap.RouteSummary) (sender recipient : string) :
  encodable kyberswap.RouteSummary routeSummary = false ->
  exists err cause,
    run (kyberswap.BuildRoute c routeSummary sender recipient) w σ
    = Returns (None, Some err) σ
    /\ wraps err "error marshaling request: " cause
    /\ refused cause.
Proof.
  intros He. unfold kyberswap.BuildRoute. rewrite run_bind. unfold time_Now_Unix at 1.
  cbn [run].
  set (reqBody := kyberswap.mkBuildRouteRequest _ _ _ _ _).
  pose proof (Marshal_encodable kyberswap.BuildRouteRequest reqBody) as G.
  destruct (Marshal kyberswap.BuildRouteRequest reqBody) as [jsonBody|cause].
  - exfalso. unfold reqBody, kyberswap.mkBuildRouteRequest in G.
    change (encodable kyberswap.RouteSummary routeSummary && true = true) in G.
    rewrite He in G. discriminate.
  - destruct G as [_ Hr]. eexists _, cause. split; [reflexivity|].
    split; [show_wraps|exact Hr].
Qed.

Lemma BuildRoute_marshal_witness :
  exists err cause,
    run (@kyberswap.BuildRoute sample.exact_decimal sample.accept_all 7%positive
           sample.route_summary_nan "0xd46B" "0xd46B")
      sample.offline sample.empty
    = Returns (None, Some err) sample.empty
    /\ wraps err "error marshaling request: " cause
    /\ refused cause.
Proof.
  exact (@BuildRoute_marshal sample.exact_decimal sample.accept_all sample.offline
           sample.empty 7%positive sample.route_summary_nan "0xd46B" "0xd46B" eq_refl).
Defined.

(** ** Records that the methods return *)

(** X13.  A record that a method of the Odos client returns can be marshalled
    (the tests marshal what they get and drop the error): the decoder puts
    no number into a record that the encoder refuses. *)
Theorem odos_results_marshal `{!strconv.FloatFormat, !url.Parser}
    (w : World) (σ : state odos.OdosClient) (c : loc) (this : odos.OdosClient)
    (hc : http.Client) :
  clients σ !! c = Some this ->
  httpClients σ !! odos.httpClient this = Some hc ->
  (forall chainID tokenAddr got σ',
      run (odos.GetTokenPrice c chainID tokenAddr) w σ = Returns (Some got, None) σ' ->
      exists text, Marshal odos.PriceResponse got = Ok text)
  /\ (forall req got σ',
        run (odos.Quote c req) w σ = Returns (Some got, None) σ' ->
        exists text, Marshal odos.QuoteResponse got = Ok text)
  /\ (forall userAddr pathId isSimulate got σ',
        run (odos.Assemble c userAddr pathId isSimulate) w σ = Returns (Some got, None) σ' ->
        exists text, Marshal odos.AssembleResponse got = Ok text).
Proof.
  intros Hc Hp. split; [|split].
  - intros chainID tokenAddr got σ' E.
    rewrite (GetTokenPrice_run w σ c this hc Hc Hp) in E. cbv zeta in E.
    returned_record E.
    match goal with Hd : Decode _ _ _ = Ok _ |- _ =>
      apply Decode_fromJSON in Hd as (j & Hj); exact (decoded_marshals _ _ _ Hj) end.
  - intros req got σ' E.
    rewrite (Quote_run w σ c this hc Hc Hp) in E. cbv zeta in E.
    returned_record E.
    match goal with Hd : Decode _ _ _ = Ok _ |- _ =>
      apply Decode_fromJSON in Hd as (j & Hj); exact (decoded_marshals _ _ _ Hj) end.
  - intros userAddr pathId isSimulate got σ' E.
    rewrite (Assemble_run w σ c this hc Hc Hp) in E. cbv zeta in E.
    returned_record E.
    match goal with Hd : Unmarshal _ _ _ = Ok _ |- _ =>
      apply Unmarshal_fromJSON in Hd as (j & Hj); exact (decoded_marshals _ _ _ Hj) end.
Qed.

(** The server answers [GetTokenPrice] with a price of [2.5e-1]: the
    record returned holds the number 0.25, and can be marshalled. *)
Lemma odos_results_marshal_witness :
  run (@odos.GetTokenPrice sample.accept_all 1%positive "1" "0x6B17")
    (sample.server 200 sample.price_body None) sample.odos_store
  = Returns (Some sample.price_response, None)
      (log sample.odos_store
         (request "GET" "https://api.odos.xyz/pricing/token/1/0x6B17" None))
  /\ exists text,
       @Marshal sample.exact_decimal odos.PriceResponse sample.price_response = Ok text.
Proof.
  assert (E : run (@odos.GetTokenPrice sample.accept_all 1%positive "1" "0x6B17")
                (sample.server 200 sample.price_body None) sample.odos_store
              = Returns (Some sample.price_response, None)
                  (log sample.odos_store
                     (request "GET" "https://api.odos.xyz/pricing/token/1/0x6B17" None)))
    by (vm_compute; reflexivity).
  split; [exact E|].
  destruct (@odos_results_marshal sample.exact_decimal sample.accept_all
              (sample.server 200 sample.price_body None) sample.odos_store 1%positive
              {| odos.httpClient := 1%positive; odos.baseURL := odos._baseURL |}
              {| http.Timeout := 10 * time.Second |} eq_refl eq_refl) as [H _].
  exact (H "1" "0x6B17" sample.price_response _ E).
Defined.

(** X14.  The flow of the KyberSwap test: the route summary of a response
    that [GetRoutes] returned is handed to [BuildRoute].  Marshalling the
    request around it cannot fail, so (when [url.Parse] accepts the URL)
    [BuildRoute] gets as far as handing its POST, with that body, to the
    [http.Client].  The record that [BuildRoute] returns can be marshalled
    as well. *)
Theorem GetRoutes_then_BuildRoute `{!strconv.FloatFormat, !url.Parser}
    (w w' : World) (σ σ' : state kyberswap.KyberSwapClient) (c : loc)
    (this : kyberswap.KyberSwapClient) (hc : http.Client)
    (tokenIn tokenOut amountIn sender recipient : string)
    (got : denote kyberswap.RouteResponse) :
  let url := kyberswap.baseURL this +:+ "/api/v1/route/build" in
  clients σ !! c = Some this ->
  httpClients σ !! kyberswap.httpClient this = Some hc ->
  run (kyberswap.GetRoutes c tokenIn tokenOut amountIn) w σ = Returns (Some got, None) σ' ->
  url.ParseError url = None ->
  exists jsonBody res,
    Marshal kyberswap.BuildRouteRequest
      (kyberswap.mkBuildRouteRequest (kyberswap.Data_RouteSummary got) sender recipient
         (wrap64 (UnixNow w' + 20 * 3600)) 10) = Ok jsonBody
    /\ run (kyberswap.BuildRoute c (kyberswap.Data_RouteSummary got) sender recipient) w' σ'
       = Returns res
           (log σ' (http.Request.with_header (request "POST" url (Some jsonBody))
                      "Content-Type" "application/json"))
    /\ forall built, fst res = Some built ->
                     exists text, Marshal kyberswap.BuildRouteResponse built = Ok text.
Proof.
  intros url Hc Hp E Hu.
  rewrite (GetRoutes_run w σ c this hc Hc Hp) in E. cbv zeta in E.
  destruct (url.ParseError _) as [e|] eqn:Hu1; [discriminate|].
  injection E as E <-.
  destruct (RoundTrip w hc _) as [resp|err]; [|discriminate].
  destruct (negb _); [discriminate|].
  destruct (Decode _ _ _) as [got'|err] eqn:Hd; [|discriminate]. injection E as ->.
  apply Decode_fromJSON in Hd as (j & Hj).
  pose proof (proj1 fromJSON_encodable _ j _ got Hj (proj1 zero_encodable _)) as Henc.
  set (reqBody := kyberswap.mkBuildRouteRequest _ sender recipient _ 10).
  assert (Hreq : encodable kyberswap.BuildRouteRequest reqBody = true).
  { destruct got as (code & msg & ((summary & ra & []) & rid & [])).
    change (encodable kyberswap.RouteSummary summary && true && true = true) in Henc.
    change (encodable kyberswap.RouteSummary summary && true = true).
    now rewrite andb_true_r in Henc. }
  pose proof (Marshal_encodable kyberswap.BuildRouteRequest reqBody) as G.
  destruct (Marshal kyberswap.BuildRouteRequest reqBody) as [jsonBody|cause] eqn:HM;
    [|destruct G; congruence].
  set (σ1 := log σ _).
  pose proof (BuildRoute_run w' σ1 c this hc Hc Hp (kyberswap.Data_RouteSummary got)
                sender recipient) as E.
  cbv zeta in E. fold reqBody in E. rewrite HM, Sprintf_build in E. fold url in E.
  rewrite Hu in E.
  eexists jsonBody, _. split; [reflexivity|]. split; [exact E|].
  intros built Hb.
  repeat match type of Hb with
  | context [match ?x with _ => _ end] => destruct x eqn:?
  | context [if ?x then _ else _] => destruct x eqn:?
  end; try discriminate Hb. injection Hb as <-.
  match goal with Hd : Decode _ _ _ = Ok _ |- _ =>
    apply Decode_fromJSON in Hd as (j' & Hj'); exact (decoded_marshals _ _ _ Hj') end.
Qed.

(** [GetRoutes] gets a response with a route whose [Extra] holds a number
    and nested values; [BuildRoute], called with its route summary, gets a
    built route with a number under [outputChange]. *)
Lemma GetRoutes_then_BuildRoute_witness :
  run (@kyberswap.GetRoutes sample.accept_all 1%positive "0xdac1" "0x9D39" "100")
    (sample.server 200 sample.route_body None) sample.kyber_store
  = Returns (Some sample.route_response, None)
      (log sample.kyber_store
         (request "GET"
            ("https://aggregator-api.kyberswap.com/ethereum/api/v1/routes"
             +:+ "?tokenIn=0xdac1&tokenOut=0x9D39&amountIn=100") None))
  /\ exists jsonBody res,
       @Marshal sample.exact_decimal kyberswap.BuildRouteRequest
         (kyberswap.mkBuildRouteRequest sample.route_summary "0xd46B" "0xd46B"
            (wrap64 (1700000000 + 20 * 3600)) 10) = Ok jsonBody
       /\ run (@kyberswap.BuildRoute sample.exact_decimal sample.accept_all 1%positive
                 sample.route_summary "0xd46B" "0xd46B")
            (sample.server 200 sample.build_body None)
            (log sample.kyber_store
               (request "GET"
                  ("https://aggregator-api.kyberswap.com/ethereum/api/v1/routes"
                   +:+ "?tokenIn=0xdac1&tokenOut=0x9D39&amountIn=100") None))
          = Returns res
              (log (log sample.kyber_store
                      (request "GET"
                         ("https://aggregator-api.kyberswap.com/ethereum/api/v1/routes"
                          +:+ "?tokenIn=0xdac1&tokenOut=0x9D39&amountIn=100") None))
                 (http.Request.with_header
                    (request "POST"
                       "https://aggregator-api.kyberswap.com/ethereum/api/v1/route/build"
                       (Some jsonBody))
                    "Content-Type" "application/json"))
       /\ forall built, fst res = Some built ->
                        exists text,
                          @Marshal sample.exact_decimal kyberswap.BuildRouteResponse built
                          = Ok text.
Proof.
  assert (E : run (@kyberswap.GetRoutes sample.accept_all 1%positive "0xdac1" "0x9D39" "100")
                (sample.server 200 sample.route_body None) sample.kyber_store
              = Returns (Some sample.route_response, None)
                  (log sample.kyber_store
                     (request "GET"
                        ("https://aggregator-api.kyberswap.com/ethereum/api/v1/routes"
                         +:+ "?tokenIn=0xdac1&tokenOut=0x9D39&amountIn=100") None)))
    by (vm_compute; reflexivity).
  split; [exact E|].
  exact (@GetRoutes_then_BuildRoute sample.exact_decimal sample.accept_all
           (sample.server 200 sample.route_body None)
           (sample.server 200 sample.build_body None)
           sample.kyber_store _ 1%positive sample.kyber_client
           {| http.Timeout := 10 * time.Second |} "0xdac1" "0x9D39" "100" "0xd46B" "0xd46B"
           sample.route_response eq_refl eq_refl E eq_refl).
Defined.

(** ** Strings that are not UTF-8 *)

(** [unquote] reads the text of the encoder as the string coerced to
    valid UTF-8. *)
Lemma unquote_loop_coerce (n : nat) (s : string) (fuel : nat) :
  (len s <= n)%nat -> (len (appendString_loop n s) <= fuel)%nat ->
  unquote_loop fuel (appendString_loop n s) = Some (coerce_loop n s).
Proof.
  revert s fuel. induction n as [|n IH]; intros s fuel Hn Hf.
  { destruct s; [now destruct fuel|simpl in Hn; lia]. }
  destruct s as [|c r]; [now destruct fuel|].
  destruct (byte_val c <? utf8.RuneSelf) eqn:Hc.
  { simpl in Hn. rewrite (appendString_loop_ascii _ _ _ Hc) in Hf |- *.
    rewrite len_sapp in Hf. pose proof (len_ascii_piece c) as Hp.
    destruct fuel as [|fuel]; [lia|]. cbn [coerce_loop]. rewrite Hc.
    rewrite (unquote_loop_ascii _ _ _ Hc), (IH r fuel); [reflexivity|lia|lia]. }
  revert Hf. cbn [appendString_loop coerce_loop]. rewrite Hc.
  destruct (utf8.DecodeRune (String c r)) as [rr size] eqn:D.
  destruct ((rr =? utf8.RuneError) && (size =? 1)%nat) eqn:E.
  { apply andb_true_iff in E as [_ ->%Nat.eqb_eq]. cbn [drop_bytes]. simpl in Hn.
    intros Hf. destruct fuel as [|fuel]; [simpl in Hf; lia|].
    assert (G : forall X, unquote_loop (S fuel) (String "\" "ufffd" +:+ X)
                = prepend (utf8.EncodeRune utf8.RuneError) (unquote_loop fuel X))
      by reflexivity.
    rewrite G, (IH r fuel); [reflexivity|lia|]. simpl in Hf. lia. }
  destruct (DecodeRune_multibyte _ _ _ _ D E ltac:(lia))
    as (pre & Hs & Hl & H2 & He & Hh & Hx).
  assert (Hlen : len (String c r) = (size + len (drop_bytes size (String c r)))%nat).
  { rewrite Hs at 1. now rewrite len_sapp, Hl. }
  assert (Ht : take_bytes size (String c r) = pre).
  { rewrite Hs, <- Hl. apply take_bytes_app. }
  assert (Hpre : exists pre', pre = String c pre').
  { destruct pre as [|c' pre']; [simpl in Hl; lia|]. injection Hs as -> _. now eexists. }
  destruct Hpre as (pre' & Hpre). rewrite Ht.
  destruct ((rr =? 0x2028) || (rr =? 0x2029)) eqn:L.
  - intros Hf. destruct fuel as [|fuel]; [simpl in Hf; lia|].
    assert (G : forall X, unquote_loop (S fuel)
                 ("\u202" +:+ String (hex (Z.land rr 0xF)) X)
               = prepend (utf8.EncodeRune rr) (unquote_loop fuel X)).
    { intros X. apply orb_true_iff in L as [->%Z.eqb_eq| ->%Z.eqb_eq]; reflexivity. }
    rewrite G, He, (IH _ fuel); [reflexivity|lia|].
    simpl in Hf. lia.
  - set (X := appendString_loop n _). intros Hf. rewrite len_sapp in Hf.
    destruct fuel as [|fuel]; [lia|].
    assert (G : unquote_loop (S fuel) (pre +:+ X)
               = prepend (utf8.EncodeRune rr) (unquote_loop fuel X)).
    { destruct (Hx X) as [HD Hdrop]. rewrite Hpre in HD, Hdrop |- *.
      cbn [String.append unquote_loop].
      change (String c (pre' +:+ X)) with (String c pre' +:+ X). rewrite HD, Hdrop.
      destruct (Ascii.eqb_spec c "\") as [->|_]; [vm_compute in Hc; discriminate|].
      destruct (Ascii.eqb_spec c dquote) as [->|_]; [vm_compute in Hc; discriminate|].
      destruct (byte_val c <? 32) eqn:E32; [unfold utf8.RuneSelf in Hc; lia|].
      cbn [orb]. now rewrite Hc. }
    rewrite G, He. unfold X. rewrite (IH _ fuel); [reflexivity|lia|].
    fold X. lia.
Qed.

Lemma unquote_coerce (s : string) :
  unquote (appendString_loop (len s) s) = Some (coerce s).
Proof. unfold unquote, coerce. now apply unquote_loop_coerce. Qed.

(** A string of well-formed runes is coerced to itself. *)
Lemma coerce_valid (s : string) : utf8.ValidString s = true -> coerce s = s.
Proof.
  intros Hv%ValidString_Valid.
  pose proof (unquote_coerce s) as H1. rewrite (unquote_appendString s Hv) in H1. congruence.
Qed.

Lemma scan_value_Str_coerce (d : Z) (s rest : string) :
  scan_value 1 d (appendString s +:+ rest) = Parsed (Str (coerce s)) rest.
Proof.
  rewrite appendString_app, scan_value_S.
  rewrite skip_space_head by reflexivity.
  change (Ascii.eqb dquote "{") with false. change (Ascii.eqb dquote "[") with false.
  change (Ascii.eqb dquote dquote) with true. cbv iota.
  rewrite scan_string_appendString. cbn [bind_scanned].
  now rewrite unquote_coerce.
Qed.

Lemma print_head_printable (d : Z) (j : value) :
  printable d j = true ->
  exists c r, print j = String c r /\ isSpace c = false /\ Ascii.eqb c "]" = false.
Proof.
  destruct j as [ |[]|lit|s|vs|ms]; intros H; try (now eexists _, _).
  simpl in H. apply number_literal_head in H as (c & r & -> & Hc).
  apply number_head in Hc as (? & _ & _ & _ & ?). now exists c, r.
Qed.

Lemma scan_elems_sanitize (d : Z) (vs : list value) (rest : string) :
  Forall (fun v => forall d rest, printable d v = true -> ends_number rest = true ->
                   exists fuel,
                     scan_value fuel d (print v +:+ rest) = Parsed (sanitize v) rest) vs ->
  vs <> [] -> forallb (printable d) vs = true ->
  exists fuel,
    scan_elems fuel d (join "," (map print vs) +:+ String "]" rest)
    = Parsed (map sanitize vs) rest.
Proof.
  intros HF. induction HF as [|v vs Hv HF IH]; [contradiction|]. intros _ Hwf.
  cbn [forallb] in Hwf. apply andb_true_iff in Hwf as [Hwv Hwf].
  destruct vs as [|v' vs'].
  - destruct (Hv d (String "]" rest) Hwv eq_refl) as (f & Hf).
    exists (S f). rewrite scan_elems_S. cbn [map join]. rewrite Hf. reflexivity.
  - destruct (IH ltac:(discriminate) Hwf) as (f2 & Hf2).
    set (J := join "," (map print (v' :: vs'))) in *.
    destruct (Hv d (String "," (J +:+ String "]" rest)) Hwv eq_refl) as (f1 & Hf1).
    exists (S (Nat.max f1 f2)). rewrite scan_elems_S.
    change (join "," (map print (v :: v' :: vs'))) with (print v +:+ "," +:+ J).
    rewrite !sapp_assoc. cbn [String.append].
    rewrite (scan_value_fuel_mono _ (Nat.max f1 f2) _ _ _ Hf1) by (discriminate || lia).
    cbn [bind_scanned]. rewrite skip_space_head by reflexivity.
    change (Ascii.eqb "," ",") with true. cbv iota.
    rewrite (scan_elems_fuel_mono _ (Nat.max f1 f2) _ _ _ Hf2) by (discriminate || lia).
    reflexivity.
Qed.

Lemma scan_members_sanitize (d : Z) (ms : list (string * value)) (rest : string) :
  Forall (fun kv => forall d rest, printable d (snd kv) = true -> ends_number rest = true ->
                    exists fuel,
                      scan_value fuel d (print (snd kv) +:+ rest)
                      = Parsed (sanitize (snd kv)) rest) ms ->
  ms <> [] ->
  forallb (fun kv => printable d (snd kv)) ms = true ->
  exists fuel,
    scan_members fuel d
      (join "," (map (fun kv => appendString (fst kv) +:+ ":" +:+ print (snd kv)) ms)
       +:+ String "}" rest)
    = Parsed (map (fun kv => (coerce (fst kv), sanitize (snd kv))) ms) rest.
Proof.
  intros HF. induction HF as [|[k v] ms Hv HF IH]; [contradiction|]. intros _ Hwf.
  cbn [forallb fst snd] in Hwf, Hv. apply andb_true_iff in Hwf as [Hwv Hwf].
  destruct ms as [|kv' ms'].
  - destruct (Hv d (String "}" rest) Hwv eq_refl) as (f & Hf).
    exists (S f). rewrite scan_members_S. cbn [map join fst snd].
    rewrite !sapp_assoc, appendString_app.
    rewrite skip_space_head by reflexivity.
    change (Ascii.eqb dquote dquote) with true. cbv iota.
    rewrite scan_string_appendString. cbn [bind_scanned].
    rewrite unquote_coerce. cbn [String.append].
    rewrite skip_space_head by reflexivity.
    change (Ascii.eqb ":" ":") with true. cbv iota.
    rewrite Hf. reflexivity.
  - destruct (IH ltac:(discriminate) Hwf) as (f2 & Hf2).
    set (J := join "," (map _ (kv' :: ms'))) in *.
    destruct (Hv d (String "," (J +:+ String "}" rest)) Hwv eq_refl) as (f1 & Hf1).
    exists (S (Nat.max f1 f2)). rewrite scan_members_S.
    change (join "," (map ?f ((k, v) :: kv' :: ms')))
      with ((appendString k +:+ ":" +:+ print v) +:+ "," +:+ J).
    rewrite !sapp_assoc, appendString_app.
    rewrite skip_space_head by reflexivity.
    change (Ascii.eqb dquote dquote) with true. cbv iota.
    rewrite scan_string_appendString. cbn [bind_scanned].
    rewrite unquote_coerce. cbn [String.append].
    rewrite skip_space_head by reflexivity.
    change (Ascii.eqb ":" ":") with true. cbv iota.
    rewrite (scan_value_fuel_mono _ (Nat.max f1 f2) _ _ _ Hf1) by (discriminate || lia).
    cbn [bind_scanned]. rewrite skip_space_head by reflexivity.
    change (Ascii.eqb "," ",") with true. cbv iota.
    rewrite (scan_members_fuel_mono _ (Nat.max f1 f2) _ _ _ Hf2) by (discriminate || lia).
    reflexivity.
Qed.

Lemma scan_value_sanitize (j : value) :
  forall d rest, printable d j = true -> ends_number rest = true ->
  exists fuel, scan_value fuel d (print j +:+ rest) = Parsed (sanitize j) rest.
Proof.
  induction j as [ |b|lit|s|vs IH|ms IH] using value_ind; intros d rest Hwf Hr.
  - now exists 1%nat.
  - exists 1%nat. now destruct b.
  - exists 1%nat. now apply scan_value_Num.
  - exists 1%nat. apply scan_value_Str_coerce.
  - cbn [printable] in Hwf. apply andb_true_iff in Hwf as [Hd Hwf].
    apply Z.leb_le in Hd.
    destruct vs as [|v vs].
    { exists 1%nat. rewrite scan_value_S. cbn.
      destruct (maxNestingDepth <? d + 1) eqn:E; [lia|reflexivity]. }
    destruct (scan_elems_sanitize (d + 1) (v :: vs) rest IH ltac:(discriminate) Hwf)
      as (f & Hf).
    exists (S f). rewrite scan_value_S. cbn [print sanitize]. rewrite !sapp_assoc.
    cbn [String.append]. rewrite skip_space_head by reflexivity.
    change (Ascii.eqb "[" "{") with false. change (Ascii.eqb "[" "[") with true. cbv iota.
    destruct (maxNestingDepth <? d + 1) eqn:E; [lia|].
    pose proof Hwf as Hwv. cbn [forallb] in Hwv. apply andb_true_iff in Hwv as [Hwv _].
    destruct (print_head_printable _ _ Hwv) as (c & r & Hp & Hsp & Hc).
    destruct (join_head "," (print v) (map print vs) (String "]" rest) c r Hp) as (Y & HY).
    change (map print (v :: vs)) with (print v :: map print vs) in Hf |- *.
    rewrite HY in Hf |- *.
    rewrite (skip_space_head _ _ Hsp), Hc, Hf. reflexivity.
  - cbn [printable] in Hwf. apply andb_true_iff in Hwf as [Hd Hwf].
    apply Z.leb_le in Hd.
    destruct ms as [|kv ms].
    { exists 1%nat. rewrite scan_value_S. cbn.
      destruct (maxNestingDepth <? d + 1) eqn:E; [lia|reflexivity]. }
    destruct (scan_members_sanitize (d + 1) (kv :: ms) rest IH ltac:(discriminate) Hwf)
      as (f & Hf).
    set (pm := fun kv : string * value => appendString (fst kv) +:+ ":" +:+ print (snd kv))
      in Hf.
    exists (S f). rewrite scan_value_S.
    change (print (Obj (kv :: ms))) with ("{" +:+ join "," (map pm (kv :: ms)) +:+ "}").
    rewrite !sapp_assoc.
    cbn [String.append sanitize]. rewrite skip_space_head by reflexivity.
    change (Ascii.eqb "{" "{") with true. cbv iota.
    destruct (maxNestingDepth <? d + 1) eqn:E; [lia|].
    destruct (join_head "," (pm kv) (map pm ms) (String "}" rest) dquote _ eq_refl)
      as (Y & HY).
    change (map pm (kv :: ms)) with (pm kv :: map pm ms) in Hf |- *.
    rewrite HY in Hf |- *.
    rewrite skip_space_head by reflexivity.
    change (Ascii.eqb dquote "}") with false. cbv iota. rewrite Hf. reflexivity.
Qed.

(** The text of the encoder is JSON, whatever bytes the strings hold: the
    scanner reads it as the value with its strings coerced to valid
    UTF-8. *)
Lemma scan_print_sanitize (j : value) :
  printable 0 j = true -> scan (print j) = Parsed (sanitize j) "".
Proof.
  intros Hwf. destruct (scan_value_sanitize j 0 "" Hwf eq_refl) as (f & Hf).
  rewrite sapp_nil_r in Hf. apply (scan_value_scan f); [exact Hf|discriminate].
Qed.

(** X15.  The request of [Assemble] again.  For all bytes in the user address
    and the path identifier, [Marshal] succeeds, what it writes is valid
    JSON, and [Unmarshal] makes of it the request with the two strings
    coerced to valid UTF-8.  So the round trip gives the request back
    exactly when the two strings are their own coercion, as every valid
    UTF-8 string is. *)
Theorem Assemble_body_roundtrip `{!strconv.FloatFormat}
    (userAddr pathId : string) (isSimulate : bool) (old : denote odos.AssembleRequest) :
  exists text,
    Marshal odos.AssembleRequest (odos.mkAssembleRequest userAddr pathId isSimulate) = Ok text
    /\ Valid text = true
    /\ Unmarshal odos.AssembleRequest text old
       = Ok (odos.mkAssembleRequest (coerce userAddr) (coerce pathId) isSimulate)
    /\ (utf8.ValidString userAddr = true -> coerce userAddr = userAddr)
    /\ (utf8.ValidString pathId = true -> coerce pathId = pathId).
Proof.
  set (j := Obj [("userAddr", Str userAddr); ("pathId", Str pathId);
                 ("simulate", Bool isSimulate)]).
  assert (Hs : scan (print j) = Parsed (sanitize j) "") by now apply scan_print_sanitize.
  exists (print j). split; [reflexivity|].
  split; [unfold Valid, checkValid; now rewrite Hs|].
  split; [|split; apply coerce_valid].
  unfold Unmarshal, checkValid. rewrite Hs. cbn [skip_space].
  destruct old as (o1 & o2 & o3 & []). reflexivity.
Qed.

(** ** A body without a value *)

Lemma nonSpace_false_skip (s : string) : nonSpace s = false -> skip_space s = "".
Proof.
  induction s as [|c s IH]; [reflexivity|]. cbn [nonSpace skip_space].
  destruct (isSpace c); cbn [negb orb]; [exact IH|discriminate].
Qed.

Lemma scan_blank (s : string) : nonSpace s = false -> scan s = Incomplete.
Proof.
  intros Hs. unfold scan. rewrite scan_value_S. now rewrite (nonSpace_false_skip _ Hs).
Qed.

Lemma Decode_blank (t : gotype) (blank : string) (old : denote t) :
  nonSpace blank = false ->
  Decode t {| io.data := blank; io.err := None |} old = Err io.EOF.
Proof.
  intros Hs. unfold Decode, readValue. cbn [io.data io.err].
  now rewrite (scan_blank _ Hs), Hs.
Qed.

Lemma Unmarshal_blank (t : gotype) (blank : string) (old : denote t) :
  nonSpace blank = false ->
  Unmarshal t blank old = Err (SyntaxError "unexpected end of JSON input").
Proof. intros Hs. unfold Unmarshal, checkValid. now rewrite (scan_blank _ Hs). Qed.

(** X16.  The server answers with a body that ends without a value: it is
    empty or holds white space only.  [GetTokenPrice] and [Quote] fail with
    an error that wraps [io.EOF], whatever the status; [Assemble], which
    reads the body first, fails at a status of 200 with an error that wraps
    the syntax error "unexpected end of JSON input". *)
Theorem odos_blank_body `{!strconv.FloatFormat, !url.Parser}
    (w : World) (σ : state odos.OdosClient) (c : loc) (this : odos.OdosClient)
    (hc : http.Client) (code : Z) (blank : string) :
  let resp := {| http.Response.StatusCode := code;
                 http.Response.Body := {| io.data := blank; io.err := None |} |} in
  clients σ !! c = Some this ->
  httpClients σ !! odos.httpClient this = Some hc ->
  nonSpace blank = false ->
  (forall chainID tokenAddr,
      let url := odos.baseURL this +:+ "/pricing/token/" +:+ chainID +:+ "/" +:+ tokenAddr in
      let rq := request "GET" url None in
      url.ParseError url = None ->
      RoundTrip w hc rq = Ok resp ->
      exists err, run (odos.GetTokenPrice c chainID tokenAddr) w σ
                  = Returns (None, Some err) (log σ rq)
                  /\ wraps err "failed to decode response: " io.EOF)
  /\ (forall req jsonData,
        let url := odos.baseURL this +:+ "/sor/quote/v2" in
        let rq := odos.set_headers (request "POST" url (Some jsonData)) in
        Marshal (TPtr odos.QuoteRequest) req = Ok jsonData ->
        url.ParseError url = None ->
        RoundTrip w hc rq = Ok resp ->
        exists err, run (odos.Quote c req) w σ = Returns (None, Some err) (log σ rq)
                    /\ wraps err "failed to decode response: " io.EOF)
  /\ (forall userAddr pathId isSimulate jsonData,
        let url := odos.baseURL this +:+ "/sor/assemble" in
        let rq := odos.set_headers (request "POST" url (Some jsonData)) in
        Marshal odos.AssembleRequest (odos.mkAssembleRequest userAddr pathId isSimulate)
        = Ok jsonData ->
        url.ParseError url = None ->
        RoundTrip w hc rq = Ok resp ->
        code = 200 ->
        exists err, run (odos.Assemble c userAddr pathId isSimulate) w σ
                    = Returns (None, Some err) (log σ rq)
                    /\ wraps err "failed to decode response: "
                         (SyntaxError "unexpected end of JSON input")).
Proof.
  intros resp Hc Hp Hb. split; [|split].
  - intros chainID tokenAddr url rq Hu Hrt.
    pose proof (GetTokenPrice_run w σ c this hc Hc Hp chainID tokenAddr) as E. cbv zeta in E.
    rewrite Sprintf_pricing in E. fold url in E. fold rq in E.
    rewrite Hu, Hrt in E. cbn [resp http.Response.Body] in E.
    rewrite (Decode_blank _ _ _ Hb) in E. eexists. split; [exact E|show_wraps].
  - intros req jsonData url rq HM Hu Hrt.
    pose proof (Quote_run w σ c this hc Hc Hp req) as E. cbv zeta in E.
    rewrite Sprintf_quote, HM in E. fold url in E. rewrite Hu in E. fold rq in E.
    rewrite Hrt in E. cbn [resp http.Response.Body] in E.
    rewrite (Decode_blank _ _ _ Hb) in E. eexists. split; [exact E|show_wraps].
  - intros userAddr pathId isSimulate jsonData url rq HM Hu Hrt ->.
    pose proof (Assemble_run w σ c this hc Hc Hp userAddr pathId isSimulate) as E.
    cbv zeta in E. rewrite Sprintf_assemble, HM in E. fold url in E. rewrite Hu in E.
    fold rq in E. rewrite Hrt in E. cbn [resp http.Response.Body io.err io.data
                                 http.Response.StatusCode] in E.
    change (negb (200 =? http.StatusOK)) with false in E. cbv iota in E.
    rewrite (Unmarshal_blank _ _ _ Hb) in E. eexists. split; [exact E|show_wraps].
Qed.

Lemma odos_blank_body_witness :
  exists err,
    run (@odos.GetTokenPrice sample.accept_all 1%positive "1" "0x6B17")
      (sample.server 200 "" None) sample.odos_store
    = Returns (None, Some err)
        (log sample.odos_store
           (request "GET" "https://api.odos.xyz/pricing/token/1/0x6B17" None))
    /\ wraps err "failed to decode response: " io.EOF.
Proof.
  destruct (@odos_blank_body sample.exact_decimal sample.accept_all
              (sample.server 200 "" None) sample.odos_store 1%positive
              {| odos.httpClient := 1%positive; odos.baseURL := odos._baseURL |}
              {| http.Timeout := 10 * time.Second |} 200 "" eq_refl eq_refl eq_refl)
    as [H _].
  exact (H "1" "0x6B17" eq_refl eq_refl).
Defined.

(** X17.  The server answers with a status of 200 and a body that is empty
    or holds white space only: [GetRoutes] and [BuildRoute] fail with an
    error that wraps [io.EOF] under "error decoding response: ". *)
Theorem kyberswap_blank_body `{!strconv.FloatFormat, !url.Parser}
    (w : World) (σ : state kyberswap.KyberSwapClient) (c : loc)
    (this : kyberswap.KyberSwapClient) (hc : http.Client) (blank : string) :
  let resp := {| http.Response.StatusCode := 200;
                 http.Response.Body := {| io.data := blank; io.err := None |} |} in
  clients σ !! c = Some this ->
  httpClients σ !! kyberswap.httpClient this = Some hc ->
  nonSpace blank = false ->
  (forall tokenIn tokenOut amountIn,
      let url := kyberswap.baseURL this +:+ "/api/v1/routes?tokenIn=" +:+ tokenIn
                 +:+ "&tokenOut=" +:+ tokenOut +:+ "&amountIn=" +:+ amountIn in
      let rq := request "GET" url None in
      url.ParseError url = None ->
      RoundTrip w hc rq = Ok resp ->
      exists err, run (kyberswap.GetRoutes c tokenIn tokenOut amountIn) w σ
                  = Returns (None, Some err) (log σ rq)
                  /\ wraps err "error decoding response: " io.EOF)
  /\ (forall routeSummary sender recipient jsonBody,
        let url := kyberswap.baseURL this +:+ "/api/v1/route/build" in
        let rq := http.Request.with_header (request "POST" url (Some jsonBody))
                    "Content-Type" "application/json" in
        Marshal kyberswap.BuildRouteRequest
          (kyberswap.mkBuildRouteRequest routeSummary sender recipient
             (wrap64 (UnixNow w + 20 * 3600)) 10) = Ok jsonBody ->
        url.ParseError url = None ->
        RoundTrip w hc rq = Ok resp ->
        exists err, run (kyberswap.BuildRoute c routeSummary sender recipient) w σ
                    = Returns (None, Some err) (log σ rq)
                    /\ wraps err "error decoding response: " io.EOF).
Proof.
  intros resp Hc Hp Hb. split.
  - intros tokenIn tokenOut amountIn url rq Hu Hrt.
    pose proof (GetRoutes_run w σ c this hc Hc Hp tokenIn tokenOut amountIn) as E.
    cbv zeta in E. rewrite Sprintf_routes in E. fold url in E. fold rq in E.
    rewrite Hu, Hrt in E. cbn [resp http.Response.Body http.Response.StatusCode] in E.
    change (negb (200 =? http.StatusOK)) with false in E. cbv iota in E.
    rewrite (Decode_blank _ _ _ Hb) in E. eexists. split; [exact E|show_wraps].
  - intros routeSummary sender recipient jsonBody url rq HM Hu Hrt.
    pose proof (BuildRoute_run w σ c this hc Hc Hp routeSummary sender recipient) as E.
    cbv zeta in E. rewrite Sprintf_build, HM in E. fold url in E. rewrite Hu in E.
    fold rq in E. rewrite Hrt in E. cbn [resp http.Response.Body http.Response.StatusCode] in E.
    change (negb (200 =? http.StatusOK)) with false in E. cbv iota in E.
    rewrite (Decode_blank _ _ _ Hb) in E. eexists. split; [exact E|show_wraps].
Qed.

Lemma kyberswap_blank_body_witness :
  exists err,
    run (@kyberswap.GetRoutes sample.accept_all 1%positive "0xdac1" "0x9D39" "100")
      (sample.server 200 " " None) sample.kyber_store
    = Returns (None, Some err)
        (log sample.kyber_store
           (request "GET"
              ("https://aggregator-api.kyberswap.com/ethereum/api/v1/routes"
               +:+ "?tokenIn=0xdac1&tokenOut=0x9D39&amountIn=100") None))
    /\ wraps err "error decoding response: " io.EOF.
Proof.
  destruct (@kyberswap_blank_body sample.exact_decimal sample.accept_all
              (sample.server 200 " " None) sample.kyber_store 1%positive
              sample.kyber_client {| http.Timeout := 10 * time.Second |} " "
              eq_refl eq_refl eq_refl) as [H _].
  exact (H "0xdac1" "0x9D39" "100" eq_refl eq_refl).
Defined.

(** ** The round trip of a record with any strings *)

Lemma well_formed_printable (j : value) :
  forall d, well_formed d j = true -> printable d j = true /\ sanitize j = j.
Proof.
  induction j as [ |b|lit|s|vs IH|ms IH] using value_ind; intros d Hwf;
    try (split; [exact Hwf || reflexivity|reflexivity]).
  - split; [reflexivity|]. cbn [sanitize]. now rewrite (coerce_valid _ Hwf).
  - cbn [well_formed printable sanitize] in Hwf |- *.
    apply andb_true_iff in Hwf as [-> Hwf]. cbn [andb].
    assert (G : forallb (printable (d + 1)) vs = true /\ map sanitize vs = vs).
    { induction IH as [|v vs Hv _ IHvs]; [now split|]. cbn [forallb map] in Hwf |- *.
      apply andb_true_iff in Hwf as [Hv1 Hvs]. destruct (Hv _ Hv1) as [-> ->].
      destruct (IHvs Hvs) as [-> ->]. now split. }
    destruct G as [-> ->]. now split.
  - cbn [well_formed printable sanitize] in Hwf |- *.
    apply andb_true_iff in Hwf as [-> Hwf]. cbn [andb].
    assert (G : forallb (fun kv => printable (d + 1) (snd kv)) ms = true
                /\ map (fun kv => (coerce (fst kv), sanitize (snd kv))) ms = ms).
    { induction IH as [|[k v] ms Hv _ IHms]; [now split|]. cbn [forallb map fst snd] in Hwf, Hv |- *.
      apply andb_true_iff in Hwf as [[Hk Hv1]%andb_true_iff Hms].
      destruct (Hv _ Hv1) as [-> ->]. rewrite (coerce_valid _ Hk).
      destruct (IHms Hms) as [-> ->]. now split. }
    destruct G as [-> ->]. now split.
Qed.

Section RoundTripAnyStrings.
Context `{!strconv.FloatFormat}.

Lemma slice_roundtrip_coerced (e : gotype) (d : Z) (l : list (denote e)) :
  (forall d v, lenient e d v = true ->
     exists j, toJSON e v = Ok j /\ printable d j = true
               /\ (nullable e = false -> sanitize j <> Null)
               /\ forall old, fromJSON e (sanitize j) old = Ok (coerced e v)) ->
  forallb (lenient e d) l = true ->
  exists vs, mapM (toJSON e) l = Ok vs /\ forallb (printable d) vs = true
             /\ forall old,
                  decode_elems (fromJSON e) (zero e) (map sanitize vs) old
                  = Ok (map (coerced e) l).
Proof.
  intros He. induction l as [|x l IH]; [now exists []|].
  cbn [forallb]. intros [Hx Hl]%andb_true_iff.
  destruct (He d x Hx) as (j & Hj & Hwj & _ & Hback). destruct (IH Hl) as (vs & Hvs & Hwf & Hbacks).
  exists (j :: vs). cbn [mapM forallb decode_elems map]. rewrite Hj, Hvs, Hwj, Hwf.
  repeat split. intros old. rewrite Hback. cbn [mbind result_bind]. now rewrite Hbacks.
Qed.

Lemma toJSON_fromJSON_coerced :
  (forall t, roundtrips t = true -> forall d (v : denote t), lenient t d v = true ->
     exists j, toJSON t v = Ok j /\ printable d j = true
               /\ (nullable t = false -> sanitize j <> Null)
               /\ forall old, fromJSON t (sanitize j) old = Ok (coerced t v))
  /\ (forall fs, roundtrips_fields fs = true ->
        forall d (v : denote_fields fs), lenient_fields fs d v = true ->
        exists ms, toJSON_fields fs v = Ok ms /\ map fst ms = tags fs
                   /\ forallb (fun kv => printable d (snd kv)) ms = true
                   /\ forall old,
                        decode_members (find_field fs) (fromJSON_field fs)
                          (map (fun kv => (coerce (fst kv), sanitize (snd kv))) ms) old
                        = Ok (coerced_fields fs v)).
Proof.
  apply gotype_mutind.
  - intros _ d v _. exists (Str v). split; [reflexivity|]. split; [reflexivity|].
    split; [discriminate|]. reflexivity.
  - intros _ d v _. exists (Bool v). now repeat split.
  - intros _ d v Hv. exists (Num (strconv.FormatInt v)).
    cbn [toJSON printable sanitize fromJSON coerced].
    rewrite number_literal_FormatInt, (ParseInt_FormatInt _ Hv). now repeat split.
  - intros _ d v Hv. exists (Num (strconv.FormatInt v)).
    cbn [toJSON printable sanitize fromJSON coerced].
    rewrite number_literal_FormatInt, (ParseInt_FormatInt _ Hv). now repeat split.
  - intros _ d v Hv. destruct (float_roundtrip v Hv) as (Hj & Hn & Hp).
    exists (Num (strconv.FormatFloat v)). cbn [toJSON printable sanitize fromJSON coerced].
    rewrite Hp. now repeat split.
  - intros _ d v Hv. destruct (any_roundtrip v d Hv) as (j & Hj & Hwf & Hback).
    destruct (well_formed_printable j d Hwf) as [Hpr Hsan].
    exists j. cbn [toJSON fromJSON coerced]. rewrite Hsan. split; [exact Hj|].
    split; [exact Hpr|]. split; [discriminate|]. intros _. exact Hback.
  - intros e IH Hr d [l|] Hv; [|exists Null; now repeat split].
    cbn [roundtrips] in Hr. cbn [lenient] in Hv. apply andb_true_iff in Hv as [Hd Hv].
    destruct (slice_roundtrip_coerced e (d + 1) l (IH Hr) Hv) as (vs & Hvs & Hwf & Hback).
    exists (Arr vs). cbn [toJSON printable sanitize fromJSON coerced]. rewrite Hvs, Hd, Hwf.
    split; [reflexivity|]. split; [reflexivity|]. split; [discriminate|].
    intros old. now rewrite Hback.
  - intros e IH Hr d [x|] Hv; [|exists Null; now repeat split].
    cbn [roundtrips] in Hr. apply andb_true_iff in Hr as [Hn%negb_true_iff Hr].
    cbn [lenient] in Hv. destruct (IH Hr d x Hv) as (j & Hj & Hwf & Hnull & Hback).
    exists j. cbn [toJSON fromJSON coerced]. split; [exact Hj|]. split; [exact Hwf|].
    split; [discriminate|]. intros old. specialize (Hnull Hn).
    destruct (sanitize j); try contradiction; now rewrite Hback.
  - intros name fs IH Hr d v Hv. cbn [roundtrips] in Hr. cbn [lenient] in Hv.
    apply andb_true_iff in Hv as [Hd Hv].
    destruct (IH Hr (d + 1) v Hv) as (ms & Hms & _ & Hwf & Hback).
    exists (Obj ms). cbn [toJSON printable sanitize fromJSON coerced]. rewrite Hms, Hd, Hwf.
    split; [reflexivity|]. split; [reflexivity|]. split; [discriminate|]. exact Hback.
  - intros _ d [] _. exists []. repeat split. now intros [].
  - intros g tag t IHt r IHr Hr d [x vr] Hv.
    cbn [roundtrips_fields] in Hr.
    apply andb_true_iff in Hr as [[[Hnew Htag]%andb_true_iff Hrt]%andb_true_iff Hrr].
    cbn [lenient_fields fst snd] in Hv. apply andb_true_iff in Hv as [Hvx Hvr].
    destruct (IHt Hrt d x Hvx) as (j & Hj & Hwj & _ & Hbackx).
    destruct (IHr Hrr d vr Hvr) as (ms & Hms & Htags & Hwf & Hbackr).
    exists ((tag, j) :: ms). cbn [toJSON_fields fst snd map tags forallb coerced_fields].
    rewrite Hj, Hms, Htags, Hwj, Hwf, (coerce_valid _ Htag). repeat split.
    intros [ox or]. cbn [decode_members fst snd].
    rewrite (find_field_tag (FCons g tag t r) tag (or_introl eq_refl)).
    cbn [fromJSON_field fst snd]. rewrite String.eqb_refl, Hbackx. cbn [mbind result_bind].
    rewrite decode_members_tail; [now rewrite Hbackr|].
    apply Forall_forall. intros [k j'] Hin. cbn [fst].
    apply list_elem_of_In, in_map_iff in Hin as ([k0 j0] & [= <- <-] & Hin0).
    cbn [fst snd].
    assert (Hk0 : In k0 (tags r)).
    { rewrite <- Htags. apply in_map_iff. now exists (k0, j0). }
    assert (Hvk : utf8.ValidString k0 = true).
    { clear -Hrr Hk0. induction r as [|g' tag' t' r' IHr']; [contradiction|].
      cbn [roundtrips_fields tags] in Hrr, Hk0.
      apply andb_true_iff in Hrr as [[[_ Ht']%andb_true_iff _]%andb_true_iff Hr'].
      destruct Hk0 as [<-|Hk0]; [exact Ht'|exact (IHr' Hr' Hk0)]. }
    rewrite (coerce_valid _ Hvk). split; [exact Hk0|]. intros ->.
    apply negb_true_iff in Hnew.
    assert (Hex : existsb (String.eqb tag) (tags r) = true).
    { apply existsb_exists. exists tag. split; [exact Hk0|apply String.eqb_refl]. }
    congruence.
Qed.

(** Whatever bytes the strings of a record hold: [Marshal] writes valid
    JSON, and [Unmarshal] makes of it the record with every string coerced
    to valid UTF-8. *)
Lemma Marshal_Unmarshal_coerced (t : gotype) (v old : denote t) :
  roundtrips t = true -> lenient t 0 v = true ->
  exists text, Marshal t v = Ok text /\ Valid text = true
               /\ Unmarshal t text old = Ok (coerced t v).
Proof.
  intros Hr Hv.
  destruct (proj1 toJSON_fromJSON_coerced t Hr 0 v Hv) as (j & Hj & Hwf & _ & Hback).
  exists (print j). unfold Marshal. rewrite Hj. split; [reflexivity|].
  unfold Valid, Unmarshal, checkValid. rewrite (scan_print_sanitize j Hwf). cbn [skip_space].
  split; [reflexivity|apply Hback].
Qed.

End RoundTripAnyStrings.

(** X18.  The request records again, with any bytes in their strings (those
    under [Route.Extra] apart).  When the integers fit 64 bits, the numbers
    are finite and written as literals that parse back, and the nesting
    stays within 10000: [Marshal] succeeds, what it writes is valid JSON,
    and [Unmarshal] makes of it the record in which every string is coerced
    to valid UTF-8, each byte that is part of no well-formed rune replaced
    by U+FFFD. *)
Theorem coerced_roundtrip `{!strconv.FloatFormat} (T : gotype) (req old : denote T) :
  In T [odos.QuoteRequest; odos.AssembleRequest; kyberswap.BuildRouteRequest] ->
  lenient T 0 req = true ->
  exists text, Marshal T req = Ok text /\ Valid text = true
               /\ Unmarshal T text old = Ok (coerced T req).
Proof.
  intros HT Hv. apply Marshal_Unmarshal_coerced; [|exact Hv].
  destruct HT as [<-|[<-|[<-|[]]]]; vm_compute; reflexivity.
Qed.

Lemma coerced_roundtrip_witness :
  exists text,
    @Marshal sample.exact_decimal odos.QuoteRequest sample.quote_request_raw = Ok text
    /\ Valid text = true
    /\ Unmarshal odos.QuoteRequest text (zero odos.QuoteRequest)
       = Ok (coerced odos.QuoteRequest sample.quote_request_raw).
Proof.
  apply (@coerced_roundtrip sample.exact_decimal odos.QuoteRequest
           sample.quote_request_raw (zero odos.QuoteRequest));
    [left; reflexivity|vm_compute; reflexivity].
Defined.
